(** * Brainrot Bosses: the encounter and combat core, embedded in Rocq

    A shallow embedding of the simulation core of the game
    (KickableObject.ts, Boss.ts, EncounterSystem.ts, and of Character.ts
    the unlock registry and the cooldowns) with the properties its
    specification states about it, and further properties of the code.

    Conventions of the embedding.

    - A JavaScript [number] is an exact rational ([Q]): rounding, NaN and
      the infinities of IEEE doubles are not modelled.  Where a field must
      be compared with a constant the comparison is up to [==] on [Q].
    - [Math.sqrt], [Math.cos], [Math.sin] and [Math.PI] have no rational
      counterpart; they are the operations of the class [JsRuntime], and a
      property that needs a fact about them states it ([SqrtLaws]).
      [Qsqrt] is a computable instance, exact on the integer squares.
    - [Math.random()] and [Date.now()] are inputs of the function that
      reads them.
    - Objects that the source shares by reference live in a store and
      are named by their index in it: the pooled enemies, which a zone's
      placements and the manager's map both name, and the zones of the
      catalog.  A prop is owned by the manager's map and is kept there by
      value.
    - Rendering (graphics, tweens, scale, camera) is left out.  The
      [console] lines of the boss and of the encounter manager are kept as
      output, those of the props and of the character manager are not.
    - A property access on [undefined] throws: a computation that can
      throw returns an [option]. *)

From Stdlib Require Import QArith Qround Lqa ZArith List String DecimalString DecimalNat Bool Lia.
Import ListNotations.

Local Open Scope Q_scope.

(* ================================================================== *)
(** * Part I: the model *)
(* ================================================================== *)

(** ** Numbers *)

(** [x < y] on numbers, as a test. *)
Definition Qltb (x y : Q) : bool := negb (Qle_bool y x).

Notation "x <=? y" := (Qle_bool x y) (at level 70, no associativity) : Q_scope.
Notation "x <? y" := (Qltb x y) (at level 70, no associativity) : Q_scope.

(** The part of the JavaScript runtime that rationals cannot compute. *)
Class JsRuntime : Type := {
  Math_sqrt : Q -> Q;
  Math_cos : Q -> Q;
  Math_sin : Q -> Q;
  Math_PI : Q;
  (** how a number prints inside a template string *)
  Number_toString : Q -> string
}.

(** What the properties below use of the square root. *)
Class SqrtLaws (J : JsRuntime) : Prop := {
  sqrt_zero : Math_sqrt 0 == 0;
  sqrt_increasing : forall a b : Q, 0 <= a -> a < b -> Math_sqrt a < Math_sqrt b
}.

(** A computable square root on the rationals: the integer square root
    of the floor, interpolated linearly up to the next integer square. *)
Definition Qsqrt (q : Q) : Q :=
  let n := Z.sqrt (Qfloor q) in
  inject_Z n + (q - inject_Z (n * n)) / inject_Z (2 * n + 1).

(** Taylor polynomials stand for the circular functions in [ComputeRuntime]. *)
Definition Qcos (a : Q) : Q := 1 - a * a / 2 + a * a * a * a / 24.

Definition Qsin (a : Q) : Q := a - a * a * a / 6 + a * a * a * a * a / 120.

(** Numbers print as numerator and denominator in [ComputeRuntime]. *)
Definition Zdigits (z : Z) : string :=
  match z with
  | Z0 => "0"%string
  | Zpos p => NilEmpty.string_of_uint (Pos.to_uint p)
  | Zneg p => String.append "-" (NilEmpty.string_of_uint (Pos.to_uint p))
  end.

Definition Qprint (q : Q) : string :=
  let r := Qred q in
  match Qden r with
  | xH => Zdigits (Qnum r)
  | d => String.append (Zdigits (Qnum r)) (String.append "/" (Zdigits (Zpos d)))
  end.

#[local] Instance ComputeRuntime : JsRuntime := {
  Math_sqrt := Qsqrt;
  Math_cos := Qcos;
  Math_sin := Qsin;
  Math_PI := 3.14159265;
  Number_toString := Qprint
}.

(** ** Arrays *)

(** [l[i] = f(l[i])], nothing when [i] is out of range. *)
Fixpoint modify {A : Type} (i : nat) (f : A -> A) (l : list A) : list A :=
  match l, i with
  | [], _ => []
  | a :: rest, O => f a :: rest
  | a :: rest, S i' => a :: modify i' f rest
  end.

(** ** Vector2 *)

Module Vector2.

(** Modelled from the spec: Vector2.ts is not among the sources; the spec
    gives the type as a mutable pair of numbers [{x, y}], starting at
    (0, 0). *)
Record t : Type := mk { x : Q; y : Q }.

Definition zero : t := mk 0 0.

(** Modelled from the spec: [v.set(a, b)] overwrites both coordinates (the
    tests of Vector2 fix it). *)
Definition set (a b : Q) (_ : t) : t := mk a b.

(** Modelled from the spec: [v.clone()] is a new vector with the same
    coordinates. *)
Definition clone (v : t) : t := mk (x v) (y v).

Section WithRuntime.
Context {J : JsRuntime}.

(** Modelled from the spec: Vector2.ts is not among the sources; the spec
    gives [distance(a,b)] as the pure Euclidean distance, and the tests
    fix [distance((0,0),(3,4)) = 5]. *)
Definition distance (a b : t) : Q :=
  let dx := x a - x b in
  let dy := y a - y b in
  Math_sqrt (dx * dx + dy * dy).

End WithRuntime.

End Vector2.

(** ** Sprite: the fields of a Phaser sprite that the simulation reads *)

Module Sprite.

Record t : Type := mk {
  x : Q;
  y : Q;
  rotation : Q;
  visible : bool;
  active : bool;
  tint : option Z
}.

Definition set_x (v : Q) (s : t) : t :=
  mk v (y s) (rotation s) (visible s) (active s) (tint s).

Definition set_y (v : Q) (s : t) : t :=
  mk (x s) v (rotation s) (visible s) (active s) (tint s).

Definition set_rotation (v : Q) (s : t) : t :=
  mk (x s) (y s) v (visible s) (active s) (tint s).

(** [sprite.setVisible(b)] *)
Definition setVisible (b : bool) (s : t) : t :=
  mk (x s) (y s) (rotation s) b (active s) (tint s).

(** [sprite.setActive(b)] *)
Definition setActive (b : bool) (s : t) : t :=
  mk (x s) (y s) (rotation s) (visible s) b (tint s).

(** [sprite.setTint(c)] *)
Definition setTint (c : Z) (s : t) : t :=
  mk (x s) (y s) (rotation s) (visible s) (active s) (Some c).

(** [sprite.clearTint()] *)
Definition clearTint (s : t) : t :=
  mk (x s) (y s) (rotation s) (visible s) (active s) None.

End Sprite.

(** ** KickableObject.ts *)

Module KickableObject.

Inductive ObjectType : Type := BARREL | BOX | STONE | LOG.

Inductive BreakEffect : Type := EXPLODE | SHATTER | SPLINTER.

Record ObjectConfig : Type := mkConfig {
  type : ObjectType;
  cfg_weight : Q;
  cfg_health : Q;
  breakEffect : BreakEffect;
  damage : Q;
  knockbackMultiplier : Q;
  cfg_sprite : string;
  scale : Q;
  cfg_bounceDecay : Q
}.

(** [KickableObject.OBJECT_CONFIGS] *)
Definition OBJECT_CONFIGS (ty : ObjectType) : ObjectConfig :=
  match ty with
  | BARREL => mkConfig BARREL 50 30 EXPLODE 40 1.5 "barrel-sprite" 0.6 0.85
  | BOX => mkConfig BOX 20 15 SHATTER 25 1.2 "box-sprite" 0.5 0.75
  | STONE => mkConfig STONE 80 50 SHATTER 60 2.0 "stone-sprite" 0.4 0.95
  | LOG => mkConfig LOG 70 40 SPLINTER 45 1.8 "log-sprite" 0.8 0.88
  end.

Record TrailPoint : Type := mkTrail { tx : Q; ty : Q; alpha : Q }.

Record t : Type := mk {
  sprite : Sprite.t;
  velocity : Vector2.t;
  health : Q;
  maxHealth : Q;
  config : ObjectConfig;
  isFlying : bool;
  isBroken : bool;
  hitboxRadius : Q;
  weight : Q;
  bounceDecay : Q;
  rotationSpeed : Q;
  trailPoints : list TrailPoint;
  lastTrailTime : Q;
  trailVisible : bool;
  breakEffectPlayed : bool
}.

Definition set_sprite (v : Sprite.t) (o : t) : t :=
  mk v (velocity o) (health o) (maxHealth o) (config o) (isFlying o)
     (isBroken o) (hitboxRadius o) (weight o) (bounceDecay o)
     (rotationSpeed o) (trailPoints o) (lastTrailTime o) (trailVisible o)
     (breakEffectPlayed o).

Definition set_velocity (v : Vector2.t) (o : t) : t :=
  mk (sprite o) v (health o) (maxHealth o) (config o) (isFlying o)
     (isBroken o) (hitboxRadius o) (weight o) (bounceDecay o)
     (rotationSpeed o) (trailPoints o) (lastTrailTime o) (trailVisible o)
     (breakEffectPlayed o).

Definition set_health (v : Q) (o : t) : t :=
  mk (sprite o) (velocity o) v (maxHealth o) (config o) (isFlying o)
     (isBroken o) (hitboxRadius o) (weight o) (bounceDecay o)
     (rotationSpeed o) (trailPoints o) (lastTrailTime o) (trailVisible o)
     (breakEffectPlayed o).

Definition set_isFlying (v : bool) (o : t) : t :=
  mk (sprite o) (velocity o) (health o) (maxHealth o) (config o) v
     (isBroken o) (hitboxRadius o) (weight o) (bounceDecay o)
     (rotationSpeed o) (trailPoints o) (lastTrailTime o) (trailVisible o)
     (breakEffectPlayed o).

Definition set_isBroken (v : bool) (o : t) : t :=
  mk (sprite o) (velocity o) (health o) (maxHealth o) (config o) (isFlying o)
     v (hitboxRadius o) (weight o) (bounceDecay o)
     (rotationSpeed o) (trailPoints o) (lastTrailTime o) (trailVisible o)
     (breakEffectPlayed o).

Definition set_rotationSpeed (v : Q) (o : t) : t :=
  mk (sprite o) (velocity o) (health o) (maxHealth o) (config o) (isFlying o)
     (isBroken o) (hitboxRadius o) (weight o) (bounceDecay o)
     v (trailPoints o) (lastTrailTime o) (trailVisible o)
     (breakEffectPlayed o).

Definition set_trailPoints (v : list TrailPoint) (o : t) : t :=
  mk (sprite o) (velocity o) (health o) (maxHealth o) (config o) (isFlying o)
     (isBroken o) (hitboxRadius o) (weight o) (bounceDecay o)
     (rotationSpeed o) v (lastTrailTime o) (trailVisible o)
     (breakEffectPlayed o).

Definition set_lastTrailTime (v : Q) (o : t) : t :=
  mk (sprite o) (velocity o) (health o) (maxHealth o) (config o) (isFlying o)
     (isBroken o) (hitboxRadius o) (weight o) (bounceDecay o)
     (rotationSpeed o) (trailPoints o) v (trailVisible o)
     (breakEffectPlayed o).

Definition set_trailVisible (v : bool) (o : t) : t :=
  mk (sprite o) (velocity o) (health o) (maxHealth o) (config o) (isFlying o)
     (isBroken o) (hitboxRadius o) (weight o) (bounceDecay o)
     (rotationSpeed o) (trailPoints o) (lastTrailTime o) v
     (breakEffectPlayed o).

Definition set_breakEffectPlayed (v : bool) (o : t) : t :=
  mk (sprite o) (velocity o) (health o) (maxHealth o) (config o) (isFlying o)
     (isBroken o) (hitboxRadius o) (weight o) (bounceDecay o)
     (rotationSpeed o) (trailPoints o) (lastTrailTime o) (trailVisible o)
     v.

(** [new KickableObject(scene, x, y, objectType)].  The sprite is made
    from a 64 by 64 texture; the trail graphics start hidden. *)
Definition new (x y : Q) (objectType : ObjectType) : t :=
  let config := OBJECT_CONFIGS objectType in
  mk (Sprite.mk x y 0 true true None)
     Vector2.zero
     (cfg_health config)
     (cfg_health config)
     config
     false
     false
     (64 * scale config / 2)
     (cfg_weight config)
     (cfg_bounceDecay config)
     0
     []
     0
     false
     false.

(** [applyKick(forceX, forceY, characterKickForce)]; [rnd] is the value
    [Math.random()] returns. *)
Definition applyKick (forceX forceY characterKickForce rnd : Q) (this : t) : t :=
  if isBroken this then this
  else
    let weightFactor := 100 / weight this in
    let adjustedForceX := forceX * weightFactor * (characterKickForce / 100) in
    let adjustedForceY := forceY * weightFactor * (characterKickForce / 100) in
    let this := set_velocity (Vector2.set adjustedForceX adjustedForceY (velocity this)) this in
    let this := set_isFlying true this in
    set_rotationSpeed ((rnd - 0.5) * 0.2) this.

(** [breakObject()] *)
Definition breakObject (this : t) : t :=
  if isBroken this || breakEffectPlayed this then this
  else
    let this := set_isBroken true this in
    let this := set_breakEffectPlayed true this in
    let this := set_isFlying false this in
    let this := set_velocity (Vector2.set 0 0 (velocity this)) this in
    set_sprite (Sprite.setActive false (Sprite.setVisible false (sprite this))) this.

(** [takeDamage(amount)] *)
Definition takeDamage (amount : Q) (this : t) : t :=
  if isBroken this then this
  else
    let this := set_health (health this - amount) this in
    if health this <=? 0 then breakObject this else this.

(** [updateTrail()] *)
Definition updateTrail (this : t) : t :=
  if (1 <? List.length (trailPoints this))%nat && isFlying this then
    let this := set_trailVisible true this in
    let faded := map (fun p => mkTrail (tx p) (ty p) (alpha p * 0.9)) (trailPoints this) in
    set_trailPoints (filter (fun p => 0.1 <? alpha p) faded) this
  else set_trailVisible false this.

(** [reset()] *)
Definition reset (this : t) : t :=
  let this := set_sprite (Sprite.setActive false (Sprite.setVisible false (sprite this))) this in
  let this := set_velocity (Vector2.set 0 0 (velocity this)) this in
  let this := set_isFlying false this in
  let this := set_isBroken false this in
  let this := set_breakEffectPlayed false this in
  let this := set_rotationSpeed 0 this in
  let this := set_sprite (Sprite.set_rotation 0 (sprite this)) this in
  let this := set_health (maxHealth this) this in
  let this := set_trailPoints [] this in
  set_trailVisible false this.

Section WithRuntime.
Context {J : JsRuntime}.

(** [Math.sqrt(velocity.x * velocity.x + velocity.y * velocity.y)]: the
    [impactForce] of [hitEnemy] and the [speed] of [update]. *)
Definition speed (this : t) : Q :=
  Math_sqrt (Vector2.x (velocity this) * Vector2.x (velocity this)
             + Vector2.y (velocity this) * Vector2.y (velocity this)).

(** [hitEnemy(enemy)].  [applyKnockback] is the enemy's method of that
    name when it has one; the result is the prop, the enemy and the
    number returned. *)
Definition hitEnemy {E : Type} (applyKnockback : option (Q -> Q -> E -> E))
    (enemy : E) (this : t) : t * E * Q :=
  if isBroken this || negb (isFlying this) then (this, enemy, 0)
  else
    let this := takeDamage 5 this in
    let impactForce := speed this in
    let enemy :=
      match applyKnockback with
      | Some knock =>
          knock (Vector2.x (velocity this) * 0.5) (Vector2.y (velocity this) * 0.5) enemy
      | None => enemy
      end in
    let this :=
      set_velocity (Vector2.mk (Vector2.x (velocity this) * 0.7)
                               (Vector2.y (velocity this) * 0.7)) this in
    let this :=
      if impactForce <? 50 then
        set_velocity (Vector2.set 0 0 (velocity this)) (set_isFlying false this)
      else this in
    (this, enemy, damage (config this)).

(** [update(deltaTime)]; [now] is the value [Date.now()] returns. *)
Definition update (deltaTime now : Q) (this : t) : t :=
  if isBroken this then this
  else
    let this :=
      if isFlying this then
        let s := sprite this in
        let s := Sprite.set_x (Sprite.x s + Vector2.x (velocity this) * deltaTime / 1000) s in
        let s := Sprite.set_y (Sprite.y s + Vector2.y (velocity this) * deltaTime / 1000) s in
        let s := Sprite.set_rotation (Sprite.rotation s + rotationSpeed this) s in
        let this := set_sprite s this in
        let this :=
          if 80 <? now - lastTrailTime this then
            let pts := trailPoints this ++ [mkTrail (Sprite.x s) (Sprite.y s) 0.6] in
            let this := set_lastTrailTime now this in
            if (6 <? List.length pts)%nat then set_trailPoints (tl pts) this
            else set_trailPoints pts this
          else this in
        let this :=
          set_velocity (Vector2.mk (Vector2.x (velocity this) * bounceDecay this)
                                   (Vector2.y (velocity this) * bounceDecay this)) this in
        if speed this <? 20 then
          let this := set_isFlying false this in
          let this := set_velocity (Vector2.set 0 0 (velocity this)) this in
          let this := set_rotationSpeed 0 this in
          set_trailPoints [] this
        else this
      else this in
    updateTrail this.

(** The calls a client can make on a prop. *)
Inductive Op : Type :=
| OpApplyKick (forceX forceY characterKickForce rnd : Q)
| OpHitEnemy
| OpTakeDamage (amount : Q)
| OpUpdate (deltaTime now : Q)
| OpReset.

Definition step (this : t) (op : Op) : t :=
  match op with
  | OpApplyKick fx fy k rnd => applyKick fx fy k rnd this
  | OpHitEnemy => fst (fst (hitEnemy (E := unit) None tt this))
  | OpTakeDamage amount => takeDamage amount this
  | OpUpdate dt now => update dt now this
  | OpReset => reset this
  end.

(** The prop after a sequence of calls. *)
Definition run (ops : list Op) (this : t) : t := fold_left step ops this.

End WithRuntime.

(** The invariant of the data model: a broken prop neither flies nor moves. *)
Definition broken_at_rest (this : t) : Prop :=
  isBroken this = true ->
  isFlying this = false
  /\ Vector2.x (velocity this) == 0 /\ Vector2.y (velocity this) == 0.

End KickableObject.

(** ** Effects: console lines, delayed calls, thrown errors *)

(** What a delayed call of the boss does when the scene's clock fires it. *)
Inductive Callback : Type :=
| ChargeLaunch                          (* executeChargeAttack, after 1000 ms *)
| ChargeEnd                             (* then after 500 ms *)
| BombWarning (i : nat) (playerPos : Vector2.t)  (* executeBombBarrage, after i * 300 ms *)
| BombExplode (bombX bombY : Q)         (* then after 800 ms *)
| SlamShockwave                         (* executeChargeSlam, after 1500 ms *)
| MegaBombExplode                       (* executeMegaBomb, after 1500 ms *)
| MegaFreezeExplode                     (* executeMegaFreeze, after 1200 ms *)
| DashAgain (playerPos : Vector2.t).    (* executeTripleDash, after i * 800 ms *)

Inductive Effect : Type :=
| Log (line : string)                       (* console.log *)
| Warn (line : string)                      (* console.warn *)
| DelayedCall (delay : Q) (cb : Callback).  (* scene.time.delayedCall *)

(** A computation that may throw ([None]) or return a value with the
    effects it had, in order. *)
Definition M (A : Type) : Type := option (A * list Effect).

Definition ret {A : Type} (a : A) : M A := Some (a, []).

Definition throw {A : Type} : M A := None.

Definition bind {A B : Type} (m : M A) (f : A -> M B) : M B :=
  match m with
  | None => None
  | Some (a, e1) =>
      match f a with
      | None => None
      | Some (b, e2) => Some (b, e1 ++ e2)
      end
  end.

Definition emit (e : Effect) : M unit := Some (tt, [e]).

Notation "x <- m ;; k" := (bind m (fun x => k))
  (at level 61, m at next level, right associativity).
Notation "m ;;; k" := (bind m (fun _ => k))
  (at level 61, right associativity).

(** [xs.forEach(x => f(x))] over a state. *)
Fixpoint forEach {A S : Type} (f : A -> S -> M S) (xs : list A) (s : S) : M S :=
  match xs with
  | [] => ret s
  | x :: rest => s' <- f x s ;; forEach f rest s'
  end.

(** The values [Date.now()] and [Math.random()] return during one call:
    the clock, and one draw for each place that draws. *)
Record Tick : Type := mkTick {
  now : Q;
  randomX : Q;       (* updateBerserkerMovement, first draw *)
  randomY : Q;       (* updateBerserkerMovement, second draw *)
  randomAngle : Q;   (* updateSwimmingMovement *)
  randomAttack : Q   (* updateBossAttacks *)
}.

(** ** The declarations of EncounterSystem.ts that the entities use *)

Inductive EnemyState : Type :=
  STATIONARY | PATROLLING | AGGROED | COMBAT | FLEEING.

(** [EnemyTypeId]; the table [ENEMY_TYPES] it indexes is not among the
    sources, so a type is named by its id. *)
Inductive EnemyTypeId : Type := BASIC | FAST | TANK | ELITE | SWARM.

Record BossPhase : Type := mkPhase {
  healthThreshold : Q;
  abilities : list string;
  movementPattern : string
}.

Record BossConfig : Type := mkBossConfig {
  boss_type : string;
  boss_name : string;
  boss_position : Vector2.t;
  boss_health : Q;
  phases : list BossPhase;
  boss_arenaRadius : Q;
  unlockCharacter : string
}.

(** ** Enemy.ts (not among the sources) *)

Module Enemy.

(** The fields of an [Enemy] that Boss.ts and EncounterSystem.ts read or
    write, then the properties EncounterSystem.ts attaches to an enemy
    ([(enemy as any).hasAggro] and the like), absent until attached. *)
Record t : Type := mk {
  sprite : Sprite.t;
  health : Q;
  maxHealth : Q;
  speed : Q;
  isDying : bool;
  hitboxRadius : Q;
  knockbackVelocity : Vector2.t;
  aggroRadius : option Q;
  currentState : option EnemyState;
  originalPosition : option Vector2.t;
  patrolPath : option (list Vector2.t);
  patrolIndex : option nat;
  hasAggro : option bool;
  movementType : option string
}.

Definition set_sprite (v : Sprite.t) (e : t) : t :=
  mk v (health e) (maxHealth e) (speed e) (isDying e) (hitboxRadius e)
     (knockbackVelocity e) (aggroRadius e) (currentState e)
     (originalPosition e) (patrolPath e) (patrolIndex e) (hasAggro e)
     (movementType e).

Definition set_health (v : Q) (e : t) : t :=
  mk (sprite e) v (maxHealth e) (speed e) (isDying e) (hitboxRadius e)
     (knockbackVelocity e) (aggroRadius e) (currentState e)
     (originalPosition e) (patrolPath e) (patrolIndex e) (hasAggro e)
     (movementType e).

Definition set_maxHealth (v : Q) (e : t) : t :=
  mk (sprite e) (health e) v (speed e) (isDying e) (hitboxRadius e)
     (knockbackVelocity e) (aggroRadius e) (currentState e)
     (originalPosition e) (patrolPath e) (patrolIndex e) (hasAggro e)
     (movementType e).

Definition set_speed (v : Q) (e : t) : t :=
  mk (sprite e) (health e) (maxHealth e) v (isDying e) (hitboxRadius e)
     (knockbackVelocity e) (aggroRadius e) (currentState e)
     (originalPosition e) (patrolPath e) (patrolIndex e) (hasAggro e)
     (movementType e).

Definition set_isDying (v : bool) (e : t) : t :=
  mk (sprite e) (health e) (maxHealth e) (speed e) v (hitboxRadius e)
     (knockbackVelocity e) (aggroRadius e) (currentState e)
     (originalPosition e) (patrolPath e) (patrolIndex e) (hasAggro e)
     (movementType e).

Definition set_hitboxRadius (v : Q) (e : t) : t :=
  mk (sprite e) (health e) (maxHealth e) (speed e) (isDying e) v
     (knockbackVelocity e) (aggroRadius e) (currentState e)
     (originalPosition e) (patrolPath e) (patrolIndex e) (hasAggro e)
     (movementType e).

Definition set_knockbackVelocity (v : Vector2.t) (e : t) : t :=
  mk (sprite e) (health e) (maxHealth e) (speed e) (isDying e) (hitboxRadius e)
     v (aggroRadius e) (currentState e)
     (originalPosition e) (patrolPath e) (patrolIndex e) (hasAggro e)
     (movementType e).

Definition set_aggroRadius (v : option Q) (e : t) : t :=
  mk (sprite e) (health e) (maxHealth e) (speed e) (isDying e) (hitboxRadius e)
     (knockbackVelocity e) v (currentState e)
     (originalPosition e) (patrolPath e) (patrolIndex e) (hasAggro e)
     (movementType e).

Definition set_currentState (v : option EnemyState) (e : t) : t :=
  mk (sprite e) (health e) (maxHealth e) (speed e) (isDying e) (hitboxRadius e)
     (knockbackVelocity e) (aggroRadius e) v
     (originalPosition e) (patrolPath e) (patrolIndex e) (hasAggro e)
     (movementType e).

Definition set_originalPosition (v : option Vector2.t) (e : t) : t :=
  mk (sprite e) (health e) (maxHealth e) (speed e) (isDying e) (hitboxRadius e)
     (knockbackVelocity e) (aggroRadius e) (currentState e)
     v (patrolPath e) (patrolIndex e) (hasAggro e)
     (movementType e).

Definition set_patrolPath (v : option (list Vector2.t)) (e : t) : t :=
  mk (sprite e) (health e) (maxHealth e) (speed e) (isDying e) (hitboxRadius e)
     (knockbackVelocity e) (aggroRadius e) (currentState e)
     (originalPosition e) v (patrolIndex e) (hasAggro e)
     (movementType e).

Definition set_patrolIndex (v : option nat) (e : t) : t :=
  mk (sprite e) (health e) (maxHealth e) (speed e) (isDying e) (hitboxRadius e)
     (knockbackVelocity e) (aggroRadius e) (currentState e)
     (originalPosition e) (patrolPath e) v (hasAggro e)
     (movementType e).

Definition set_hasAggro (v : option bool) (e : t) : t :=
  mk (sprite e) (health e) (maxHealth e) (speed e) (isDying e) (hitboxRadius e)
     (knockbackVelocity e) (aggroRadius e) (currentState e)
     (originalPosition e) (patrolPath e) (patrolIndex e) v
     (movementType e).

Definition set_movementType (v : option string) (e : t) : t :=
  mk (sprite e) (health e) (maxHealth e) (speed e) (isDying e) (hitboxRadius e)
     (knockbackVelocity e) (aggroRadius e) (currentState e)
     (originalPosition e) (patrolPath e) (patrolIndex e) (hasAggro e)
     v.

End Enemy.

(** The methods of [Enemy] that the boss and the manager call.  Their
    bodies are not among the sources: every property below holds for any
    methods of these types. *)
Class EnemyClass : Type := {
  (** [new Enemy(scene)] *)
  Enemy_new : Enemy.t;
  (** [enemy.spawn(x, y, enemyType)] *)
  Enemy_spawn : Q -> Q -> EnemyTypeId -> Enemy.t -> Enemy.t;
  (** [enemy.update(deltaTime, playerPos)] *)
  Enemy_update : Q -> Vector2.t -> Enemy.t -> Enemy.t;
  (** [enemy.takeDamage(amount)], with the boolean it returns *)
  Enemy_takeDamage : Q -> Enemy.t -> Enemy.t * bool;
  (** [enemy.reset()] *)
  Enemy_reset : Enemy.t -> Enemy.t
}.

(** Modelled from the spec: Enemy.ts is missing; the spec asks of the
    enemy collaborator a live position, health, a dying flag apart from
    dead, and says that [takeDamage] reduces health and reports the
    transition to health at most 0.  This instance does that and no
    more; it serves where a property is run on concrete data.  The health
    and speed of each type stand for the missing table [ENEMY_TYPES]. *)
#[local] Instance SpecEnemy : EnemyClass := {
  Enemy_new :=
    Enemy.mk (Sprite.mk 0 0 0 false false None) 0 0 0 false 0 Vector2.zero
             None None None None None None None;
  Enemy_spawn x y ty e :=
    let hp := match ty with BASIC => 30 | FAST => 20 | TANK => 80
                          | ELITE => 120 | SWARM => 10 end in
    let sp := match ty with BASIC => 100 | FAST => 160 | TANK => 60
                          | ELITE => 110 | SWARM => 130 end in
    Enemy.set_isDying false
      (Enemy.set_speed sp
        (Enemy.set_maxHealth hp
          (Enemy.set_health hp
            (Enemy.set_sprite (Sprite.mk x y 0 true true None) e))));
  Enemy_update dt playerPos e := e;
  Enemy_takeDamage amount e :=
    let e' := Enemy.set_health (Enemy.health e - amount) e in
    if (Enemy.health e' <=? 0) && negb (Enemy.isDying e)
    then (Enemy.set_isDying true e', true)
    else (e', false);
  Enemy_reset e :=
    Enemy.set_isDying false
      (Enemy.set_sprite
         (Sprite.setActive false (Sprite.setVisible false (Enemy.sprite e))) e)
}.

(** ** Boss.ts *)

Module Boss.

(** A boss is an [Enemy] ([base]) with the fields Boss.ts adds. *)
Record t : Type := mk {
  base : Enemy.t;
  bossConfig : BossConfig;
  currentPhase : nat;
  lastAttackTime : Q;
  attackCooldown : Q;
  arenaCenter : Vector2.t;
  arenaRadius : Q;
  circleAngle : Q;
  circleSpeed : Q;
  chargeTarget : option Vector2.t;
  isCharging : bool;
  swimDirection : Vector2.t;
  swimTimer : Q
}.

Definition set_base (v : Enemy.t) (b : t) : t :=
  mk v (bossConfig b) (currentPhase b) (lastAttackTime b) (attackCooldown b)
     (arenaCenter b) (arenaRadius b) (circleAngle b) (circleSpeed b)
     (chargeTarget b) (isCharging b) (swimDirection b) (swimTimer b).

Definition set_currentPhase (v : nat) (b : t) : t :=
  mk (base b) (bossConfig b) v (lastAttackTime b) (attackCooldown b)
     (arenaCenter b) (arenaRadius b) (circleAngle b) (circleSpeed b)
     (chargeTarget b) (isCharging b) (swimDirection b) (swimTimer b).

Definition set_lastAttackTime (v : Q) (b : t) : t :=
  mk (base b) (bossConfig b) (currentPhase b) v (attackCooldown b)
     (arenaCenter b) (arenaRadius b) (circleAngle b) (circleSpeed b)
     (chargeTarget b) (isCharging b) (swimDirection b) (swimTimer b).

Definition set_attackCooldown (v : Q) (b : t) : t :=
  mk (base b) (bossConfig b) (currentPhase b) (lastAttackTime b) v
     (arenaCenter b) (arenaRadius b) (circleAngle b) (circleSpeed b)
     (chargeTarget b) (isCharging b) (swimDirection b) (swimTimer b).

Definition set_circleAngle (v : Q) (b : t) : t :=
  mk (base b) (bossConfig b) (currentPhase b) (lastAttackTime b)
     (attackCooldown b) (arenaCenter b) (arenaRadius b) v (circleSpeed b)
     (chargeTarget b) (isCharging b) (swimDirection b) (swimTimer b).

Definition set_chargeTarget (v : option Vector2.t) (b : t) : t :=
  mk (base b) (bossConfig b) (currentPhase b) (lastAttackTime b)
     (attackCooldown b) (arenaCenter b) (arenaRadius b) (circleAngle b)
     (circleSpeed b) v (isCharging b) (swimDirection b) (swimTimer b).

Definition set_isCharging (v : bool) (b : t) : t :=
  mk (base b) (bossConfig b) (currentPhase b) (lastAttackTime b)
     (attackCooldown b) (arenaCenter b) (arenaRadius b) (circleAngle b)
     (circleSpeed b) (chargeTarget b) v (swimDirection b) (swimTimer b).

Definition set_swimDirection (v : Vector2.t) (b : t) : t :=
  mk (base b) (bossConfig b) (currentPhase b) (lastAttackTime b)
     (attackCooldown b) (arenaCenter b) (arenaRadius b) (circleAngle b)
     (circleSpeed b) (chargeTarget b) (isCharging b) v (swimTimer b).

Definition set_swimTimer (v : Q) (b : t) : t :=
  mk (base b) (bossConfig b) (currentPhase b) (lastAttackTime b)
     (attackCooldown b) (arenaCenter b) (arenaRadius b) (circleAngle b)
     (circleSpeed b) (chargeTarget b) (isCharging b) (swimDirection b) v.

(** [this.sprite.x += dx; this.sprite.y += dy] *)
Definition moveBy (dx dy : Q) (b : t) : t :=
  let s := Enemy.sprite (base b) in
  let s := Sprite.set_x (Sprite.x s + dx) s in
  let s := Sprite.set_y (Sprite.y s + dy) s in
  set_base (Enemy.set_sprite s (base b)) b.

(** The values of the enum [BossAttack] that [executeAttack] has a case
    for ([BASIC_ATTACK = 'basic_attack'] has none). *)
Inductive BossAttack : Type :=
| SUMMON_SWARM | CHARGE_ATTACK | BOMB_BARRAGE | CHARGE_SLAM | MEGA_BOMB
| ICE_DASH | FREEZE_WAVE | MEGA_FREEZE | TRIPLE_DASH.

(** The [switch (attack)] of [executeAttack]: the case whose enum value
    is the string [attack], if there is one. *)
Definition attackCase (attack : string) : option BossAttack :=
  if (attack =? "summon_swarm")%string then Some SUMMON_SWARM
  else if (attack =? "charge_attack")%string then Some CHARGE_ATTACK
  else if (attack =? "bomb_barrage")%string then Some BOMB_BARRAGE
  else if (attack =? "charge_slam")%string then Some CHARGE_SLAM
  else if (attack =? "mega_bomb")%string then Some MEGA_BOMB
  else if (attack =? "ice_dash")%string then Some ICE_DASH
  else if (attack =? "freeze_wave")%string then Some FREEZE_WAVE
  else if (attack =? "mega_freeze")%string then Some MEGA_FREEZE
  else if (attack =? "triple_dash")%string then Some TRIPLE_DASH
  else None.

(** [executeChargeAttack(playerPos)] *)
Definition executeChargeAttack (playerPos : Vector2.t) (b : t) : M t :=
  let b := set_chargeTarget (Some (Vector2.clone playerPos)) b in
  let b := set_isCharging true b in
  emit (DelayedCall 1000 ChargeLaunch) ;;; ret b.

(** [for (let i = from; i < from + count; i++) scene.time.delayedCall(i * gap, cb(i))] *)
Fixpoint delayedCalls (gap : Q) (cb : nat -> Callback) (from count : nat) : M unit :=
  match count with
  | O => ret tt
  | S count' =>
      emit (DelayedCall (inject_Z (Z.of_nat from) * gap) (cb from)) ;;;
      delayedCalls gap cb (S from) count'
  end.

(** The routine of each case of [executeAttack]. *)
Definition executeRoutine (attack : BossAttack) (playerPos : Vector2.t) (b : t) : M t :=
  match attack with
  | SUMMON_SWARM => emit (Log "Boss summons swarm enemies!") ;;; ret b
  | CHARGE_ATTACK => executeChargeAttack playerPos b
  | BOMB_BARRAGE =>
      delayedCalls 300 (fun i => BombWarning i playerPos) 0 5 ;;; ret b
  | CHARGE_SLAM =>
      b <- executeChargeAttack playerPos b ;;
      emit (DelayedCall 1500 SlamShockwave) ;;; ret b
  | MEGA_BOMB => emit (DelayedCall 1500 MegaBombExplode) ;;; ret b
  | ICE_DASH => executeChargeAttack playerPos b
  | FREEZE_WAVE => emit (Log "Boss creates freeze wave!") ;;; ret b
  | MEGA_FREEZE => emit (DelayedCall 1200 MegaFreezeExplode) ;;; ret b
  | TRIPLE_DASH =>
      delayedCalls 800 (fun _ => DashAgain playerPos) 0 3 ;;; ret b
  end.

(** [executeAttack(attack, playerPos)] *)
Definition executeAttack (attack : string) (playerPos : Vector2.t) (b : t) : M t :=
  emit (Log ("Boss executing attack: " ++ attack)%string) ;;;
  match attackCase attack with
  | Some routine => executeRoutine routine playerPos b
  | None => ret b
  end.

(** [availableAttacks[Math.floor(rnd * availableAttacks.length)]], printed
    as a template string prints it. *)
Definition pickAttack (rnd : Q) (availableAttacks : list string) : string :=
  let i := Qfloor (rnd * inject_Z (Z.of_nat (List.length availableAttacks))) in
  if (i <? 0)%Z then "undefined"%string
  else nth (Z.to_nat i) availableAttacks "undefined"%string.

(** [updateBossAttacks(deltaTime, playerPos)] *)
Definition updateBossAttacks (deltaTime : Q) (playerPos : Vector2.t) (tick : Tick)
    (b : t) : M t :=
  let currentTime := now tick in
  if currentTime - lastAttackTime b <? attackCooldown b then ret b
  else
    match nth_error (phases (bossConfig b)) (currentPhase b) with
    | None => throw
    | Some currentPhase =>
        let availableAttacks := abilities currentPhase in
        if (List.length availableAttacks =? 0)%nat then ret b
        else
          let attackName := pickAttack (randomAttack tick) availableAttacks in
          b <- executeAttack attackName playerPos b ;;
          ret (set_lastAttackTime currentTime b)
    end.

Section WithRuntime.
Context {J : JsRuntime} {EC : EnemyClass}.

(** [new Boss(scene, bossConfig)] *)
Definition new (bossConfig : BossConfig) : t :=
  mk Enemy_new bossConfig 0 0 2000
     (Vector2.clone (boss_position bossConfig)) (boss_arenaRadius bossConfig)
     0 1 None false (Vector2.mk 1 0) 0.

(** [spawn(x, y, enemyType)] *)
Definition spawn (x y : Q) (enemyType : EnemyTypeId) (b : t) : t :=
  let e := Enemy_spawn x y enemyType (base b) in
  let e := Enemy.set_health (boss_health (bossConfig b)) e in
  let e := Enemy.set_maxHealth (boss_health (bossConfig b)) e in
  let e := Enemy.set_hitboxRadius 40 e in
  let b := set_currentPhase 0 (set_base e b) in
  set_base (Enemy.set_sprite (Sprite.setTint 0xffffff (Enemy.sprite (base b))) (base b)) b.

(** [enterNextPhase()] *)
Definition enterNextPhase (tick : Tick) (b : t) : M t :=
  let b := set_currentPhase (S (currentPhase b)) b in
  emit (Log ("Boss entering phase "
             ++ Number_toString (inject_Z (Z.of_nat (currentPhase b + 1))))%string) ;;;
  let b := set_lastAttackTime (now tick - attackCooldown b) b in
  match nth_error (phases (bossConfig b)) (currentPhase b) with
  | None => throw
  | Some newPhase =>
      if (movementPattern newPhase =? "berserker")%string then
        ret (set_base (Enemy.set_speed (Enemy.speed (base b) * 1.5) (base b)) b)
      else if (movementPattern newPhase =? "frenzy")%string then
        ret (set_attackCooldown (attackCooldown b * 0.5) b)
      else ret b
  end.

(** [checkPhaseTransition()] *)
Definition checkPhaseTransition (tick : Tick) (b : t) : M t :=
  let healthPercent := Enemy.health (base b) / Enemy.maxHealth (base b) in
  if (currentPhase b <? List.length (phases (bossConfig b)) - 1)%nat then
    match nth_error (phases (bossConfig b)) (currentPhase b + 1) with
    | None => throw
    | Some nextPhaseConfig =>
        if healthPercent <=? healthThreshold nextPhaseConfig
        then enterNextPhase tick b
        else ret b
    end
  else ret b.

(** [updateCircleMovement(deltaTime)] *)
Definition updateCircleMovement (deltaTime : Q) (b : t) : t :=
  let b := set_circleAngle (circleAngle b + circleSpeed b * deltaTime / 1000) b in
  let radius := 100 in
  let targetX := Vector2.x (arenaCenter b) + Math_cos (circleAngle b) * radius in
  let targetY := Vector2.y (arenaCenter b) + Math_sin (circleAngle b) * radius in
  let dx := targetX - Sprite.x (Enemy.sprite (base b)) in
  let dy := targetY - Sprite.y (Enemy.sprite (base b)) in
  let distance := Math_sqrt (dx * dx + dy * dy) in
  if 5 <? distance then
    let moveSpeed := Enemy.speed (base b) * 0.7 in
    moveBy ((dx / distance) * moveSpeed * deltaTime / 1000)
           ((dy / distance) * moveSpeed * deltaTime / 1000) b
  else b.

(** [updateChaseMovement(deltaTime, playerPos, aggressive)] *)
Definition updateChaseMovement (deltaTime : Q) (playerPos : Vector2.t)
    (aggressive : bool) (b : t) : t :=
  let speed := if aggressive then Enemy.speed (base b) * 1.2 else Enemy.speed (base b) in
  let dx := Vector2.x playerPos - Sprite.x (Enemy.sprite (base b)) in
  let dy := Vector2.y playerPos - Sprite.y (Enemy.sprite (base b)) in
  let distance := Math_sqrt (dx * dx + dy * dy) in
  if 60 <? distance then
    moveBy ((dx / distance) * speed * deltaTime / 1000)
           ((dy / distance) * speed * deltaTime / 1000) b
  else b.

(** [updateBerserkerMovement(deltaTime, playerPos)] *)
Definition updateBerserkerMovement (deltaTime : Q) (playerPos : Vector2.t)
    (tick : Tick) (b : t) : t :=
  let speed := Enemy.speed (base b) * 1.5 in
  let dx := Vector2.x playerPos - Sprite.x (Enemy.sprite (base b)) in
  let dy := Vector2.y playerPos - Sprite.y (Enemy.sprite (base b)) in
  let distance := Math_sqrt (dx * dx + dy * dy) in
  let randomX := (randomX tick - 0.5) * 50 in
  let randomY := (randomY tick - 0.5) * 50 in
  if 40 <? distance then
    moveBy (((dx + randomX) / distance) * speed * deltaTime / 1000)
           (((dy + randomY) / distance) * speed * deltaTime / 1000) b
  else b.

(** [updateSwimmingMovement(deltaTime, playerPos, aggressive)] *)
Definition updateSwimmingMovement (deltaTime : Q) (playerPos : Vector2.t)
    (aggressive : bool) (tick : Tick) (b : t) : t :=
  let b := set_swimTimer (swimTimer b + deltaTime) b in
  let b :=
    if 2000 <? swimTimer b then
      let b :=
        if aggressive then
          let dx := Vector2.x playerPos - Sprite.x (Enemy.sprite (base b)) in
          let dy := Vector2.y playerPos - Sprite.y (Enemy.sprite (base b)) in
          let distance := Math_sqrt (dx * dx + dy * dy) in
          set_swimDirection
            (Vector2.set (dx / distance) (dy / distance) (swimDirection b)) b
        else
          let angle := randomAngle tick * Math_PI * 2 in
          set_swimDirection
            (Vector2.set (Math_cos angle) (Math_sin angle) (swimDirection b)) b in
      set_swimTimer 0 b
    else b in
  let speed :=
    if aggressive then Enemy.speed (base b) * 1.1 else Enemy.speed (base b) * 0.8 in
  moveBy (Vector2.x (swimDirection b) * speed * deltaTime / 1000)
         (Vector2.y (swimDirection b) * speed * deltaTime / 1000) b.

(** [updateFrenzyMovement(deltaTime, playerPos)] *)
Definition updateFrenzyMovement (deltaTime : Q) (playerPos : Vector2.t)
    (tick : Tick) (b : t) : t :=
  let speed := Enemy.speed (base b) * 2 in
  let time := now tick / 200 in
  let dx := Vector2.x playerPos - Sprite.x (Enemy.sprite (base b)) in
  let dy := Vector2.y playerPos - Sprite.y (Enemy.sprite (base b)) in
  let distance := Math_sqrt (dx * dx + dy * dy) in
  let perpX := - dy / distance in
  let perpY := dx / distance in
  let zigzag := Math_sin time * 30 in
  moveBy ((dx / distance + perpX * zigzag) * speed * deltaTime / 1000)
         ((dy / distance + perpY * zigzag) * speed * deltaTime / 1000) b.

(** [updateBossMovement(deltaTime, playerPos)]; the cases are the values
    of the enum [MovementPattern]. *)
Definition updateBossMovement (deltaTime : Q) (playerPos : Vector2.t)
    (tick : Tick) (b : t) : M t :=
  if Enemy.isDying (base b) || isCharging b then ret b
  else
    match nth_error (phases (bossConfig b)) (currentPhase b) with
    | None => throw
    | Some currentPhase =>
        let pattern := movementPattern currentPhase in
        if (pattern =? "stationary")%string then ret b
        else if (pattern =? "circle")%string then
          ret (updateCircleMovement deltaTime b)
        else if ((pattern =? "chase") || (pattern =? "aggressive"))%string then
          ret (updateChaseMovement deltaTime playerPos
                 (pattern =? "aggressive")%string b)
        else if (pattern =? "berserker")%string then
          ret (updateBerserkerMovement deltaTime playerPos tick b)
        else if ((pattern =? "swimming") || (pattern =? "aggressive_swim"))%string then
          ret (updateSwimmingMovement deltaTime playerPos
                 (pattern =? "aggressive_swim")%string tick b)
        else if (pattern =? "frenzy")%string then
          ret (updateFrenzyMovement deltaTime playerPos tick b)
        else ret b
    end.

(** [update(deltaTime, playerPos)] *)
Definition update (deltaTime : Q) (playerPos : Vector2.t) (tick : Tick) (b : t) : M t :=
  b <- checkPhaseTransition tick b ;;
  b <- updateBossMovement deltaTime playerPos tick b ;;
  b <- updateBossAttacks deltaTime playerPos tick b ;;
  ret (set_base (Enemy_update deltaTime playerPos (base b)) b).

(** [onBossDefeated()] of the boss *)
Definition onBossDefeated (b : t) : M t :=
  emit (Log ("Boss " ++ boss_name (bossConfig b)
             ++ " defeated! Unlocking character: "
             ++ unlockCharacter (bossConfig b))%string) ;;;
  ret b.

(** [takeDamage(amount)] *)
Definition takeDamage (amount : Q) (b : t) : M (t * bool) :=
  let '(e, wasDead) := Enemy_takeDamage amount (base b) in
  let b := set_base e b in
  b <- (if wasDead then onBossDefeated b else ret b) ;;
  ret (b, wasDead).

(** [reset()] *)
Definition reset (b : t) : t :=
  let b := set_base (Enemy_reset (base b)) b in
  let b := set_currentPhase 0 b in
  let b := set_lastAttackTime 0 b in
  let b := set_circleAngle 0 b in
  let b := set_chargeTarget None b in
  let b := set_isCharging false b in
  let b := set_swimDirection (Vector2.set 1 0 (swimDirection b)) b in
  let b := set_swimTimer 0 b in
  set_attackCooldown 2000 b.

(** What a delayed call does when it fires. *)
Definition runCallback (cb : Callback) (b : t) : M t :=
  match cb with
  | ChargeLaunch =>
      match chargeTarget b with
      | Some target =>
          let chargeSpeed := Enemy.speed (base b) * 3 in
          let dx := Vector2.x target - Sprite.x (Enemy.sprite (base b)) in
          let dy := Vector2.y target - Sprite.y (Enemy.sprite (base b)) in
          let distance := Math_sqrt (dx * dx + dy * dy) in
          let kv :=
            Vector2.set ((dx / distance) * chargeSpeed) ((dy / distance) * chargeSpeed)
                        (Enemy.knockbackVelocity (base b)) in
          emit (DelayedCall 500 ChargeEnd) ;;;
          ret (set_base (Enemy.set_knockbackVelocity kv (base b)) b)
      | None => ret b
      end
  | ChargeEnd => ret (set_chargeTarget None (set_isCharging false b))
  | BombWarning i playerPos =>
      let angle := (Math_PI * 2 / 5) * inject_Z (Z.of_nat i) in
      let radius := 80 in
      let bombX := Vector2.x playerPos + Math_cos angle * radius in
      let bombY := Vector2.y playerPos + Math_sin angle * radius in
      emit (DelayedCall 800 (BombExplode bombX bombY)) ;;; ret b
  | BombExplode bombX bombY =>
      emit (Log ("Bomb explodes at " ++ Number_toString bombX ++ ", "
                 ++ Number_toString bombY)%string) ;;; ret b
  | SlamShockwave => emit (Log "Boss slam creates shockwave!") ;;; ret b
  | MegaBombExplode => emit (Log "MEGA BOMB EXPLOSION!") ;;; ret b
  | MegaFreezeExplode => emit (Log "MEGA FREEZE!") ;;; ret b
  | DashAgain playerPos => executeChargeAttack playerPos b
  end.

(** The calls that reach a boss during a fight. *)
Inductive Step : Type :=
| StepUpdate (deltaTime : Q) (playerPos : Vector2.t) (tick : Tick)
| StepTakeDamage (amount : Q)
| StepCheckPhase (tick : Tick)
| StepCallback (cb : Callback).

Definition step (s : Step) (b : t) : M t :=
  match s with
  | StepUpdate dt playerPos tick => update dt playerPos tick b
  | StepTakeDamage amount => r <- takeDamage amount b ;; ret (fst r)
  | StepCheckPhase tick => checkPhaseTransition tick b
  | StepCallback cb => runCallback cb b
  end.

(** The boss after a sequence of calls. *)
Definition run (steps : list Step) (b : t) : M t := forEach step steps b.

End WithRuntime.

End Boss.

(** ** Character.ts: the unlock registry of [CharacterManager] *)

Module CharacterManager.

(** The state of the singleton: the set [unlockedCharacters], in the
    order of insertion.  Its console lines are not kept. *)
Record t : Type := mk { unlockedCharacters : list string }.

(** The ids of [ITALIAN_BRAINROT_CHARACTERS]. *)
Definition characterIds : list string :=
  ["br-br-patapim"; "chimpanzini-bananini"; "bombardiro-crocodilo";
   "tralalero-tralala"; "cappuccino-assassino"; "lirili-larila"]%string.

Definition initial : t := mk ["br-br-patapim"%string].

Definition has (characterId : string) (l : list string) : bool :=
  existsb (String.eqb characterId) l.

(** [unlockCharacter(characterId)] *)
Definition unlockCharacter (characterId : string) (cm : t) : t * bool :=
  if negb (has characterId characterIds) then (cm, false)
  else if has characterId (unlockedCharacters cm) then (cm, false)
  else (mk (unlockedCharacters cm ++ [characterId]), true).

(** [unlockCharacterByBoss(bossType)] *)
Definition unlockCharacterByBoss (bossType : string) (cm : t) : t * bool :=
  if (bossType =? "swarm-king")%string then unlockCharacter "chimpanzini-bananini" cm
  else if (bossType =? "desert-bomber")%string then unlockCharacter "bombardiro-crocodilo" cm
  else if (bossType =? "ice-shark")%string then unlockCharacter "tralalero-tralala" cm
  else (cm, false).

(** [isCharacterUnlocked(characterId)] *)
Definition isCharacterUnlocked (characterId : string) (cm : t) : bool :=
  has characterId (unlockedCharacters cm).

(** [getCharacterProgress()]: the size of the set of unlocked characters
    and the length of the catalog. *)
Definition getCharacterProgress (cm : t) : nat * nat :=
  (List.length (unlockedCharacters cm), List.length characterIds).

End CharacterManager.

(** ** PoolManager.ts (not among the sources) *)

Module PoolManager.

(** Modelled from the spec: the pool is a generic acquire and release
    protocol for reusable enemy instances, made from a factory and a
    reset function.  [store] holds every instance the factory has made;
    an enemy is referred to by its index in [store], so that the manager's
    map and a zone's placements can name the same enemy.  [free] are the
    instances released and not acquired again. *)
Record t : Type := mk { store : list Enemy.t; free : list nat }.

Definition empty : t := mk [] [].

Section WithEnemy.
Context {EC : EnemyClass}.

(** Modelled from the spec: [pool.acquire()] gives a released instance if
    there is one, else a new one from the factory [() => new Enemy(scene)]. *)
Definition acquire (p : t) : nat * t :=
  match free p with
  | r :: rest => (r, mk (store p) rest)
  | [] => (List.length (store p), mk (store p ++ [Enemy_new]) [])
  end.

(** Modelled from the spec: [pool.release(enemy)] resets the instance, with
    [enemy => enemy.reset()], and keeps it for reuse. *)
Definition release (r : nat) (p : t) : t :=
  mk (modify r Enemy_reset (store p)) (r :: free p).

End WithEnemy.

(** [enemy.f = v] on the instance [r]. *)
Definition write (r : nat) (f : Enemy.t -> Enemy.t) (p : t) : t :=
  mk (modify r f (store p)) (free p).

(** The instance [r] refers to. *)
Definition read (r : nat) (p : t) : option Enemy.t := nth_error (store p) r.

End PoolManager.

(** ** EncounterSystem.ts *)

Module EncounterSystem.

Record Bounds : Type := mkBounds { bx : Q; by_ : Q; width : Q; height : Q }.

Record ZoneTheme : Type := mkTheme {
  backgroundColor : Z;
  groundTexture : string;
  ambientColor : Z;
  musicTrack : string
}.

(** An enemy placement; [enemy] refers to the runtime instance in the pool. *)
Record StationaryEnemy : Type := mkStationary {
  position : Vector2.t;
  enemyType : EnemyTypeId;
  aggroRadius : Q;
  patrolPath : option (list Vector2.t);
  state : EnemyState;
  enemy : option nat
}.

Definition set_state (v : EnemyState) (c : StationaryEnemy) : StationaryEnemy :=
  mkStationary (position c) (enemyType c) (aggroRadius c) (patrolPath c) v (enemy c).

Definition set_enemy (v : option nat) (c : StationaryEnemy) : StationaryEnemy :=
  mkStationary (position c) (enemyType c) (aggroRadius c) (patrolPath c) (state c) v.

(** A prop placement; [object] names the runtime prop by its key in the
    manager's map. *)
Record KickableObjectConfig : Type := mkObjectConfig {
  obj_position : Vector2.t;
  obj_type : KickableObject.ObjectType;
  object : option string
}.

Record GameZone : Type := mkZone {
  id : string;
  name : string;
  bounds : Bounds;
  enemies : list StationaryEnemy;
  kickableObjects : list KickableObjectConfig;
  boss : option BossConfig;
  theme : ZoneTheme;
  requiredCharacters : list string;
  isUnlocked : bool
}.

Definition set_enemies (v : list StationaryEnemy) (z : GameZone) : GameZone :=
  mkZone (id z) (name z) (bounds z) v (kickableObjects z) (boss z) (theme z)
         (requiredCharacters z) (isUnlocked z).

Definition set_kickableObjects (v : list KickableObjectConfig) (z : GameZone) : GameZone :=
  mkZone (id z) (name z) (bounds z) (enemies z) v (boss z) (theme z)
         (requiredCharacters z) (isUnlocked z).

Definition set_isUnlocked (v : bool) (z : GameZone) : GameZone :=
  mkZone (id z) (name z) (bounds z) (enemies z) (kickableObjects z) (boss z)
         (theme z) (requiredCharacters z) v.

(** The manager.  [currentZone] refers to a zone of [zones] by its index;
    [activeEnemies] maps a key to an enemy of the pool, [activeObjects] a
    key to a prop, both in the order of insertion.  [characterManager] is
    the state of the singleton that [CharacterManager.getInstance()] gives. *)
Record t : Type := mk {
  enemyPool : PoolManager.t;
  zones : list GameZone;
  currentZone : option nat;
  activeEnemies : list (string * nat);
  activeObjects : list (string * KickableObject.t);
  currentBoss : option Boss.t;
  isBossFight : bool;
  defaultAggroRadius : Q;
  characterManager : CharacterManager.t
}.

Definition set_enemyPool (v : PoolManager.t) (s : t) : t :=
  mk v (zones s) (currentZone s) (activeEnemies s) (activeObjects s)
     (currentBoss s) (isBossFight s) (defaultAggroRadius s) (characterManager s).

Definition set_zones (v : list GameZone) (s : t) : t :=
  mk (enemyPool s) v (currentZone s) (activeEnemies s) (activeObjects s)
     (currentBoss s) (isBossFight s) (defaultAggroRadius s) (characterManager s).

Definition set_currentZone (v : option nat) (s : t) : t :=
  mk (enemyPool s) (zones s) v (activeEnemies s) (activeObjects s)
     (currentBoss s) (isBossFight s) (defaultAggroRadius s) (characterManager s).

Definition set_activeEnemies (v : list (string * nat)) (s : t) : t :=
  mk (enemyPool s) (zones s) (currentZone s) v (activeObjects s)
     (currentBoss s) (isBossFight s) (defaultAggroRadius s) (characterManager s).

Definition set_activeObjects (v : list (string * KickableObject.t)) (s : t) : t :=
  mk (enemyPool s) (zones s) (currentZone s) (activeEnemies s) v
     (currentBoss s) (isBossFight s) (defaultAggroRadius s) (characterManager s).

Definition set_currentBoss (v : option Boss.t) (s : t) : t :=
  mk (enemyPool s) (zones s) (currentZone s) (activeEnemies s) (activeObjects s)
     v (isBossFight s) (defaultAggroRadius s) (characterManager s).

Definition set_isBossFight (v : bool) (s : t) : t :=
  mk (enemyPool s) (zones s) (currentZone s) (activeEnemies s) (activeObjects s)
     (currentBoss s) v (defaultAggroRadius s) (characterManager s).

Definition set_characterManager (v : CharacterManager.t) (s : t) : t :=
  mk (enemyPool s) (zones s) (currentZone s) (activeEnemies s) (activeObjects s)
     (currentBoss s) (isBossFight s) (defaultAggroRadius s) v.

(** [createGameZones()] *)
Definition createGameZones : list GameZone :=
  let V := Vector2.mk in
  let placed x y ty r := mkStationary (V x y) ty r None STATIONARY None in
  let patrol x y ty r path := mkStationary (V x y) ty r (Some path) PATROLLING None in
  let prop x y ty := mkObjectConfig (V x y) ty None in
  [ mkZone "tutorial-grove" "Tutorial Grove" (mkBounds 0 0 1200 800)
      [ placed 300 200 BASIC 100; placed 500 300 BASIC 120;
        placed 700 150 FAST 140; placed 400 500 BASIC 110;
        placed 800 400 FAST 130 ]
      [ prop 350 250 KickableObject.BARREL; prop 600 200 KickableObject.BOX;
        prop 450 400 KickableObject.STONE ]
      (Some (mkBossConfig "swarm-king" "Swarm King Chimpanzini" (V 900 600) 300
               [ mkPhase 1.0 ["summon-swarm"%string] "circle";
                 mkPhase 0.5 ["summon-swarm"; "charge-attack"]%string "aggressive" ]
               200 "chimpanzini-bananini"))
      (mkTheme 0x2d5a27 "grass" 0x90ff90 "forest-theme")
      []
      true;
    mkZone "desert-outpost" "Desert Outpost" (mkBounds 1500 0 1400 900)
      [ patrol 1700 200 TANK 120 [V 1700 200; V 1900 200; V 1900 400; V 1700 400];
        placed 2000 300 FAST 160; placed 2200 150 FAST 140;
        placed 1800 500 BASIC 100; placed 2100 600 TANK 130;
        placed 2300 450 SWARM 180 ]
      [ prop 1750 300 KickableObject.BARREL; prop 2050 250 KickableObject.STONE;
        prop 2150 500 KickableObject.LOG ]
      (Some (mkBossConfig "desert-bomber" "Bombardiro Crocodilo" (V 2500 700) 500
               [ mkPhase 1.0 ["bomb-barrage"%string] "stationary";
                 mkPhase 0.7 ["bomb-barrage"; "charge-slam"]%string "chase";
                 mkPhase 0.3 ["mega-bomb"; "charge-slam"]%string "berserker" ]
               250 "bombardiro-crocodilo"))
      (mkTheme 0x8b7355 "sand" 0xffdd88 "desert-theme")
      ["chimpanzini-bananini"%string]
      false;
    mkZone "arctic-lab" "Arctic Laboratory" (mkBounds 0 1200 1600 1000)
      [ patrol 200 1400 ELITE 200 [V 200 1400; V 400 1400; V 400 1600; V 200 1600];
        placed 600 1300 TANK 140; placed 800 1500 TANK 130;
        placed 1000 1350 SWARM 160; placed 1200 1450 ELITE 180;
        placed 900 1700 FAST 170; placed 1100 1650 FAST 160 ]
      [ prop 300 1500 KickableObject.BARREL; prop 700 1400 KickableObject.BOX;
        prop 950 1600 KickableObject.STONE; prop 1300 1500 KickableObject.BARREL ]
      (Some (mkBossConfig "ice-shark" "Tralalero Tralala" (V 1400 1800) 700
               [ mkPhase 1.0 ["ice-dash"%string] "swimming";
                 mkPhase 0.6 ["ice-dash"; "freeze-wave"]%string "aggressive-swim";
                 mkPhase 0.2 ["mega-freeze"; "triple-dash"]%string "frenzy" ]
               300 "tralalero-tralala"))
      (mkTheme 0x4a7c7e "ice" 0xaaffff "arctic-theme")
      ["bombardiro-crocodilo"%string]
      false ].

(** [new EncounterSystem(scene)] *)
Definition new : t :=
  mk PoolManager.empty createGameZones None [] [] None false 150
     CharacterManager.initial.

(** [zones.findIndex(z => z.id === zoneId)], [None] for [-1]. *)
Fixpoint findIndex (zoneId : string) (zs : list GameZone) : option nat :=
  match zs with
  | [] => None
  | z :: rest =>
      if (id z =? zoneId)%string then Some O
      else option_map S (findIndex zoneId rest)
  end.

(** [zones.find(z => z.id === zoneId)]: the zone found, with its index,
    which stands for the reference to it. *)
Definition find (zoneId : string) (s : t) : option (nat * GameZone) :=
  match findIndex zoneId (zones s) with
  | Some i => option_map (pair i) (nth_error (zones s) i)
  | None => None
  end.

(** [map.set(key, value)] *)
Fixpoint Map_set {V : Type} (key : string) (value : V) (m : list (string * V))
    : list (string * V) :=
  match m with
  | [] => [(key, value)]
  | (k, v) :: rest =>
      if (k =? key)%string then (k, value) :: rest
      else (k, v) :: Map_set key value rest
  end.

(** [map.delete(key)] *)
Definition Map_delete {V : Type} (key : string) (m : list (string * V))
    : list (string * V) :=
  filter (fun kv => negb (fst kv =? key)%string) m.

(** An array index inside a template string. *)
Definition index_toString (n : nat) : string := NilEmpty.string_of_uint (Nat.to_uint n).

(** [getCurrentZone()] *)
Definition getCurrentZone (s : t) : option GameZone :=
  match currentZone s with
  | Some i => nth_error (zones s) i
  | None => None
  end.

(** [getAvailableZones()] *)
Definition getAvailableZones (s : t) : list GameZone := filter isUnlocked (zones s).

(** [getBoss()] *)
Definition getBoss (s : t) : option Boss.t := currentBoss s.

(** [isBossActive()] *)
Definition isBossActive (s : t) : bool :=
  isBossFight s && match currentBoss s with Some _ => true | None => false end.

(** [getActiveEnemies()], the later of the two definitions of that name
    in the class: the live regular enemies, then the boss if it is live. *)
Definition getActiveEnemies (s : t) : list Enemy.t :=
  let regularEnemies :=
    filter (fun e => Sprite.active (Enemy.sprite e))
      (flat_map (fun kr => match PoolManager.read (snd kr) (enemyPool s) with
                           | Some e => [e]
                           | None => []
                           end) (activeEnemies s)) in
  match currentBoss s with
  | Some b =>
      if Sprite.active (Enemy.sprite (Boss.base b))
      then regularEnemies ++ [Boss.base b]
      else regularEnemies
  | None => regularEnemies
  end.

(** [getActiveObjects()] *)
Definition getActiveObjects (s : t) : list KickableObject.t :=
  filter (fun o => negb (KickableObject.isBroken o)) (map snd (activeObjects s)).

(** [getFlyingObjects()] *)
Definition getFlyingObjects (s : t) : list KickableObject.t :=
  filter (fun o => KickableObject.isFlying o && negb (KickableObject.isBroken o))
         (map snd (activeObjects s)).

(** [unlockZone(zoneId)] *)
Definition unlockZone (zoneId : string) (s : t) : M t :=
  match find zoneId s with
  | Some (i, zone) =>
      let s := set_zones (modify i (set_isUnlocked true) (zones s)) s in
      emit (Log ("Zone " ++ name zone ++ " unlocked!")%string) ;;; ret s
  | None => ret s
  end.

Section WithRuntime.
Context {J : JsRuntime} {EC : EnemyClass}.

(** [activeEnemies.forEach(enemy => enemyPool.release(enemy))] *)
Definition releaseAll (active : list (string * nat)) (pool : PoolManager.t)
    : PoolManager.t :=
  fold_left (fun p kr => PoolManager.release (snd kr) p) active pool.

(** [clearCurrentZone()] *)
Definition clearCurrentZone (s : t) : t :=
  let s := set_enemyPool (releaseAll (activeEnemies s) (enemyPool s)) s in
  let s := set_activeEnemies [] s in
  let s := set_activeObjects [] s in
  set_currentZone None s.

(** The body of [zone.enemies.forEach((enemyConfig, index) => ...)] in
    [loadZone]. *)
Definition spawnEnemy (zoneId : string) (index : nat) (enemyConfig : StationaryEnemy)
    (s : t) : StationaryEnemy * t :=
  let '(r, pool) := PoolManager.acquire (enemyPool s) in
  let setup (e : Enemy.t) : Enemy.t :=
    let e := Enemy.set_aggroRadius (Some (aggroRadius enemyConfig)) e in
    let e := Enemy.set_currentState (Some (state enemyConfig)) e in
    let e := Enemy.set_originalPosition (Some (Vector2.clone (position enemyConfig))) e in
    let e := Enemy.set_patrolPath (patrolPath enemyConfig) e in
    let e := Enemy.set_patrolIndex (Some O) e in
    let e := Enemy.set_hasAggro (Some false) e in
    let e := Enemy_spawn (Vector2.x (position enemyConfig))
                         (Vector2.y (position enemyConfig))
                         (enemyType enemyConfig) e in
    match state enemyConfig with
    | STATIONARY => Enemy.set_movementType (Some "stationary"%string) e
    | PATROLLING => Enemy.set_movementType (Some "patrol"%string) e
    | _ => e
    end in
  let pool := PoolManager.write r setup pool in
  let key := (zoneId ++ "-enemy-" ++ index_toString index)%string in
  (set_enemy (Some r) enemyConfig,
   set_activeEnemies (Map_set key r (activeEnemies s)) (set_enemyPool pool s)).

Fixpoint spawnEnemies (zoneId : string) (index : nat) (configs : list StationaryEnemy)
    (s : t) : list StationaryEnemy * t :=
  match configs with
  | [] => ([], s)
  | enemyConfig :: rest =>
      let '(c, s) := spawnEnemy zoneId index enemyConfig s in
      let '(cs, s) := spawnEnemies zoneId (S index) rest s in
      (c :: cs, s)
  end.

(** The body of [zone.kickableObjects.forEach((objectConfig, index) => ...)]. *)
Definition spawnObject (zoneId : string) (index : nat)
    (objectConfig : KickableObjectConfig) (s : t) : KickableObjectConfig * t :=
  let kickableObject :=
    KickableObject.new (Vector2.x (obj_position objectConfig))
                       (Vector2.y (obj_position objectConfig))
                       (obj_type objectConfig) in
  let key := (zoneId ++ "-object-" ++ index_toString index)%string in
  (mkObjectConfig (obj_position objectConfig) (obj_type objectConfig) (Some key),
   set_activeObjects (Map_set key kickableObject (activeObjects s)) s).

Fixpoint spawnObjects (zoneId : string) (index : nat)
    (configs : list KickableObjectConfig) (s : t) : list KickableObjectConfig * t :=
  match configs with
  | [] => ([], s)
  | objectConfig :: rest =>
      let '(c, s) := spawnObject zoneId index objectConfig s in
      let '(cs, s) := spawnObjects zoneId (S index) rest s in
      (c :: cs, s)
  end.

(** [loadZone(zoneId)] *)
Definition loadZone (zoneId : string) (s : t) : M t :=
  match find zoneId s with
  | Some (i, zone) =>
      if isUnlocked zone then
        let s := clearCurrentZone s in
        let s := set_currentZone (Some i) s in
        let '(placed, s) := spawnEnemies zoneId 0 (enemies zone) s in
        let s := set_zones (modify i (set_enemies placed) (zones s)) s in
        let '(props, s) := spawnObjects zoneId 0 (kickableObjects zone) s in
        let s := set_zones (modify i (set_kickableObjects props) (zones s)) s in
        ret s
      else
        emit (Warn ("Zone " ++ zoneId ++ " not found or not unlocked")%string) ;;;
        ret s
  | None =>
      emit (Warn ("Zone " ++ zoneId ++ " not found or not unlocked")%string) ;;;
      ret s
  end.

(** The value of the enum [EnemyState], as a template string prints it. *)
Definition EnemyState_toString (st : EnemyState) : string :=
  match st with
  | STATIONARY => "stationary"
  | PATROLLING => "patrolling"
  | AGGROED => "aggroed"
  | COMBAT => "combat"
  | FLEEING => "fleeing"
  end.

(** [!!(enemy as any).hasAggro] *)
Definition truthy (b : option bool) : bool :=
  match b with Some true => true | _ => false end.

(** [triggerAggro(enemy, config)] *)
Definition triggerAggro (e : Enemy.t) (config : StationaryEnemy)
    : M (StationaryEnemy * Enemy.t) :=
  let e := Enemy.set_hasAggro (Some true) e in
  let config := set_state AGGROED config in
  let e := Enemy.set_movementType (Some "homing"%string) e in
  let e := Enemy.set_sprite (Sprite.setTint 0xff9999 (Enemy.sprite e)) e in
  emit (Log ("Enemy aggroed at position "
             ++ Number_toString (Sprite.x (Enemy.sprite e)) ++ ", "
             ++ Number_toString (Sprite.y (Enemy.sprite e)))%string) ;;;
  ret (config, e).

(** [loseAggro(enemy, config)] *)
Definition loseAggro (e : Enemy.t) (config : StationaryEnemy)
    : M (StationaryEnemy * Enemy.t) :=
  let e := Enemy.set_hasAggro (Some false) e in
  let '(config, e) :=
    match patrolPath config with
    | Some _ =>
        (set_state PATROLLING config, Enemy.set_movementType (Some "patrol"%string) e)
    | None =>
        (set_state STATIONARY config, Enemy.set_movementType (Some "stationary"%string) e)
    end in
  let e := Enemy.set_sprite (Sprite.clearTint (Enemy.sprite e)) e in
  emit (Log ("Enemy lost aggro, returning to "
             ++ EnemyState_toString (state config))%string) ;;;
  ret (config, e).

(** [updatePatrol(enemy, config)]; reading a waypoint that is not there
    throws. *)
Definition updatePatrol (e : Enemy.t) (config : StationaryEnemy) : M Enemy.t :=
  match patrolPath config with
  | None => ret e
  | Some [] => ret e
  | Some path =>
      let patrolIndex := match Enemy.patrolIndex e with Some n => n | None => O end in
      match nth_error path patrolIndex with
      | None => throw
      | Some targetPos =>
          let enemyPos := Vector2.mk (Sprite.x (Enemy.sprite e)) (Sprite.y (Enemy.sprite e)) in
          let distanceToTarget := Vector2.distance enemyPos targetPos in
          let e :=
            if distanceToTarget <? 20
            then Enemy.set_patrolIndex (Some ((patrolIndex + 1) mod List.length path)%nat) e
            else e in
          let dx := Vector2.x targetPos - Sprite.x (Enemy.sprite e) in
          let dy := Vector2.y targetPos - Sprite.y (Enemy.sprite e) in
          let distance := Math_sqrt (dx * dx + dy * dy) in
          if 5 <? distance then
            let moveSpeed := Enemy.speed e * 0.5 in
            let moveX := (dx / distance) * moveSpeed * (1 / 60) in
            let moveY := (dy / distance) * moveSpeed * (1 / 60) in
            let sp := Enemy.sprite e in
            let sp := Sprite.set_x (Sprite.x sp + moveX) sp in
            let sp := Sprite.set_y (Sprite.y sp + moveY) sp in
            ret (Enemy.set_sprite sp e)
          else ret e
      end
  end.

(** [updateEnemyAggro(enemyConfig, playerPos)], on the enemy [e] that
    [enemyConfig.enemy] refers to. *)
Definition updateEnemyAggro (enemyConfig : StationaryEnemy) (playerPos : Vector2.t)
    (e : Enemy.t) : M (StationaryEnemy * Enemy.t) :=
  let enemyPos := Vector2.mk (Sprite.x (Enemy.sprite e)) (Sprite.y (Enemy.sprite e)) in
  let distanceToPlayer := Vector2.distance enemyPos playerPos in
  let aggroRange := aggroRadius enemyConfig in
  let hasAggro := truthy (Enemy.hasAggro e) in
  match state enemyConfig with
  | STATIONARY =>
      if (distanceToPlayer <=? aggroRange) && negb hasAggro
      then triggerAggro e enemyConfig
      else ret (enemyConfig, e)
  | PATROLLING =>
      if (distanceToPlayer <=? aggroRange) && negb hasAggro
      then triggerAggro e enemyConfig
      else if negb hasAggro then
        e <- updatePatrol e enemyConfig ;; ret (enemyConfig, e)
      else ret (enemyConfig, e)
  | AGGROED =>
      if aggroRange * 1.5 <? distanceToPlayer
      then loseAggro e enemyConfig
      else ret (enemyConfig, Enemy.set_movementType (Some "homing"%string) e)
  | _ => ret (enemyConfig, e)
  end.

(** The body of [currentZone.enemies.forEach(enemyConfig => ...)] in
    [update]: nothing for a placement without a live runtime enemy. *)
Definition updatePlacement (playerPos : Vector2.t) (enemyConfig : StationaryEnemy)
    (pool : PoolManager.t) : M (StationaryEnemy * PoolManager.t) :=
  match enemy enemyConfig with
  | None => ret (enemyConfig, pool)
  | Some r =>
      match PoolManager.read r pool with
      | None => ret (enemyConfig, pool)
      | Some e =>
          if negb (Sprite.active (Enemy.sprite e)) then ret (enemyConfig, pool)
          else
            r' <- updateEnemyAggro enemyConfig playerPos e ;;
            ret (fst r', PoolManager.write r (fun _ => snd r') pool)
      end
  end.

Fixpoint updatePlacements (playerPos : Vector2.t) (configs : list StationaryEnemy)
    (pool : PoolManager.t) : M (list StationaryEnemy * PoolManager.t) :=
  match configs with
  | [] => ret ([], pool)
  | enemyConfig :: rest =>
      r <- updatePlacement playerPos enemyConfig pool ;;
      r' <- updatePlacements playerPos rest (snd r) ;;
      ret (fst r :: fst r', snd r')
  end.

(** [unlockNextZone()] *)
Definition unlockNextZone (s : t) : M t :=
  let currentZoneIndex :=
    match getCurrentZone s with
    | Some zone => findIndex (id zone) (zones s)
    | None => None
    end in
  match currentZoneIndex with
  | Some i =>
      if (i <? List.length (zones s) - 1)%nat then
        let s := set_zones (modify (i + 1) (set_isUnlocked true) (zones s)) s in
        match nth_error (zones s) (i + 1) with
        | Some nextZone =>
            emit (Log ("Zone " ++ name nextZone ++ " unlocked!")%string) ;;; ret s
        | None => ret s
        end
      else ret s
  | None => ret s
  end.

(** The boss configuration of the current zone, [currentZone?.boss]. *)
Definition currentBossConfig (s : t) : option BossConfig :=
  match getCurrentZone s with
  | Some zone => boss zone
  | None => None
  end.

(** [onBossDefeated()] of the manager *)
Definition onBossDefeated (s : t) : M t :=
  match currentBoss s, currentBossConfig s with
  | Some b, Some cfg =>
      emit (Log ("Boss " ++ boss_name cfg ++ " defeated!")%string) ;;;
      let '(cm, unlocked) :=
        CharacterManager.unlockCharacterByBoss (boss_type cfg) (characterManager s) in
      let s := set_characterManager cm s in
      (if unlocked
       then emit (Log ("🎉 New Italian Brainrot character unlocked: "
                       ++ unlockCharacter cfg)%string)
       else ret tt) ;;;
      s <- unlockNextZone s ;;
      let s := set_currentBoss (Some (Boss.reset b)) s in
      let s := set_currentBoss None s in
      ret (set_isBossFight false s)
  | _, _ => ret s
  end.

(** [startBossFight()] *)
Definition startBossFight (s : t) : M t :=
  match currentBossConfig s with
  | None => ret s
  | Some cfg =>
      emit (Log ("Starting boss fight: " ++ boss_name cfg)%string) ;;;
      let s := set_enemyPool (releaseAll (activeEnemies s) (enemyPool s)) s in
      let s := set_activeEnemies [] s in
      let b := Boss.new cfg in
      let bossEnemyType :=
        if (boss_type cfg =? "swarm-king")%string then ELITE
        else if (boss_type cfg =? "desert-bomber")%string then TANK
        else if (boss_type cfg =? "ice-shark")%string then ELITE
        else ELITE in
      let b := Boss.spawn (Vector2.x (boss_position cfg)) (Vector2.y (boss_position cfg))
                          bossEnemyType b in
      let s := set_currentBoss (Some b) s in
      ret (set_isBossFight true s)
  end.

(** The first block of [update]: the boss, stepped with 16 ms. *)
Definition updateBoss (playerPos : Vector2.t) (tick : Tick) (s : t) : M t :=
  match currentBoss s with
  | Some b =>
      if Sprite.active (Enemy.sprite (Boss.base b)) then
        b <- Boss.update 16 playerPos tick b ;;
        let s := set_currentBoss (Some b) s in
        if (Enemy.health (Boss.base b) <=? 0) && Enemy.isDying (Boss.base b)
        then onBossDefeated s
        else ret s
      else ret s
  | None => ret s
  end.

(** The second block: every prop, stepped with 16 ms. *)
Definition updateObjects (tick : Tick) (s : t) : t :=
  set_activeObjects
    (map (fun kv => (fst kv, KickableObject.update 16 (now tick) (snd kv)))
         (activeObjects s)) s.

(** The third block: aggro of the regular enemies and the boss trigger,
    when no boss fight is on. *)
Definition updateEnemies (playerPos : Vector2.t) (s : t) : M t :=
  if negb (isBossFight s) then
    match currentZone s, getCurrentZone s with
    | Some i, Some zone =>
        r <- updatePlacements playerPos (enemies zone) (enemyPool s) ;;
        let s := set_zones (modify i (set_enemies (fst r)) (zones s)) s in
        let s := set_enemyPool (snd r) s in
        match boss zone, currentBoss s with
        | Some cfg, None =>
            let distanceToBoss := Vector2.distance playerPos (boss_position cfg) in
            if distanceToBoss <=? boss_arenaRadius cfg then startBossFight s else ret s
        | _, _ => ret s
        end
    | _, _ => ret s
    end
  else ret s.

(** The sweep of the dead enemies: released, then dropped from the map. *)
Definition sweepEnemies (s : t) : t :=
  let visit (acc : PoolManager.t * list string) (kr : string * nat) :=
    match PoolManager.read (snd kr) (fst acc) with
    | Some e =>
        if Sprite.active (Enemy.sprite e) && (Enemy.health e <=? 0)
           && negb (Enemy.isDying e)
        then (PoolManager.release (snd kr) (fst acc), snd acc ++ [fst kr])
        else acc
    | None => acc
    end in
  let '(pool, deadEnemies) := fold_left visit (activeEnemies s) (enemyPool s, []) in
  let s := set_enemyPool pool s in
  set_activeEnemies (fold_left (fun m key => Map_delete key m) deadEnemies (activeEnemies s)) s.

(** The sweep of the broken props. *)
Definition sweepObjects (s : t) : t :=
  let brokenObjects :=
    map fst (filter (fun kv => KickableObject.isBroken (snd kv)) (activeObjects s)) in
  set_activeObjects
    (fold_left (fun m key => Map_delete key m) brokenObjects (activeObjects s)) s.

(** [update(currentTime, playerPos)] *)
Definition update (currentTime : Q) (playerPos : Vector2.t) (tick : Tick) (s : t) : M t :=
  match currentZone s with
  | None => ret s
  | Some _ =>
      s <- updateBoss playerPos tick s ;;
      let s := updateObjects tick s in
      s <- updateEnemies playerPos s ;;
      let s := sweepEnemies s in
      ret (sweepObjects s)
  end.

(** [reset()] *)
Definition reset (s : t) : t :=
  let s := clearCurrentZone s in
  let s :=
    match currentBoss s with
    | Some b => set_currentBoss None (set_currentBoss (Some (Boss.reset b)) s)
    | None => s
    end in
  let s := set_isBossFight false s in
  set_activeObjects [] s.

End WithRuntime.

End EncounterSystem.

(** ** Character.ts: a character and the cooldowns of its abilities *)

Module Character.

(** [CharacterAbility]; its [manaCost] and [effect] are data that no
    method of [Character] reads, and are left out. *)
Record CharacterAbility : Type := mkAbility {
  ability_id : string;
  ability_name : string;
  ability_description : string;
  cooldown : Q
}.

(** [CharacterConfig], with the fields the methods of [Character] read
    and those that name the character. *)
Record CharacterConfig : Type := mkConfig {
  id : string;
  name : string;
  title : string;
  baseKickForce : Q;
  baseKickSpeed : Q;
  baseKickRange : Q;
  specialAbilities : list CharacterAbility
}.

(** A character: its configuration and the map [lastAbilityUse]. *)
Record t : Type := mk {
  config : CharacterConfig;
  lastAbilityUse : list (string * Q)
}.

(** [new Character(config)] *)
Definition new (config : CharacterConfig) : t := mk config [].

(** [map.get(key)] *)
Fixpoint Map_get {V : Type} (key : string) (m : list (string * V)) : option V :=
  match m with
  | [] => None
  | (k, v) :: rest => if (k =? key)%string then Some v else Map_get key rest
  end.

(** [getAbility(abilityId)] *)
Definition getAbility (abilityId : string) (this : t) : option CharacterAbility :=
  List.find (fun ability => (ability_id ability =? abilityId)%string)
            (specialAbilities (config this)).

(** [canUseAbility(abilityId)]; [time] is the value [Date.now()] returns. *)
Definition canUseAbility (time : Q) (abilityId : string) (this : t) : bool :=
  match getAbility abilityId this with
  | None => false
  | Some ability =>
      let lastUse :=
        match Map_get abilityId (lastAbilityUse this) with
        | Some used => used
        | None => 0
        end in
      let timeSinceLastUse := time - lastUse in
      cooldown ability <=? timeSinceLastUse
  end.

(** [useAbility(abilityId)]: the character and the ability returned,
    [None] for [null]; [time] is what [Date.now()] returns in the call. *)
Definition useAbility (time : Q) (abilityId : string) (this : t)
    : t * option CharacterAbility :=
  if negb (canUseAbility time abilityId this) then (this, None)
  else
    match getAbility abilityId this with
    | None => (this, None)
    | Some ability =>
        (mk (config this)
            (EncounterSystem.Map_set abilityId time (lastAbilityUse this)),
         Some ability)
    end.

(** [getKickForce()] *)
Definition getKickForce (this : t) : Q := baseKickForce (config this).

(** [getKickSpeed()] *)
Definition getKickSpeed (this : t) : Q := baseKickSpeed (config this).

(** [getKickRange()] *)
Definition getKickRange (this : t) : Q := baseKickRange (config this).

End Character.

(* ================================================================== *)
(** * Part II: the properties *)
(* ================================================================== *)

(** ** Numbers *)

Lemma Qltb_lt (x y : Q) : (x <? y) = true <-> x < y.
Proof.
  unfold Qltb. rewrite negb_true_iff. split.
  - intros H. apply Qnot_le_lt. intros L.
    apply Qle_bool_iff in L. congruence.
  - intros H. destruct (Qle_bool y x) eqn:L; [|reflexivity].
    apply Qle_bool_iff in L. lra.
Qed.

Lemma Qltb_ge (x y : Q) : (x <? y) = false <-> y <= x.
Proof.
  unfold Qltb. rewrite negb_false_iff. apply Qle_bool_iff.
Qed.

Lemma Qleb_gt (x y : Q) : (x <=? y) = false <-> y < x.
Proof.
  split.
  - intros H. apply Qnot_le_lt. intros L.
    apply Qle_bool_iff in L. congruence.
  - intros H. destruct (Qle_bool x y) eqn:L; [|reflexivity].
    apply Qle_bool_iff in L. lra.
Qed.

(** *** The computable square root satisfies [SqrtLaws] *)

Section QsqrtFacts.

Variable q : Q.
Hypothesis q_nonneg : 0 <= q.

Let n : Z := Z.sqrt (Qfloor q).

Lemma Qfloor_nonneg : (0 <= Qfloor q)%Z.
Proof.
  change 0%Z with (Qfloor 0). apply Qfloor_resp_le, q_nonneg.
Qed.

Lemma Qsqrt_root_nonneg : 0 <= inject_Z n.
Proof.
  change 0 with (inject_Z 0). rewrite <- Zle_Qle. apply Z.sqrt_nonneg.
Qed.

Lemma Qsqrt_square_below : inject_Z n * inject_Z n <= q.
Proof.
  rewrite <- inject_Z_mult.
  apply Qle_trans with (inject_Z (Qfloor q)); [|apply Qfloor_le].
  rewrite <- Zle_Qle. apply (Z.sqrt_spec (Qfloor q)), Qfloor_nonneg.
Qed.

Lemma Qsqrt_square_above : q < (inject_Z n + 1) * (inject_Z n + 1).
Proof.
  apply Qlt_le_trans with (inject_Z (Qfloor q + 1)); [apply Qlt_floor|].
  change 1 with (inject_Z 1).
  rewrite <- inject_Z_plus, <- inject_Z_mult, <- Zle_Qle.
  pose proof (Z.sqrt_spec (Qfloor q) Qfloor_nonneg) as S. cbv zeta in S.
  fold n in S. lia.
Qed.

Lemma Qsqrt_unfold :
  Qsqrt q == inject_Z n + (q - inject_Z n * inject_Z n) / (2 * inject_Z n + 1).
Proof.
  unfold Qsqrt. fold n.
  rewrite inject_Z_mult, inject_Z_plus, inject_Z_mult. reflexivity.
Qed.

Lemma Qsqrt_lower : inject_Z n <= Qsqrt q.
Proof.
  rewrite Qsqrt_unfold.
  pose proof Qsqrt_root_nonneg. pose proof Qsqrt_square_below.
  assert (0 <= (q - inject_Z n * inject_Z n) / (2 * inject_Z n + 1)).
  { apply Qle_shift_div_l; lra. }
  lra.
Qed.

Lemma Qsqrt_upper : Qsqrt q < inject_Z n + 1.
Proof.
  rewrite Qsqrt_unfold.
  pose proof Qsqrt_root_nonneg. pose proof Qsqrt_square_above.
  assert ((q - inject_Z n * inject_Z n) / (2 * inject_Z n + 1) < 1).
  { apply Qlt_shift_div_r; lra. }
  lra.
Qed.

End QsqrtFacts.

Lemma Qsqrt_increasing (a b : Q) : 0 <= a -> a < b -> Qsqrt a < Qsqrt b.
Proof.
  intros Ha Hab.
  assert (Hb : 0 <= b) by lra.
  assert (Hn : (Z.sqrt (Qfloor a) <= Z.sqrt (Qfloor b))%Z).
  { apply Z.sqrt_le_mono, Qfloor_resp_le. lra. }
  apply Zle_lt_or_eq in Hn. destruct Hn as [Hlt | Heq].
  - apply Qlt_le_trans with (inject_Z (Z.sqrt (Qfloor a)) + 1).
    + apply Qsqrt_upper, Ha.
    + apply Qle_trans with (inject_Z (Z.sqrt (Qfloor b))).
      * change 1 with (inject_Z 1).
        rewrite <- inject_Z_plus, <- Zle_Qle. lia.
      * apply Qsqrt_lower, Hb.
  - rewrite (Qsqrt_unfold a), (Qsqrt_unfold b), Heq.
    pose proof (Qsqrt_root_nonneg b) as Hr.
    set (r := inject_Z (Z.sqrt (Qfloor b))) in *.
    assert (0 < ((b - r * r) - (a - r * r)) / (2 * r + 1)).
    { apply Qlt_shift_div_l; lra. }
    assert (E : ((b - r * r) - (a - r * r)) / (2 * r + 1)
                == (b - r * r) / (2 * r + 1) - (a - r * r) / (2 * r + 1)).
    { field. lra. }
    lra.
Qed.

#[local] Instance ComputeRuntime_laws : SqrtLaws ComputeRuntime.
Proof.
  split.
  - reflexivity.
  - exact Qsqrt_increasing.
Qed.
(** ** Kickable props *)

Module KickableObjectFacts.
Import KickableObject.

(** Splits on every test in the goal. *)
Ltac split_ifs :=
  repeat match goal with
         | |- context [if ?b then _ else _] => destruct b
         end.

(** [q] has the constants and the break flags of [p]. *)
Definition same_core (p q : t) : Prop :=
  config q = config p
  /\ isBroken q = isBroken p
  /\ breakEffectPlayed q = breakEffectPlayed p.

Lemma same_core_refl (p : t) : same_core p p.
Proof. repeat split. Qed.

Lemma same_core_trans (p q r : t) : same_core p q -> same_core q r -> same_core p r.
Proof.
  intros (A & B & C) (A' & B' & C'). repeat split; congruence.
Qed.

Section WithRuntime.
Context {J : JsRuntime}.

(** *** What the operations leave alone *)

Lemma applyKick_core (fx fy kf rnd : Q) (p : t) :
  same_core p (applyKick fx fy kf rnd p).
Proof.
  unfold applyKick. destruct (isBroken p); repeat split.
Qed.

Lemma updateTrail_core (p : t) : same_core p (updateTrail p).
Proof.
  unfold updateTrail. split_ifs; repeat split.
Qed.

Lemma update_core (dt now : Q) (p : t) : same_core p (update dt now p).
Proof.
  unfold update. destruct (isBroken p); [apply same_core_refl|].
  eapply same_core_trans; [|apply updateTrail_core].
  destruct (isFlying p); [|apply same_core_refl].
  cbv zeta. split_ifs; repeat split.
Qed.

Lemma breakObject_config (p : t) : config (breakObject p) = config p.
Proof. unfold breakObject. split_ifs; reflexivity. Qed.

Lemma takeDamage_config (amount : Q) (p : t) :
  config (takeDamage amount p) = config p.
Proof.
  unfold takeDamage. destruct (isBroken p); [reflexivity|].
  cbv zeta. split_ifs; [rewrite breakObject_config|]; reflexivity.
Qed.

Lemma hitEnemy_config {E : Type} (k : option (Q -> Q -> E -> E)) (e : E) (p : t) :
  config (fst (fst (hitEnemy k e p))) = config p.
Proof.
  unfold hitEnemy. destruct (isBroken p || negb (isFlying p)); [reflexivity|].
  cbv zeta. destruct (speed (takeDamage 5 p) <? 50);
    exact (takeDamage_config 5 p).
Qed.

Lemma step_config (p : t) (op : Op) : config (step p op) = config p.
Proof.
  destruct op; cbn [step].
  - apply applyKick_core.
  - apply hitEnemy_config.
  - apply takeDamage_config.
  - apply update_core.
  - reflexivity.
Qed.

Lemma run_config (ops : list Op) (p : t) : config (run ops p) = config p.
Proof.
  revert p. induction ops as [|op ops IH]; intros p; [reflexivity|].
  unfold run. cbn [fold_left]. fold (run ops (step p op)).
  rewrite IH. apply step_config.
Qed.

(** *** The break latch follows the broken flag *)

Lemma takeDamage_latch (amount : Q) (p : t) :
  breakEffectPlayed p = isBroken p ->
  breakEffectPlayed (takeDamage amount p) = isBroken (takeDamage amount p).
Proof.
  intros H. unfold takeDamage. destruct (isBroken p) eqn:B; [congruence|].
  cbv zeta.
  assert (K : breakEffectPlayed (set_health (health p - amount) p)
              = isBroken (set_health (health p - amount) p)).
  { change (breakEffectPlayed p = isBroken p). congruence. }
  destruct (_ <=? 0); [|exact K].
  unfold breakObject. split_ifs; [exact K|reflexivity].
Qed.

Lemma hitEnemy_latch {E : Type} (k : option (Q -> Q -> E -> E)) (e : E) (p : t) :
  breakEffectPlayed p = isBroken p ->
  breakEffectPlayed (fst (fst (hitEnemy k e p)))
  = isBroken (fst (fst (hitEnemy k e p))).
Proof.
  intros H. unfold hitEnemy.
  destruct (isBroken p || negb (isFlying p)); [exact H|].
  cbv zeta. destruct (speed (takeDamage 5 p) <? 50);
    exact (takeDamage_latch 5 p H).
Qed.

Lemma step_latch (p : t) (op : Op) :
  breakEffectPlayed p = isBroken p ->
  breakEffectPlayed (step p op) = isBroken (step p op).
Proof.
  intros H. destruct op as [fx fy kf rnd| |amount|dt clock|]; cbn [step].
  - destruct (applyKick_core fx fy kf rnd p) as (_ & B & L). congruence.
  - apply hitEnemy_latch, H.
  - apply takeDamage_latch, H.
  - destruct (update_core dt clock p) as (_ & B & L). congruence.
  - reflexivity.
Qed.

Lemma run_latch (ops : list Op) (p : t) :
  breakEffectPlayed p = isBroken p ->
  breakEffectPlayed (run ops p) = isBroken (run ops p).
Proof.
  revert p. induction ops as [|op ops IH]; intros p H; [exact H|].
  unfold run. cbn [fold_left]. apply IH, step_latch, H.
Qed.

(** *** The value [hitEnemy] returns *)

Lemma hitEnemy_result {E : Type} (k : option (Q -> Q -> E -> E)) (e : E) (p : t) :
  snd (hitEnemy k e p)
  = if isFlying p && negb (isBroken p) then damage (config p) else 0.
Proof.
  unfold hitEnemy.
  destruct (isBroken p), (isFlying p); cbn [orb negb andb]; try reflexivity.
  cbv zeta. destruct (speed (takeDamage 5 p) <? 50);
    exact (f_equal damage (takeDamage_config 5 p)).
Qed.

(** C3.  [hitEnemy] returns the damage constant of the prop's type when
    the prop is flying and not broken at the call, and 0 when it is
    broken or not flying; the value is the same whatever the velocity
    (so whatever the impact speed); and the constant a prop carries is
    the one its type has in [OBJECT_CONFIGS], whatever calls were made
    on the prop since it was built. *)
Theorem hitEnemy_returns_fixed_damage :
  forall (E : Type) (k : option (Q -> Q -> E -> E)) (e : E) (p : t)
         (v : Vector2.t),
    snd (hitEnemy k e p)
    = (if isFlying p && negb (isBroken p) then damage (config p) else 0)
    /\ snd (hitEnemy k e (set_velocity v p)) = snd (hitEnemy k e p)
    /\ (forall (ops : list Op) (x y : Q) (objectType : ObjectType),
           config (run ops (new x y objectType)) = OBJECT_CONFIGS objectType).
Proof.
  intros E k e p v. split; [|split].
  - apply hitEnemy_result.
  - rewrite !hitEnemy_result. reflexivity.
  - intros ops x y objectType. rewrite run_config. reflexivity.
Qed.

(** *** The invariant *)

Lemma applyKick_at_rest (fx fy kf rnd : Q) (p : t) :
  broken_at_rest p -> broken_at_rest (applyKick fx fy kf rnd p).
Proof.
  intros H. destruct (applyKick_core fx fy kf rnd p) as (_ & B & _).
  unfold broken_at_rest. rewrite B. intros Hb.
  unfold applyKick. rewrite Hb. exact (H Hb).
Qed.

Lemma breakObject_at_rest (p : t) :
  broken_at_rest p -> broken_at_rest (breakObject p).
Proof.
  unfold broken_at_rest, breakObject. intros H.
  destruct (isBroken p || breakEffectPlayed p); [exact H|].
  intros _. split; [reflexivity|]. split; exact (Qeq_refl 0).
Qed.

Lemma takeDamage_at_rest (amount : Q) (p : t) :
  broken_at_rest p -> broken_at_rest (takeDamage amount p).
Proof.
  intros H. unfold takeDamage. destruct (isBroken p) eqn:B; [exact H|].
  cbv zeta.
  assert (R : broken_at_rest (set_health (health p - amount) p)).
  { intros Hb. change (isBroken p = true) in Hb. congruence. }
  destruct (_ <=? 0); [apply breakObject_at_rest|]; exact R.
Qed.

Lemma hitEnemy_at_rest {E : Type} (k : option (Q -> Q -> E -> E)) (e : E) (p : t) :
  broken_at_rest p -> broken_at_rest (fst (fst (hitEnemy k e p))).
Proof.
  intros H. unfold hitEnemy.
  destruct (isBroken p || negb (isFlying p)); [exact H|].
  cbv zeta.
  pose proof (takeDamage_at_rest 5 p H) as R.
  set (p1 := takeDamage 5 p) in *.
  destruct (speed p1 <? 50).
  - intros _. split; [reflexivity|]. split; exact (Qeq_refl 0).
  - intros B. change (isBroken p1 = true) in B.
    destruct (R B) as (F & X & Y).
    split; [exact F|].
    change (Vector2.x (velocity p1) * 0.7 == 0 /\ Vector2.y (velocity p1) * 0.7 == 0).
    split; lra.
Qed.

Lemma update_at_rest (dt now : Q) (p : t) :
  broken_at_rest p -> broken_at_rest (update dt now p).
Proof.
  intros H. destruct (update_core dt now p) as (_ & B & _).
  unfold broken_at_rest. rewrite B. intros Hb.
  unfold update. rewrite Hb. exact (H Hb).
Qed.

Lemma reset_at_rest (p : t) : broken_at_rest (reset p).
Proof. intros Hb. change (false = true) in Hb. discriminate Hb. Qed.

(** C7.  A broken prop neither flies nor moves: this holds of a prop as
    built, and [applyKick], [hitEnemy], [takeDamage], [update] and
    [reset] each preserve it. *)
Theorem broken_at_rest_invariant :
  (forall (x y : Q) (objectType : ObjectType),
      broken_at_rest (new x y objectType))
  /\ (forall p : t,
         broken_at_rest p ->
         (forall fx fy kf rnd : Q, broken_at_rest (applyKick fx fy kf rnd p))
         /\ (forall (E : Type) (k : option (Q -> Q -> E -> E)) (e : E),
                broken_at_rest (fst (fst (hitEnemy k e p))))
         /\ (forall amount : Q, broken_at_rest (takeDamage amount p))
         /\ (forall dt now : Q, broken_at_rest (update dt now p))
         /\ broken_at_rest (reset p)).
Proof.
  split.
  - intros x y objectType Hb. change (false = true) in Hb. discriminate Hb.
  - intros p H. split; [|split; [|split; [|split]]].
    + intros. apply applyKick_at_rest, H.
    + intros. apply hitEnemy_at_rest, H.
    + intros. apply takeDamage_at_rest, H.
    + intros. apply update_at_rest, H.
    + apply reset_at_rest.
Qed.

(** *** A lethal impact *)

Lemma takeDamage_lethal (amount : Q) (p : t) :
  isBroken p = false -> breakEffectPlayed p = false -> health p <= amount ->
  isBroken (takeDamage amount p) = true
  /\ isFlying (takeDamage amount p) = false
  /\ velocity (takeDamage amount p) = Vector2.mk 0 0
  /\ config (takeDamage amount p) = config p.
Proof.
  intros B L H. unfold takeDamage. rewrite B. cbv zeta.
  assert (T : (health (set_health (health p - amount) p) <=? 0) = true).
  { apply Qle_bool_iff. change (health p - amount <= 0). lra. }
  rewrite T. unfold breakObject.
  change (isBroken (set_health (health p - amount) p)) with (isBroken p).
  change (breakEffectPlayed (set_health (health p - amount) p))
    with (breakEffectPlayed p).
  rewrite B, L. cbn [orb]. repeat split.
Qed.

(** [hitEnemy] on a prop that is flying and not broken. *)
Lemma hitEnemy_flying {E : Type} (k : option (Q -> Q -> E -> E)) (e : E) (p : t) :
  isFlying p = true -> isBroken p = false ->
  let p1 := takeDamage 5 p in
  let p2 :=
    set_velocity (Vector2.mk (Vector2.x (velocity p1) * 0.7)
                             (Vector2.y (velocity p1) * 0.7)) p1 in
  hitEnemy k e p
  = (if speed p1 <? 50
     then set_velocity (Vector2.set 0 0 (velocity p2)) (set_isFlying false p2)
     else p2,
     match k with
     | Some knock =>
         knock (Vector2.x (velocity p1) * 0.5) (Vector2.y (velocity p1) * 0.5) e
     | None => e
     end,
     damage (config p)).
Proof.
  intros F B p1 p2. unfold hitEnemy. rewrite B, F. cbn [orb negb]. cbv zeta.
  fold p1. fold p2.
  destruct (speed p1 <? 50); rewrite <- (takeDamage_config 5 p); reflexivity.
Qed.

(** What the self-damage of a lethal impact leaves of [hitEnemy]. *)
Lemma hitEnemy_lethal (L : SqrtLaws J) {E : Type} (k : option (Q -> Q -> E -> E))
    (e : E) (p : t) :
  isFlying p = true ->
  isBroken p = false ->
  breakEffectPlayed p = false ->
  health p <= 5 ->
  isBroken (takeDamage 5 p) = true
  /\ velocity (takeDamage 5 p) = Vector2.mk 0 0
  /\ speed (takeDamage 5 p) == 0
  /\ hitEnemy k e p
     = (set_velocity (Vector2.mk 0 0)
          (set_isFlying false
             (set_velocity (Vector2.mk (0 * 0.7) (0 * 0.7)) (takeDamage 5 p))),
        match k with
        | Some knock => knock (0 * 0.5) (0 * 0.5) e
        | None => e
        end,
        damage (config p)).
Proof.
  intros F B Lt H.
  destruct (takeDamage_lethal 5 p B Lt H) as (B1 & F1 & V1 & C1).
  assert (S1 : speed (takeDamage 5 p) == 0).
  { unfold speed. rewrite V1. exact sqrt_zero. }
  split; [exact B1|]. split; [exact V1|]. split; [exact S1|].
  rewrite (hitEnemy_flying k e p F B). cbv zeta.
  assert (T : (speed (takeDamage 5 p) <? 50) = true) by (apply Qltb_lt; lra).
  rewrite T, V1. reflexivity.
Qed.

(** C10.  Take any prop, built and then put through any calls, that is
    flying, not broken and has at most 5 health.  When it hits an enemy,
    the 5 self-damage breaks it first: the velocity is already zero when
    the impact speed is measured (it is 0) and when the knockback is
    given (half of zero on each axis, if the enemy takes knockbacks), and
    the call still returns the full damage constant of the type, although
    the prop is broken when it returns. *)
Theorem hitEnemy_breaks_before_knockback :
  forall (L : SqrtLaws J) (E : Type) (k : option (Q -> Q -> E -> E)) (e : E)
         (ops : list Op) (x y : Q) (objectType : ObjectType),
    let p := run ops (new x y objectType) in
    isFlying p = true ->
    isBroken p = false ->
    health p <= 5 ->
    let p1 := takeDamage 5 p in
    isBroken p1 = true
    /\ velocity p1 = Vector2.mk 0 0
    /\ speed p1 == 0
    /\ snd (fst (hitEnemy k e p))
       = match k with
         | Some knock => knock (0 * 0.5) (0 * 0.5) e
         | None => e
         end
    /\ snd (hitEnemy k e p) = damage (OBJECT_CONFIGS objectType)
    /\ isBroken (fst (fst (hitEnemy k e p))) = true.
Proof.
  intros L E k e ops x y objectType p F B H p1.
  assert (Lt : breakEffectPlayed p = false).
  { unfold p. rewrite run_latch; [exact B|reflexivity]. }
  destruct (hitEnemy_lethal L k e p F B Lt H) as (B1 & V1 & S1 & Eq).
  fold p1 in B1, V1, S1, Eq.
  split; [exact B1|]. split; [exact V1|]. split; [exact S1|].
  rewrite Eq. cbn [fst snd]. split; [reflexivity|]. split.
  - unfold p. rewrite run_config. reflexivity.
  - exact B1.
Qed.

(** *** Kicks *)

Lemma inverse_weight_order (w1 w2 : Q) :
  0 < w1 -> w1 < w2 -> 0 < 100 / w2 /\ 100 / w2 < 100 / w1.
Proof.
  intros H1 H2. split.
  - apply Qlt_shift_div_l; lra.
  - apply Qlt_shift_div_l; [lra|].
    assert (E : 100 / w2 * w1 == 100 * (w1 / w2)) by (field; lra).
    assert (w1 / w2 < 1) by (apply Qlt_shift_div_r; lra).
    lra.
Qed.

Lemma square_sum_pos (a b : Q) : ~ (a == 0 /\ b == 0) -> 0 < a * a + b * b.
Proof.
  intros H. destruct (Qeq_dec a 0) as [A|A], (Qeq_dec b 0) as [B|B];
    [tauto|nra|nra|nra].
Qed.

Lemma square_pos (c : Q) : ~ c == 0 -> 0 < c * c.
Proof.
  intros H. destruct (Qlt_le_dec c 0); [nra|].
  destruct (Qeq_dec c 0); [tauto|nra].
Qed.

(** The velocity [applyKick] gives an unbroken prop. *)
Lemma applyKick_velocity (fx fy kf rnd : Q) (p : t) :
  isBroken p = false ->
  velocity (applyKick fx fy kf rnd p)
  = Vector2.mk (fx * (100 / weight p) * (kf / 100))
               (fy * (100 / weight p) * (kf / 100))
  /\ isFlying (applyKick fx fy kf rnd p) = true.
Proof.
  intros B. unfold applyKick. rewrite B. split; reflexivity.
Qed.

(** The kicked speed is the larger, the larger the factor of the weight. *)
Lemma kicked_speed_order (L : SqrtLaws J) (fx fy c a1 a2 : Q) :
  ~ c == 0 -> ~ (fx == 0 /\ fy == 0) -> 0 < a2 -> a2 < a1 ->
  Math_sqrt (fx * a2 * c * (fx * a2 * c) + fy * a2 * c * (fy * a2 * c))
  < Math_sqrt (fx * a1 * c * (fx * a1 * c) + fy * a1 * c * (fy * a1 * c)).
Proof.
  intros K F A2 A12.
  pose proof (square_pos c K) as C.
  pose proof (square_sum_pos fx fy F) as S.
  assert (D : 0 < a1 * a1 - a2 * a2) by nra.
  assert (P : 0 < (fx * fx + fy * fy) * (c * c) * (a1 * a1 - a2 * a2)).
  { apply Qmult_lt_0_compat; [apply Qmult_lt_0_compat|]; assumption. }
  apply sqrt_increasing; nra.
Qed.

(** C4, as the code has it.  [applyKick] on an unbroken prop sets the
    velocity to the force scaled by [(100/weight) * (characterKickForce/100)],
    whatever the velocity was before, and sets [isFlying], for a zero
    force too.  Of two unbroken props of positive weights [w1 < w2] kicked
    alike, the lighter one is strictly faster when the force and
    [characterKickForce] are not zero; when one of them is zero both
    props get velocity zero. *)
Theorem applyKick_scales_by_weight :
  forall (L : SqrtLaws J) (fx fy kf r1 r2 : Q) (p1 p2 : t),
    isBroken p1 = false ->
    isBroken p2 = false ->
    0 < weight p1 ->
    weight p1 < weight p2 ->
    let q1 := applyKick fx fy kf r1 p1 in
    let q2 := applyKick fx fy kf r2 p2 in
    (Vector2.x (velocity q1) == fx * (100 / weight p1 * (kf / 100))
     /\ Vector2.y (velocity q1) == fy * (100 / weight p1 * (kf / 100))
     /\ (forall v0 : Vector2.t,
            velocity (applyKick fx fy kf r1 (set_velocity v0 p1)) = velocity q1)
     /\ isFlying q1 = true)
    /\ (~ kf == 0 -> ~ (fx == 0 /\ fy == 0) -> speed q2 < speed q1)
    /\ (kf == 0 \/ (fx == 0 /\ fy == 0) ->
        Vector2.x (velocity q1) == 0 /\ Vector2.y (velocity q1) == 0
        /\ Vector2.x (velocity q2) == 0 /\ Vector2.y (velocity q2) == 0).
Proof.
  intros L fx fy kf r1 r2 p1 p2 B1 B2 W1 W12 q1 q2.
  destruct (applyKick_velocity fx fy kf r1 p1 B1) as (V1 & F1).
  destruct (applyKick_velocity fx fy kf r2 p2 B2) as (V2 & _).
  fold q1 in V1, F1. fold q2 in V2.
  destruct (inverse_weight_order _ _ W1 W12) as (A2 & A12).
  unfold speed. rewrite V1, V2. cbn [Vector2.x Vector2.y].
  split; [|split].
  - split; [ring|]. split; [ring|]. split; [|exact F1].
    intros v0. subst q1. unfold applyKick.
    change (isBroken (set_velocity v0 p1)) with (isBroken p1). rewrite B1.
    reflexivity.
  - intros K F. apply (kicked_speed_order L); try assumption.
    intros Z. apply K.
    assert (E : kf == kf / 100 * 100) by field. rewrite E, Z. ring.
  - intros [K | (X & Y)].
    + repeat split; rewrite K; field; lra.
    + repeat split; rewrite ?X, ?Y; ring.
Qed.

End WithRuntime.

(** A mock enemy that records the knockbacks it is given. *)
Definition recordKnockback (x y : Q) (calls : list (Q * Q)) : list (Q * Q) :=
  (x, y) :: calls.

(** The calls that kick a box into flight and wear it down to 5 health. *)
Definition wear_down : list Op := [OpApplyKick 100 0 100 0.5; OpTakeDamage 10].

(** [hitEnemy_breaks_before_knockback] on a box at (600, 200) after
    [wear_down], hitting the recording enemy. *)
Lemma hitEnemy_breaks_before_knockback_witness :
  SqrtLaws ComputeRuntime
  /\ isFlying (run wear_down (new 600 200 BOX)) = true
  /\ isBroken (run wear_down (new 600 200 BOX)) = false
  /\ health (run wear_down (new 600 200 BOX)) <= 5
  /\ isBroken (takeDamage 5 (run wear_down (new 600 200 BOX))) = true
  /\ snd (fst (hitEnemy (Some recordKnockback) [] (run wear_down (new 600 200 BOX))))
     = [(0 * 0.5, 0 * 0.5)]
  /\ snd (hitEnemy (Some recordKnockback) [] (run wear_down (new 600 200 BOX)))
     = 25.
Proof.
  assert (H : health (run wear_down (new 600 200 BOX)) <= 5)
    by (apply Qle_bool_iff; reflexivity).
  pose proof (hitEnemy_breaks_before_knockback ComputeRuntime_laws
                (list (Q * Q)) (Some recordKnockback) [] wear_down 600 200 BOX
                eq_refl eq_refl H) as (B & _ & _ & K & D & _).
  split; [exact ComputeRuntime_laws|].
  split; [reflexivity|]. split; [reflexivity|].
  split; [exact H|]. split; [exact B|]. split; [exact K|exact D].
Defined.

(** Lighter is not always strictly faster: a box (weight 20) and a stone
    (weight 80), both kicked with force (0, 0), fly with the same speed 0. *)
Lemma applyKick_zero_force_not_faster :
  let box := applyKick 0 0 100 0.5 (new 600 200 BOX) in
  let stone := applyKick 0 0 100 0.5 (new 450 400 STONE) in
  weight box < weight stone
  /\ isFlying box = true /\ isFlying stone = true
  /\ ~ (speed stone < speed box).
Proof.
  cbv zeta. split; [reflexivity|]. split; [reflexivity|]. split; [reflexivity|].
  apply Qle_not_lt. apply Qle_bool_iff. vm_compute. reflexivity.
Qed.

(** [applyKick_scales_by_weight] on a box and a stone, both kicked with
    force (100, 0) and kick force 100. *)
Lemma applyKick_scales_by_weight_witness :
  SqrtLaws ComputeRuntime
  /\ isBroken (new 600 200 BOX) = false
  /\ isBroken (new 450 400 STONE) = false
  /\ 0 < weight (new 600 200 BOX)
  /\ weight (new 600 200 BOX) < weight (new 450 400 STONE)
  /\ speed (applyKick 100 0 100 0.5 (new 450 400 STONE))
     < speed (applyKick 100 0 100 0.5 (new 600 200 BOX)).
Proof.
  assert (W1 : 0 < weight (new 600 200 BOX)) by reflexivity.
  assert (W2 : weight (new 600 200 BOX) < weight (new 450 400 STONE))
    by reflexivity.
  pose proof (applyKick_scales_by_weight ComputeRuntime_laws 100 0 100 0.5 0.5
                (new 600 200 BOX) (new 450 400 STONE)
                eq_refl eq_refl W1 W2) as (_ & S & _).
  split; [exact ComputeRuntime_laws|].
  split; [reflexivity|]. split; [reflexivity|].
  split; [exact W1|]. split; [exact W2|].
  apply S.
  - intros K. discriminate K.
  - intros (X & _). discriminate X.
Defined.

End KickableObjectFacts.
(** ** Effects *)

Lemma bind_Some {A B : Type} (m : M A) (f : A -> M B) (a : A) (e1 : list Effect)
    (b : B) (e2 : list Effect) :
  m = Some (a, e1) -> f a = Some (b, e2) -> bind m f = Some (b, e1 ++ e2).
Proof. intros Hm Hf. unfold bind. rewrite Hm, Hf. reflexivity. Qed.

Lemma bind_inv {A B : Type} (m : M A) (f : A -> M B) (b : B) (e : list Effect) :
  bind m f = Some (b, e) ->
  exists a e1 e2, m = Some (a, e1) /\ f a = Some (b, e2) /\ e = e1 ++ e2.
Proof.
  unfold bind. destruct m as [[a e1]|]; [|discriminate].
  destruct (f a) as [[b' e2]|] eqn:F; [|discriminate].
  intros H. injection H as <- <-. exists a, e1, e2. auto.
Qed.

(** ** The boss *)

Module BossFacts.
Import Boss.

Section WithRuntime.
Context {J : JsRuntime} {EC : EnemyClass}.

(** The phase index names a phase of the configuration. *)
Definition phase_in_range (b : t) : Prop :=
  (currentPhase b < List.length (phases (bossConfig b)))%nat.

(** [b'] is [b] but for fields other than the phase index and the
    configuration. *)
Definition same_phase (b b' : t) : Prop :=
  currentPhase b' = currentPhase b /\ bossConfig b' = bossConfig b.

(** A call returned [b'] and left the phase of [b] alone. *)
Definition keeps_phase (b : t) (m : M t) : Prop :=
  exists b' e, m = Some (b', e) /\ same_phase b b'.

Lemma keeps_phase_ret (b b' : t) : same_phase b b' -> keeps_phase b (ret b').
Proof. intros H. exists b', []. split; [reflexivity|exact H]. Qed.

Lemma keeps_phase_emit (b b' : t) (eff : Effect) :
  same_phase b b' -> keeps_phase b (emit eff ;;; ret b').
Proof. intros H. exists b', [eff]. split; [reflexivity|exact H]. Qed.

Lemma same_phase_refl (b : t) : same_phase b b.
Proof. split; reflexivity. Qed.

Lemma delayedCalls_returns (gap : Q) (cb : nat -> Callback) (from count : nat) :
  exists e, delayedCalls gap cb from count = Some (tt, e).
Proof.
  revert from. induction count as [|n IH]; intros from; cbn.
  - exists []. reflexivity.
  - destruct (IH (S from)) as [e He]. rewrite He. eexists. reflexivity.
Qed.

Lemma executeChargeAttack_keeps (playerPos : Vector2.t) (b : t) :
  keeps_phase b (executeChargeAttack playerPos b).
Proof. apply keeps_phase_emit. split; reflexivity. Qed.

Lemma executeRoutine_keeps (attack : BossAttack) (playerPos : Vector2.t) (b : t) :
  keeps_phase b (executeRoutine attack playerPos b).
Proof.
  destruct attack; cbn [executeRoutine];
    try (apply keeps_phase_emit, same_phase_refl);
    try apply executeChargeAttack_keeps.
  - destruct (delayedCalls_returns 300 (fun i => BombWarning i playerPos) 0 5)
      as [e He].
    rewrite He. exists b. eexists. split; [reflexivity|apply same_phase_refl].
  - exists (set_isCharging true (set_chargeTarget (Some (Vector2.clone playerPos)) b)).
    eexists. split; [reflexivity|split; reflexivity].
  - destruct (delayedCalls_returns 800 (fun _ => DashAgain playerPos) 0 3)
      as [e He].
    rewrite He. exists b. eexists. split; [reflexivity|apply same_phase_refl].
Qed.

Lemma executeAttack_keeps (attack : string) (playerPos : Vector2.t) (b : t) :
  keeps_phase b (executeAttack attack playerPos b).
Proof.
  unfold executeAttack. destruct (attackCase attack) as [routine|].
  - destruct (executeRoutine_keeps routine playerPos b) as (b' & e & H & S).
    exists b'. eexists. split; [|exact S].
    apply (bind_Some _ _ tt [Log ("Boss executing attack: " ++ attack)%string]);
      [reflexivity|exact H].
  - exists b. eexists. split; [reflexivity|apply same_phase_refl].
Qed.

Lemma updateBossAttacks_keeps (dt : Q) (playerPos : Vector2.t) (tick : Tick) (b : t) :
  phase_in_range b -> keeps_phase b (updateBossAttacks dt playerPos tick b).
Proof.
  intros R. unfold updateBossAttacks.
  destruct (now tick - lastAttackTime b <? attackCooldown b);
    [apply keeps_phase_ret, same_phase_refl|].
  destruct (nth_error (phases (bossConfig b)) (currentPhase b)) as [ph|] eqn:N.
  - destruct (List.length (abilities ph) =? 0)%nat;
      [apply keeps_phase_ret, same_phase_refl|].
    destruct (executeAttack_keeps (pickAttack (randomAttack tick) (abilities ph))
                playerPos b) as (b' & e & H & S1 & S2).
    exists (set_lastAttackTime (now tick) b'). eexists. split.
    + eapply bind_Some; [exact H|reflexivity].
    + split; [exact S1|exact S2].
  - apply nth_error_None in N. unfold phase_in_range in R. lia.
Qed.

Lemma updateBossMovement_keeps (dt : Q) (playerPos : Vector2.t) (tick : Tick) (b : t) :
  phase_in_range b -> keeps_phase b (updateBossMovement dt playerPos tick b).
Proof.
  intros R. unfold updateBossMovement.
  destruct (Enemy.isDying (base b) || isCharging b);
    [apply keeps_phase_ret, same_phase_refl|].
  destruct (nth_error (phases (bossConfig b)) (currentPhase b)) as [ph|] eqn:N.
  - unfold updateCircleMovement, updateChaseMovement, updateBerserkerMovement,
      updateSwimmingMovement, updateFrenzyMovement.
    repeat match goal with
           | |- context [if ?c then _ else _] => destruct c
           end;
      apply keeps_phase_ret; split; reflexivity.
  - apply nth_error_None in N. unfold phase_in_range in R. lia.
Qed.

(** One check moves the index by zero or by one, and stays in range. *)
Lemma checkPhaseTransition_advances (tick : Tick) (b : t) :
  exists b' e,
    checkPhaseTransition tick b = Some (b', e)
    /\ bossConfig b' = bossConfig b
    /\ (currentPhase b' = currentPhase b \/ currentPhase b' = S (currentPhase b))
    /\ (phase_in_range b -> phase_in_range b').
Proof.
  unfold checkPhaseTransition.
  destruct (currentPhase b <? List.length (phases (bossConfig b)) - 1)%nat eqn:C.
  - apply Nat.ltb_lt in C.
    destruct (nth_error (phases (bossConfig b)) (currentPhase b + 1)) as [next|] eqn:N;
      [|apply nth_error_None in N; lia].
    destruct (Enemy.health (base b) / Enemy.maxHealth (base b) <=? healthThreshold next).
    + unfold enterNextPhase. cbn [currentPhase set_currentPhase set_lastAttackTime bossConfig].
      destruct (nth_error (phases (bossConfig b)) (S (currentPhase b))) as [ph|] eqn:N';
        [|apply nth_error_None in N'; lia].
      unfold phase_in_range.
      destruct (movementPattern ph =? "berserker")%string;
        [|destruct (movementPattern ph =? "frenzy")%string];
        eexists; eexists; (split; [reflexivity|]); cbn; repeat split; auto; lia.
    + exists b, []. repeat split; auto.
  - exists b, []. repeat split; auto.
Qed.

Lemma update_advances (dt : Q) (playerPos : Vector2.t) (tick : Tick) (b : t) :
  phase_in_range b ->
  exists b' e,
    update dt playerPos tick b = Some (b', e)
    /\ bossConfig b' = bossConfig b
    /\ (currentPhase b <= currentPhase b' <= S (currentPhase b))%nat
    /\ phase_in_range b'.
Proof.
  intros R. unfold update.
  destruct (checkPhaseTransition_advances tick b) as (b1 & e1 & H1 & C1 & P1 & R1).
  specialize (R1 R).
  destruct (updateBossMovement_keeps dt playerPos tick b1 R1) as (b2 & e2 & H2 & P2 & C2).
  assert (R2 : phase_in_range b2) by (unfold phase_in_range in *; rewrite P2, C2; exact R1).
  destruct (updateBossAttacks_keeps dt playerPos tick b2 R2) as (b3 & e3 & H3 & P3 & C3).
  exists (set_base (Enemy_update dt playerPos (base b3)) b3). eexists. split.
  - eapply bind_Some; [exact H1|].
    eapply bind_Some; [exact H2|].
    eapply bind_Some; [exact H3|reflexivity].
  - unfold phase_in_range in *. cbn. rewrite C3, C2, C1, P3, P2.
    repeat split; try lia. rewrite <- C1, <- C2, <- P2. exact R2.
Qed.

Lemma takeDamage_keeps (amount : Q) (b : t) :
  exists b' dead e, takeDamage amount b = Some ((b', dead), e) /\ same_phase b b'.
Proof.
  unfold takeDamage. destruct (Enemy_takeDamage amount (base b)) as [e' dead].
  destruct dead; eexists; eexists; eexists; (split; [reflexivity|]);
    split; reflexivity.
Qed.

Lemma runCallback_keeps (cb : Callback) (b : t) : keeps_phase b (runCallback cb b).
Proof.
  destruct cb; cbn [runCallback];
    try (apply keeps_phase_emit, same_phase_refl).
  - destruct (chargeTarget b).
    + apply keeps_phase_emit. split; reflexivity.
    + apply keeps_phase_ret, same_phase_refl.
  - apply keeps_phase_ret. split; reflexivity.
  - apply executeChargeAttack_keeps.
Qed.

Lemma step_advances (s : Step) (b : t) :
  phase_in_range b ->
  exists b' e,
    step s b = Some (b', e)
    /\ bossConfig b' = bossConfig b
    /\ (currentPhase b <= currentPhase b' <= S (currentPhase b))%nat
    /\ phase_in_range b'.
Proof.
  intros R. destruct s as [dt playerPos tick|amount|tick|cb]; cbn [step].
  - apply update_advances, R.
  - destruct (takeDamage_keeps amount b) as (b' & dead & e & H & P & C).
    exists b'. eexists. split; [eapply bind_Some; [exact H|reflexivity]|].
    unfold phase_in_range in *. rewrite P, C. repeat split; auto; lia.
  - destruct (checkPhaseTransition_advances tick b) as (b' & e & H & C & P & R').
    exists b', e. repeat split; auto; lia.
  - destruct (runCallback_keeps cb b) as (b' & e & H & P & C).
    exists b', e. unfold phase_in_range in *. rewrite P, C.
    repeat split; auto; lia.
Qed.

Lemma run_advances (steps : list Step) (b : t) :
  phase_in_range b ->
  exists b' e,
    run steps b = Some (b', e)
    /\ bossConfig b' = bossConfig b
    /\ (currentPhase b <= currentPhase b')%nat
    /\ phase_in_range b'.
Proof.
  revert b. induction steps as [|s steps IH]; intros b R.
  - exists b, []. repeat split; auto.
  - destruct (step_advances s b R) as (b1 & e1 & H1 & C1 & P1 & R1).
    destruct (IH b1 R1) as (b2 & e2 & H2 & C2 & P2 & R2).
    exists b2, (e1 ++ e2). split.
    + unfold run. cbn [forEach]. eapply bind_Some; [exact H1|exact H2].
    + split; [congruence|]. split; [lia|exact R2].
Qed.

(** C2.  For a boss with at least one phase, spawned and then put
    through any calls of [update], [takeDamage], the phase check and the
    delayed calls of its attacks: every call returns; the phase index
    after more calls is never below what it was ([b1] then [b2]); it
    never exceeds the number of phases less one; and a single phase check
    moves it by one at most, whatever the health. *)
Theorem phase_index_monotone_and_bounded :
  forall (cfg : BossConfig) (x y : Q) (enemyType : EnemyTypeId)
         (earlier later : list Step) (tick : Tick),
    (1 <= List.length (phases cfg))%nat ->
    exists b1 e1 b2 e2 b3 e3,
      run earlier (spawn x y enemyType (new cfg)) = Some (b1, e1)
      /\ run later b1 = Some (b2, e2)
      /\ checkPhaseTransition tick b2 = Some (b3, e3)
      /\ (currentPhase b1 <= currentPhase b2)%nat
      /\ (currentPhase b2 <= List.length (phases cfg) - 1)%nat
      /\ (currentPhase b2 <= currentPhase b3 <= currentPhase b2 + 1)%nat.
Proof.
  intros cfg x y enemyType earlier later tick N.
  assert (R0 : phase_in_range (spawn x y enemyType (new cfg)))
    by (unfold phase_in_range; cbn; lia).
  destruct (run_advances earlier _ R0) as (b1 & e1 & H1 & C1 & _ & R1).
  destruct (run_advances later b1 R1) as (b2 & e2 & H2 & C2 & P2 & R2).
  destruct (checkPhaseTransition_advances tick b2) as (b3 & e3 & H3 & _ & P3 & _).
  exists b1, e1, b2, e2, b3, e3.
  repeat split; auto.
  - unfold phase_in_range in R2. rewrite C2, C1 in R2. cbn in R2. lia.
  - lia.
  - lia.
Qed.

(** *** Attacks *)

(** The draw picks an ability of the list: index [i] when the draw lies in
    [[i/n, (i+1)/n)], each index for the same length of draws. *)
Lemma pickAttack_uniform (rnd : Q) (l : list string) (i : nat) :
  (i < List.length l)%nat ->
  inject_Z (Z.of_nat i) <= rnd * inject_Z (Z.of_nat (List.length l))
                         < inject_Z (Z.of_nat i) + 1 ->
  pickAttack rnd l = nth i l "undefined"%string /\ In (pickAttack rnd l) l.
Proof.
  intros I (Lo & Hi).
  assert (F : Qfloor (rnd * inject_Z (Z.of_nat (List.length l))) = Z.of_nat i).
  { set (x := rnd * inject_Z (Z.of_nat (List.length l))) in *.
    pose proof (Qfloor_le x) as A. pose proof (Qlt_floor x) as B.
    assert (C : inject_Z (Qfloor x) < inject_Z (Z.of_nat i + 1)).
    { rewrite inject_Z_plus. change (inject_Z 1) with 1. lra. }
    assert (D : inject_Z (Z.of_nat i) < inject_Z (Qfloor x + 1)) by lra.
    rewrite <- Zlt_Qlt in C, D. lia. }
  unfold pickAttack. rewrite F.
  destruct (Z.of_nat i <? 0)%Z eqn:N; [apply Z.ltb_lt in N; lia|].
  rewrite Nat2Z.id. split; [reflexivity|apply nth_In, I].
Qed.

(** No attack before the cooldown has passed: nothing changes. *)
Lemma updateBossAttacks_cooling (dt : Q) (playerPos : Vector2.t) (tick : Tick) (b : t) :
  now tick - lastAttackTime b < attackCooldown b ->
  updateBossAttacks dt playerPos tick b = Some (b, []).
Proof.
  intros H. unfold updateBossAttacks.
  apply Qltb_lt in H. rewrite H. reflexivity.
Qed.

(** Once the cooldown has passed, with abilities to pick from: the picked
    ability goes to [executeAttack], and the clock is recorded. *)
Lemma updateBossAttacks_fires (dt : Q) (playerPos : Vector2.t) (tick : Tick) (b : t)
    (ph : BossPhase) :
  attackCooldown b <= now tick - lastAttackTime b ->
  nth_error (phases (bossConfig b)) (currentPhase b) = Some ph ->
  abilities ph <> [] ->
  updateBossAttacks dt playerPos tick b
  = (b' <- executeAttack (pickAttack (randomAttack tick) (abilities ph)) playerPos b ;;
     ret (set_lastAttackTime (now tick) b')).
Proof.
  intros H N A. unfold updateBossAttacks.
  apply Qltb_ge in H. rewrite H, N.
  destruct (abilities ph) as [|a l]; [congruence|]. reflexivity.
Qed.

(** With no ability in the phase, nothing happens. *)
Lemma updateBossAttacks_empty (dt : Q) (playerPos : Vector2.t) (tick : Tick) (b : t)
    (ph : BossPhase) :
  nth_error (phases (bossConfig b)) (currentPhase b) = Some ph ->
  abilities ph = [] ->
  updateBossAttacks dt playerPos tick b = Some (b, []).
Proof.
  intros N A. unfold updateBossAttacks. rewrite N, A.
  destruct (_ <? _); reflexivity.
Qed.

End WithRuntime.

(** The bosses of the zones that ship, and the abilities of their phases. *)
Definition shippedBosses : list BossConfig :=
  flat_map (fun z => match EncounterSystem.boss z with
                     | Some cfg => [cfg]
                     | None => []
                     end) EncounterSystem.createGameZones.

Definition shippedAbilities : list string :=
  flat_map (fun cfg => flat_map abilities (phases cfg)) shippedBosses.

(** The boss of the first zone, as [startBossFight] makes it. *)
Definition swarmKing : t :=
  match shippedBosses with
  | cfg :: _ => spawn (Vector2.x (boss_position cfg)) (Vector2.y (boss_position cfg))
                      ELITE (new cfg)
  | [] => new (mkBossConfig "" "" Vector2.zero 0 [] 0 "")
  end.

(** A tick at 5 s on the clock, every draw being 0. *)
Definition tick5000 : Tick := mkTick 5000 0 0 0 0.

(** C5 fails on the zones that ship: no ability id of any shipped boss
    phase is a value of [BossAttack] (the catalog writes [summon-swarm]
    where the enum has [summon_swarm]), so [executeAttack] finds no case
    for it.  On the first boss, an eligible tick logs the attack picked,
    records the clock, and runs no routine: no delayed call, no routine
    line, no change to the boss but [lastAttackTime]. *)
Theorem shipped_abilities_reach_no_routine :
  Forall (fun a => attackCase a = None) shippedAbilities
  /\ shippedAbilities <> []
  /\ updateBossAttacks 16 (Vector2.mk 900 600) tick5000 swarmKing
     = Some (set_lastAttackTime 5000 swarmKing,
             [Log "Boss executing attack: summon-swarm"]).
Proof.
  split; [|split].
  - repeat constructor.
  - discriminate.
  - reflexivity.
Qed.

(** With the id the enum has, the same tick runs the routine. *)
Example enum_ability_reaches_routine :
  executeAttack "summon_swarm" (Vector2.mk 900 600) swarmKing
  = Some (swarmKing, [Log "Boss executing attack: summon_swarm";
                      Log "Boss summons swarm enemies!"]).
Proof. reflexivity. Qed.

(** The second shipped boss: phases at 100%, 70% and 30% of 500 health. *)
Definition bomber : t :=
  match shippedBosses with
  | _ :: cfg :: _ => spawn 2500 700 TANK (new cfg)
  | _ => swarmKing
  end.

(** Health falls from 500 to 100, past both thresholds at once: the first
    check enters phase index 1, the next one index 2. *)
Example phase_check_advances_one_at_a_time :
  option_map (fun r => currentPhase (fst r))
    (run [StepTakeDamage 400; StepCheckPhase tick5000] bomber) = Some 1%nat
  /\ option_map (fun r => currentPhase (fst r))
       (run [StepTakeDamage 400; StepCheckPhase tick5000; StepCheckPhase tick5000]
            bomber) = Some 2%nat.
Proof. split; vm_compute; reflexivity. Qed.

(** [phase_index_monotone_and_bounded] on the second shipped boss. *)
Lemma phase_index_monotone_and_bounded_witness :
  (1 <= List.length (phases (bossConfig bomber)))%nat
  /\ exists b1 e1 b2 e2 b3 e3,
      run [StepUpdate 16 (Vector2.mk 2400 700) tick5000]
          (spawn 2500 700 TANK (new (bossConfig bomber))) = Some (b1, e1)
      /\ run [StepTakeDamage 400; StepUpdate 16 (Vector2.mk 2400 700) tick5000] b1
         = Some (b2, e2)
      /\ checkPhaseTransition tick5000 b2 = Some (b3, e3)
      /\ (currentPhase b1 <= currentPhase b2)%nat
      /\ (currentPhase b2 <= List.length (phases (bossConfig bomber)) - 1)%nat
      /\ (currentPhase b2 <= currentPhase b3 <= currentPhase b2 + 1)%nat.
Proof.
  assert (N : (1 <= List.length (phases (bossConfig bomber)))%nat)
    by (vm_compute; lia).
  split; [exact N|].
  exact (phase_index_monotone_and_bounded (bossConfig bomber) 2500 700 TANK
           [StepUpdate 16 (Vector2.mk 2400 700) tick5000]
           [StepTakeDamage 400; StepUpdate 16 (Vector2.mk 2400 700) tick5000]
           tick5000 N).
Defined.

End BossFacts.

(** ** The encounter manager *)

Module EncounterSystemFacts.
Import EncounterSystem.

Section WithRuntime.
Context {J : JsRuntime} {EC : EnemyClass}.

(** *** Loading a zone that is unknown or locked *)

(** C8.  When [zoneId] names no zone of the catalog, or the zone it
    names is locked, [loadZone] throws nothing, logs one warning and
    returns the manager as it was: the current zone, the active enemies
    and props, the boss, the pool and every zone with its unlock flag. *)
Theorem loadZone_unknown_or_locked :
  forall (zoneId : string) (s : t),
    match find zoneId s with
    | None => True
    | Some (_, zone) => isUnlocked zone = false
    end ->
    loadZone zoneId s
    = Some (s, [Warn ("Zone " ++ zoneId ++ " not found or not unlocked")%string]).
Proof.
  intros zoneId s H. unfold loadZone.
  destruct (find zoneId s) as [[i zone]|].
  - rewrite H. reflexivity.
  - reflexivity.
Qed.

(** *** Reset *)

Lemma clearCurrentZone_frame (s : t) :
  zones (clearCurrentZone s) = zones s
  /\ currentBoss (clearCurrentZone s) = currentBoss s
  /\ currentZone (clearCurrentZone s) = None
  /\ activeEnemies (clearCurrentZone s) = []
  /\ activeObjects (clearCurrentZone s) = [].
Proof. repeat split. Qed.

(** C9.  After [reset], whatever the manager was: no current zone, no
    boss and no boss fight, no active enemy and no active prop, in the
    maps and in what the accessors give; and the catalog is untouched, so
    every zone has the unlock flag it had. *)
Theorem reset_clears_all_but_unlocks :
  forall s : t,
    currentZone (reset s) = None
    /\ getCurrentZone (reset s) = None
    /\ isBossActive (reset s) = false
    /\ getBoss (reset s) = None
    /\ activeEnemies (reset s) = []
    /\ activeObjects (reset s) = []
    /\ getActiveEnemies (reset s) = []
    /\ getActiveObjects (reset s) = []
    /\ zones (reset s) = zones s
    /\ map isUnlocked (zones (reset s)) = map isUnlocked (zones s).
Proof.
  intros s. unfold reset, getCurrentZone, isBossActive, getBoss, getActiveEnemies,
    getActiveObjects.
  destruct (clearCurrentZone_frame s) as (Z & B & C & E & O).
  destruct (currentBoss (clearCurrentZone s)) as [b|] eqn:K; cbv zeta;
    cbn [currentZone isBossFight currentBoss activeEnemies activeObjects zones
         set_activeObjects set_isBossFight set_currentBoss];
    rewrite ?C, ?E, ?O, ?Z, ?K; cbn [flat_map filter map app andb];
    repeat split.
Qed.

(** *** One frame *)

(** Takes apart a hypothesis that a computation returned. *)
Ltac returned H :=
  repeat match type of H with
         | bind _ _ = Some _ =>
             let a := fresh "r" in
             let e1 := fresh "e" in
             let e2 := fresh "e" in
             let H1 := fresh "R" in
             let E := fresh "E" in
             apply bind_inv in H; destruct H as (a & e1 & e2 & H1 & H & E)
         | ret _ = Some _ => unfold ret in H
         | emit _ = Some _ => unfold emit in H
         | None = Some _ => discriminate H
         | throw = Some _ => discriminate H
         | (let (_, _) := ?x in _) = Some _ => destruct x eqn:?
         | (match ?x with _ => _ end) = Some _ => destruct x eqn:?
         end.

Lemma Map_delete_In {V : Type} (key : string) (m : list (string * V))
    (kv : string * V) :
  In kv (Map_delete key m) -> In kv m.
Proof. unfold Map_delete. intros H. apply filter_In in H. apply H. Qed.

Lemma Map_delete_all_In {V : Type} (keys : list string) (m : list (string * V))
    (kv : string * V) :
  In kv (fold_left (fun m key => Map_delete key m) keys m) -> In kv m.
Proof.
  revert m. induction keys as [|k keys IH]; intros m H; [exact H|].
  cbn [fold_left] in H. apply IH in H. exact (Map_delete_In _ _ _ H).
Qed.

Lemma filter_filter_and {A : Type} (f g : A -> bool) (l : list A) :
  filter f (filter g l) = filter (fun a => g a && f a) l.
Proof.
  induction l as [|a l IH]; [reflexivity|].
  cbn [filter]. destruct (g a); cbn [filter andb]; rewrite IH; reflexivity.
Qed.

Lemma filter_all {A : Type} (l : list A) : filter (fun _ => true) l = l.
Proof. induction l as [|a l IH]; [reflexivity|]. cbn [filter]. rewrite IH. reflexivity. Qed.

Lemma filter_map_comm {A B : Type} (f : A -> B) (p : B -> bool) (l : list A) :
  filter p (map f l) = map f (filter (fun a => p (f a)) l).
Proof.
  induction l as [|a l IH]; [reflexivity|].
  cbn [map filter]. destruct (p (f a)); cbn [map]; rewrite IH; reflexivity.
Qed.

(** Deleting keys one by one leaves the entries under the other keys. *)
Lemma Map_delete_all_filter {V : Type} (keys : list string) (m : list (string * V)) :
  fold_left (fun m key => Map_delete key m) keys m
  = filter (fun kv => negb (existsb (String.eqb (fst kv)) keys)) m.
Proof.
  revert m. induction keys as [|k keys IH]; intros m.
  - cbn [fold_left existsb negb]. rewrite filter_all. reflexivity.
  - cbn [fold_left]. rewrite IH. unfold Map_delete. rewrite filter_filter_and.
    apply filter_ext. intros kv. cbn [existsb].
    rewrite negb_orb. reflexivity.
Qed.

Lemma unlockNextZone_frame (s s' : t) (e : list Effect) :
  unlockNextZone s = Some (s', e) ->
  activeObjects s' = activeObjects s /\ currentBoss s' = currentBoss s.
Proof.
  unfold unlockNextZone. intros H.
  returned H; injection H as <- _; split; reflexivity.
Qed.

Lemma onBossDefeated_objects (s s' : t) (e : list Effect) :
  onBossDefeated s = Some (s', e) -> activeObjects s' = activeObjects s.
Proof.
  unfold onBossDefeated. intros H.
  returned H; try (injection H as <- _; reflexivity).
  all: match goal with
       | X : unlockNextZone _ = Some _ |- _ =>
           apply unlockNextZone_frame in X; destruct X as (Keep & _);
           injection H as <- _; exact Keep
       end.
Qed.

Lemma updateBoss_objects (playerPos : Vector2.t) (tick : Tick) (s s' : t)
    (e : list Effect) :
  updateBoss playerPos tick s = Some (s', e) -> activeObjects s' = activeObjects s.
Proof.
  unfold updateBoss. intros H.
  returned H; try (injection H as <- _; reflexivity).
  apply onBossDefeated_objects in H. exact H.
Qed.

(** What [updateBoss] does to a live boss: the step of Boss.ts with 16 ms,
    and the boss stays unless it is dead and dying. *)
Lemma updateBoss_steps_16 (playerPos : Vector2.t) (tick : Tick) (s s' : t)
    (e : list Effect) (b : Boss.t) :
  updateBoss playerPos tick s = Some (s', e) ->
  currentBoss s = Some b ->
  Sprite.active (Enemy.sprite (Boss.base b)) = true ->
  exists b' e',
    Boss.update 16 playerPos tick b = Some (b', e')
    /\ ((Enemy.health (Boss.base b') <=? 0) && Enemy.isDying (Boss.base b') = false ->
        currentBoss s' = Some b').
Proof.
  unfold updateBoss. intros H B A. rewrite B, A in H.
  apply bind_inv in H. destruct H as (b' & e1 & e2 & U & H & _).
  exists b', e1. split; [exact U|].
  intros D. rewrite D in H. injection H as <- _. reflexivity.
Qed.

Lemma startBossFight_frame (s s' : t) (e : list Effect) :
  startBossFight s = Some (s', e) ->
  activeObjects s' = activeObjects s /\ zones s' = zones s.
Proof.
  unfold startBossFight. intros H.
  returned H; injection H as <- _; split; reflexivity.
Qed.

Lemma updateEnemies_frame (playerPos : Vector2.t) (s s' : t) (e : list Effect) :
  updateEnemies playerPos s = Some (s', e) ->
  activeObjects s' = activeObjects s
  /\ (forall b, currentBoss s = Some b -> currentBoss s' = Some b).
Proof.
  unfold updateEnemies. intros H.
  destruct (negb (isBossFight s)); [|injection H as <- _; split; auto].
  destruct (currentZone s) as [i|]; [|injection H as <- _; split; auto].
  destruct (getCurrentZone s) as [zone|]; [|injection H as <- _; split; auto].
  apply bind_inv in H. destruct H as (r & e1 & e2 & _ & H & _).
  cbv zeta in H.
  cbn [currentBoss set_enemyPool set_zones] in H.
  destruct (boss zone) as [cfg|]; [|injection H as <- _; split; auto].
  destruct (currentBoss s) as [b|] eqn:B.
  - injection H as <- _. split; [reflexivity|]. cbn. intros b' Hb. congruence.
  - split; [|discriminate].
    destruct (_ <=? _).
    + apply startBossFight_frame in H. apply H.
    + injection H as <- _. reflexivity.
Qed.

Lemma sweepEnemies_frame (s : t) :
  activeObjects (sweepEnemies s) = activeObjects s
  /\ currentBoss (sweepEnemies s) = currentBoss s
  /\ zones (sweepEnemies s) = zones s.
Proof.
  unfold sweepEnemies. destruct (fold_left _ _ _) as [pool dead].
  repeat split.
Qed.

(** *** Aggro *)

Lemma nth_error_modify {A : Type} (f : A -> A) (l : list A) (i j : nat) :
  nth_error (modify i f l) j
  = if (i =? j)%nat then option_map f (nth_error l j) else nth_error l j.
Proof.
  revert i j. induction l as [|a l IH]; intros i j.
  - destruct i, j; cbn; try reflexivity; destruct (i =? j)%nat; reflexivity.
  - destruct i, j; cbn [modify nth_error Nat.eqb option_map]; try reflexivity.
    apply IH.
Qed.

Lemma read_write_same (r : nat) (f : Enemy.t -> Enemy.t) (pool : PoolManager.t) :
  PoolManager.read r (PoolManager.write r f pool)
  = option_map f (PoolManager.read r pool).
Proof.
  unfold PoolManager.read, PoolManager.write. cbn [PoolManager.store].
  rewrite nth_error_modify, Nat.eqb_refl. reflexivity.
Qed.

Lemma read_write_other (r r' : nat) (f : Enemy.t -> Enemy.t) (pool : PoolManager.t) :
  r <> r' ->
  PoolManager.read r' (PoolManager.write r f pool) = PoolManager.read r' pool.
Proof.
  intros N. unfold PoolManager.read, PoolManager.write. cbn [PoolManager.store].
  rewrite nth_error_modify. apply Nat.eqb_neq in N. rewrite N. reflexivity.
Qed.

(** The distance from the enemy to the player that [updateEnemyAggro]
    measures. *)
Definition distanceToPlayer (e : Enemy.t) (playerPos : Vector2.t) : Q :=
  Vector2.distance
    (Vector2.mk (Sprite.x (Enemy.sprite e)) (Sprite.y (Enemy.sprite e))) playerPos.





(** The pool references of the placements that have a runtime enemy. *)
Definition refs (configs : list StationaryEnemy) : list nat :=
  flat_map (fun c => match enemy c with Some r => [r] | None => [] end) configs.

Fixpoint distinct (l : list nat) : bool :=
  match l with
  | [] => true
  | a :: rest => negb (existsb (Nat.eqb a) rest) && distinct rest
  end.

(** The waypoint a patrolling enemy walks to exists. *)
Definition patrol_valid (pool : PoolManager.t) (c : StationaryEnemy) : bool :=
  match enemy c, patrolPath c with
  | Some r, Some (p :: path) =>
      match PoolManager.read r pool with
      | Some e =>
          (match Enemy.patrolIndex e with Some n => n | None => O end
           <? List.length (p :: path))%nat
      | None => true
      end
  | _, _ => true
  end.

(** What [loadZone] sets up and the aggro loop relies on: no two
    placements share a runtime enemy, and every patrol index is within
    its path. *)
Definition placements_ready (configs : list StationaryEnemy) (pool : PoolManager.t)
    : bool :=
  distinct (refs configs) && forallb (patrol_valid pool) configs.

Lemma existsb_eqb_false (r : nat) (l : list nat) :
  existsb (Nat.eqb r) l = false -> forall r', In r' l -> r <> r'.
Proof.
  intros H r' I E. subst r'.
  assert (X : existsb (Nat.eqb r) l = true).
  { apply existsb_exists. exists r. split; [exact I|apply Nat.eqb_refl]. }
  congruence.
Qed.

Lemma refs_In (configs : list StationaryEnemy) (i : nat) (c : StationaryEnemy) (r : nat) :
  nth_error configs i = Some c -> enemy c = Some r -> In r (refs configs).
Proof.
  intros N E. unfold refs. apply in_flat_map. exists c. split.
  - eapply nth_error_In, N.
  - rewrite E. left. reflexivity.
Qed.

Lemma patrol_valid_write (r : nat) (f : Enemy.t -> Enemy.t) (pool : PoolManager.t)
    (configs : list StationaryEnemy) :
  (forall r', In r' (refs configs) -> r <> r') ->
  forallb (patrol_valid (PoolManager.write r f pool)) configs
  = forallb (patrol_valid pool) configs.
Proof.
  induction configs as [|c configs IH]; intros N; [reflexivity|].
  cbn [forallb]. rewrite IH.
  - f_equal. unfold patrol_valid. destruct (enemy c) as [r'|] eqn:E; [|reflexivity].
    rewrite read_write_other; [reflexivity|].
    apply N. unfold refs. cbn [flat_map]. rewrite E. left. reflexivity.
  - intros r' I. apply N. unfold refs. cbn [flat_map].
    apply in_or_app. right. exact I.
Qed.

Lemma updateEnemyAggro_returns (pool : PoolManager.t) (config : StationaryEnemy)
    (playerPos : Vector2.t) (r : nat) (e : Enemy.t) :
  enemy config = Some r ->
  PoolManager.read r pool = Some e ->
  patrol_valid pool config = true ->
  exists config' e' effs,
    updateEnemyAggro config playerPos e = Some ((config', e'), effs).
Proof.
  intros E R V. unfold updateEnemyAggro. cbv zeta.
  destruct (state config).
  - destruct (_ && _); [unfold triggerAggro|]; repeat eexists.
  - destruct (_ && _); [unfold triggerAggro; repeat eexists|].
    destruct (negb _); [|repeat eexists].
    unfold updatePatrol. unfold patrol_valid in V. rewrite E, R in V.
    destruct (patrolPath config) as [[|p path]|]; try (repeat eexists; fail).
    apply Nat.ltb_lt in V. apply nth_error_Some in V.
    destruct (nth_error (p :: path) _) as [targetPos|]; [|congruence].
    cbv zeta. destruct (5 <? _); repeat eexists.
  - destruct (_ <? _); [unfold loseAggro; destruct (patrolPath config)|];
      repeat eexists.
  - repeat eexists.
  - repeat eexists.
Qed.

(** The aggro loop returns, and each placement with a live runtime enemy
    comes out as [updateEnemyAggro] makes it from the enemy as it was
    when the loop began. *)
Lemma updatePlacements_each (playerPos : Vector2.t) (configs : list StationaryEnemy)
    (pool : PoolManager.t) :
  placements_ready configs pool = true ->
  exists configs' pool' effs,
    updatePlacements playerPos configs pool = Some ((configs', pool'), effs)
    /\ forall (i : nat) (c : StationaryEnemy) (r : nat) (e : Enemy.t),
         nth_error configs i = Some c ->
         enemy c = Some r ->
         PoolManager.read r pool = Some e ->
         Sprite.active (Enemy.sprite e) = true ->
         exists c' e' effs',
           updateEnemyAggro c playerPos e = Some ((c', e'), effs')
           /\ nth_error configs' i = Some c'.
Proof.
  revert pool. induction configs as [|c configs IH]; intros pool Ready.
  - exists [], pool, []. split; [reflexivity|].
    intros i c r e N. destruct i; discriminate N.
  - unfold placements_ready in Ready. apply andb_true_iff in Ready.
    destruct Ready as (D & V). cbn [forallb] in V. apply andb_true_iff in V.
    destruct V as (Vc & V).
    cbn [updatePlacements]. unfold updatePlacement.
    destruct (enemy c) as [r|] eqn:E.
    2:{ (* no runtime enemy *)
      assert (Ready' : placements_ready configs pool = true).
      { unfold placements_ready. rewrite V, andb_true_r.
        unfold refs in D. cbn [flat_map] in D. rewrite E in D. exact D. }
      destruct (IH pool Ready') as (configs' & pool' & effs & H & Each).
      exists (c :: configs'), pool'. eexists. split.
      - cbn [bind ret fst snd]. rewrite H. reflexivity.
      - intros [|i] c0 r0 e0 N E0 R0 A0.
        + injection N as <-. congruence.
        + exact (Each i c0 r0 e0 N E0 R0 A0). }
    unfold refs in D. cbn [flat_map] in D. rewrite E in D.
    cbn [app distinct] in D. apply andb_true_iff in D. destruct D as (Dr & D).
    apply negb_true_iff in Dr. fold (refs configs) in Dr, D.
    pose proof (existsb_eqb_false _ _ Dr) as Other.
    assert (Ready' : placements_ready configs pool = true).
    { unfold placements_ready. rewrite V, D. reflexivity. }
    destruct (PoolManager.read r pool) as [e|] eqn:R.
    2:{ destruct (IH pool Ready') as (configs' & pool' & effs & H & Each).
        exists (c :: configs'), pool'. eexists. split.
        - cbn [bind ret fst snd]. rewrite H. reflexivity.
        - intros [|i] c0 r0 e0 N E0 R0 A0.
          + injection N as <-. congruence.
          + exact (Each i c0 r0 e0 N E0 R0 A0). }
    destruct (Sprite.active (Enemy.sprite e)) eqn:A; cbn [negb].
    2:{ destruct (IH pool Ready') as (configs' & pool' & effs & H & Each).
        exists (c :: configs'), pool'. eexists. split.
        - cbn [bind ret fst snd]. rewrite H. reflexivity.
        - intros [|i] c0 r0 e0 N E0 R0 A0.
          + injection N as <-. congruence.
          + exact (Each i c0 r0 e0 N E0 R0 A0). }
    destruct (updateEnemyAggro_returns pool c playerPos r e E R Vc)
      as (c' & e' & effs1 & U).
    assert (Ready1 : placements_ready configs (PoolManager.write r (fun _ => e') pool) = true).
    { unfold placements_ready. rewrite D, (patrol_valid_write _ _ _ _ Other).
      exact V. }
    destruct (IH _ Ready1) as (configs' & pool' & effs & H & Each).
    exists (c' :: configs'), pool'. eexists. split.
    + rewrite U. cbn [bind ret fst snd]. rewrite H. reflexivity.
    + intros [|i] c0 r0 e0 N E0 R0 A0.
      * injection N as <-. rewrite E in E0. injection E0 as <-.
        rewrite R in R0. injection R0 as <-.
        exists c', e', effs1. split; [exact U|reflexivity].
      * apply (Each i c0 r0 e0 N E0); [|exact A0].
        rewrite read_write_other; [exact R0|].
        apply Other. exact (refs_In configs i c0 r0 N E0).
Qed.

Lemma startBossFight_returns (s : t) :
  exists s' effs, startBossFight s = Some (s', effs) /\ zones s' = zones s.
Proof.
  unfold startBossFight. destruct (currentBossConfig s); repeat eexists.
Qed.

(** *** The fixed tick *)

(** The keys under which the map holds a broken prop. *)
Definition brokenKeys (m : list (string * KickableObject.t)) : list string :=
  map fst (filter (fun kv => KickableObject.isBroken (snd kv)) m).

(** The third block of [update] returns when a boss fight is on, and when
    the placements are as [loadZone] sets them up. *)
Lemma updateEnemies_returns (playerPos : Vector2.t) (s : t) (zi : nat)
    (zone : GameZone) :
  currentZone s = Some zi ->
  nth_error (zones s) zi = Some zone ->
  isBossFight s = true \/ placements_ready (enemies zone) (enemyPool s) = true ->
  exists s' effs, updateEnemies playerPos s = Some (s', effs).
Proof.
  intros Z N Q. unfold updateEnemies.
  destruct (isBossFight s) eqn:F; cbn [negb]; [repeat eexists|].
  destruct Q as [Q|Ready]; [discriminate Q|].
  unfold getCurrentZone. rewrite Z, N.
  destruct (updatePlacements_each playerPos _ _ Ready)
    as (configs' & pool' & effs1 & H & _).
  rewrite H. cbn [bind fst snd]. cbv zeta.
  destruct (boss zone) as [cfg|]; [|repeat eexists].
  destruct (currentBoss _); [repeat eexists|].
  destruct (_ <=? _); [|repeat eexists].
  match goal with
  | |- context [startBossFight ?x] =>
      destruct (startBossFight_returns x) as (s2 & effs2 & S & _)
  end.
  rewrite S. repeat eexists.
Qed.

(** What the sweep of the broken props leaves of a map that was just
    stepped: the entries under the keys of no broken prop. *)
Lemma sweepObjects_stepped (tick : Tick) (s : t) :
  activeObjects (sweepObjects (updateObjects tick s))
  = map (fun kv => (fst kv, KickableObject.update 16 (now tick) (snd kv)))
        (filter (fun kv => negb (existsb (String.eqb (fst kv))
                                         (brokenKeys (activeObjects s))))
                (activeObjects s)).
Proof.
  unfold sweepObjects, updateObjects. cbn [activeObjects set_activeObjects].
  rewrite Map_delete_all_filter, filter_map_comm. f_equal.
  apply filter_ext. intros kv. cbn [fst]. f_equal. f_equal.
  unfold brokenKeys. rewrite filter_map_comm, map_map. cbn [fst snd].
  f_equal. apply filter_ext. intros kv'.
  destruct (KickableObjectFacts.update_core 16 (now tick) (snd kv')) as (_ & Br & _).
  exact Br.
Qed.

(** C6.  [update] does the same whatever its first argument: two calls
    that differ only there give the same result.  With no zone loaded it
    returns the manager as it is.  In a zone, when it returns: the props
    active afterwards are exactly the props that were active under the key
    of no broken prop, each stepped by its [update] with 16 ms, so every
    prop that was active and shares its key with no broken prop is there,
    stepped, and nothing else is; a live boss is stepped by its [update]
    with 16 ms, and stays the boss unless that step leaves it dead and
    dying.  And it does return: with no boss, when a boss fight is on or
    the placements are as [loadZone] sets them up; with a live boss, when
    moreover the step of the boss with 16 ms returns and does not leave it
    dead and dying. *)
Theorem update_ignores_deltaTime :
  forall (dt1 dt2 : Q) (playerPos : Vector2.t) (tick : Tick) (s : t),
    update dt1 playerPos tick s = update dt2 playerPos tick s
    /\ (forall (s' : t) (effs : list Effect),
           update dt1 playerPos tick s = Some (s', effs) ->
           currentZone s <> None ->
           (forall (key : string) (o' : KickableObject.t),
               In (key, o') (activeObjects s') ->
               exists o,
                 In (key, o) (activeObjects s)
                 /\ o' = KickableObject.update 16 (now tick) o)
           /\ (forall b : Boss.t,
                  currentBoss s = Some b ->
                  Sprite.active (Enemy.sprite (Boss.base b)) = true ->
                  exists b' e',
                    Boss.update 16 playerPos tick b = Some (b', e')
                    /\ ((Enemy.health (Boss.base b') <=? 0)
                        && Enemy.isDying (Boss.base b') = false ->
                        currentBoss s' = Some b'))
           /\ activeObjects s'
              = map (fun kv => (fst kv, KickableObject.update 16 (now tick) (snd kv)))
                    (filter (fun kv => negb (existsb (String.eqb (fst kv))
                                                     (brokenKeys (activeObjects s))))
                            (activeObjects s))
           /\ (forall (key : string) (o : KickableObject.t),
                  In (key, o) (activeObjects s) ->
                  (forall o2 : KickableObject.t,
                      In (key, o2) (activeObjects s) ->
                      KickableObject.isBroken o2 = false) ->
                  In (key, KickableObject.update 16 (now tick) o) (activeObjects s')))
    /\ (currentZone s = None -> update dt1 playerPos tick s = Some (s, []))
    /\ (forall (zi : nat) (zone : GameZone),
           currentZone s = Some zi ->
           nth_error (zones s) zi = Some zone ->
           isBossFight s = true
           \/ placements_ready (enemies zone) (enemyPool s) = true ->
           (currentBoss s = None ->
            exists s' effs, update dt1 playerPos tick s = Some (s', effs))
           /\ (forall (b b' : Boss.t) (e' : list Effect),
                  currentBoss s = Some b ->
                  Sprite.active (Enemy.sprite (Boss.base b)) = true ->
                  Boss.update 16 playerPos tick b = Some (b', e') ->
                  (Enemy.health (Boss.base b') <=? 0)
                  && Enemy.isDying (Boss.base b') = false ->
                  exists s' effs,
                    update dt1 playerPos tick s = Some (s', effs)
                    /\ currentBoss s' = Some b')).
Proof.
  intros dt1 dt2 playerPos tick s. split; [reflexivity|].
  split; [|split].
  - intros s' effs H Z. unfold update in H.
    destruct (currentZone s) as [zi|]; [clear Z|congruence].
    apply bind_inv in H. destruct H as (s1 & e1 & e2 & U & H & _).
    apply bind_inv in H. destruct H as (s2 & e3 & e4 & V & H & _).
    injection H as <- _.
    destruct (updateEnemies_frame _ _ _ _ V) as (O2 & B2).
    destruct (sweepEnemies_frame s2) as (O3 & B3 & _).
    assert (Exact : activeObjects (sweepObjects (sweepEnemies s2))
                    = map (fun kv => (fst kv, KickableObject.update 16 (now tick) (snd kv)))
                          (filter (fun kv => negb (existsb (String.eqb (fst kv))
                                                           (brokenKeys (activeObjects s))))
                                  (activeObjects s))).
    { rewrite <- (updateBoss_objects _ _ _ _ _ U), <- sweepObjects_stepped.
      unfold sweepObjects. cbn [activeObjects set_activeObjects].
      rewrite O3, O2. reflexivity. }
    split; [|split; [|split]].
    + intros key o' I. unfold sweepObjects in I. cbn [activeObjects set_activeObjects] in I.
      apply Map_delete_all_In in I. rewrite O3, O2 in I.
      unfold updateObjects in I. cbn [activeObjects set_activeObjects] in I.
      rewrite (updateBoss_objects _ _ _ _ _ U) in I.
      apply in_map_iff in I. destruct I as ([k o] & E & I).
      cbn [fst snd] in E. injection E as -> <-. exists o. split; [exact I|reflexivity].
    + intros b B A.
      destruct (updateBoss_steps_16 _ _ _ _ _ b U B A) as (b' & e' & S & K).
      exists b', e'. split; [exact S|]. intros D.
      unfold sweepObjects. cbn [currentBoss set_activeObjects]. rewrite B3.
      apply B2. unfold updateObjects. cbn [currentBoss set_activeObjects]. exact (K D).
    + exact Exact.
    + intros key o I Whole. rewrite Exact.
      apply (in_map (fun kv => (fst kv, KickableObject.update 16 (now tick) (snd kv)))
                    _ (key, o)).
      apply filter_In. split; [exact I|]. cbn [fst].
      apply negb_true_iff.
      destruct (existsb (String.eqb key) (brokenKeys (activeObjects s))) eqn:X;
        [|reflexivity].
      apply existsb_exists in X. destruct X as (k & Ik & E).
      apply String.eqb_eq in E. subst k. unfold brokenKeys in Ik.
      apply in_map_iff in Ik. destruct Ik as ([k' o2] & E' & I2).
      apply filter_In in I2. destruct I2 as (I2 & Br). cbn [fst snd] in E', Br.
      subst k'. rewrite (Whole o2 I2) in Br. discriminate Br.
  - intros Z. unfold update. rewrite Z. reflexivity.
  - intros zi zone Z N Q. split.
    + intros B.
      destruct (updateEnemies_returns playerPos (updateObjects tick s) zi zone Z N Q)
        as (s2 & effs2 & L).
      unfold update. rewrite Z. unfold updateBoss. rewrite B. cbn [bind ret].
      rewrite L. repeat eexists.
    + intros b b' e' B A S D.
      destruct (updateEnemies_returns playerPos
                  (updateObjects tick (set_currentBoss (Some b') s)) zi zone Z N Q)
        as (s2 & effs2 & L).
      destruct (updateEnemies_frame _ _ _ _ L) as (_ & B2).
      destruct (sweepEnemies_frame s2) as (_ & B3 & _).
      exists (sweepObjects (sweepEnemies s2)). eexists. split.
      * unfold update. rewrite Z. unfold updateBoss. rewrite B, A, S.
        cbn [bind ret fst snd]. rewrite D. cbn [bind ret fst snd]. rewrite L.
        reflexivity.
      * unfold sweepObjects. cbn [currentBoss set_activeObjects]. rewrite B3.
        apply B2. reflexivity.
Qed.


End WithRuntime.

(** [loadZone_unknown_or_locked] on a new manager and the locked zone
    [desert-outpost]. *)
Lemma loadZone_unknown_or_locked_witness :
  match find "desert-outpost" new with
  | None => True
  | Some (_, zone) => isUnlocked zone = false
  end
  /\ loadZone "desert-outpost" new
     = Some (new, [Warn "Zone desert-outpost not found or not unlocked"])
  /\ find "non-existent-zone" new = None.
Proof.
  assert (H : match find "desert-outpost" new with
              | None => True
              | Some (_, zone) => isUnlocked zone = false
              end) by reflexivity.
  split; [exact H|]. split; [|reflexivity].
  exact (loadZone_unknown_or_locked "desert-outpost" new H).
Defined.

(** The manager after [loadZone('tutorial-grove')]. *)
Definition grove : t :=
  match loadZone "tutorial-grove" new with
  | Some (s, _) => s
  | None => new
  end.

(** The state of the first placement of the first zone after one [update]
    call for each player position of the list. *)
Definition firstPlacementAfter (positions : list Vector2.t) : option EnemyState :=
  match forEach (fun playerPos => update 16 playerPos (mkTick 5000 0 0 0 0))
                positions grove with
  | Some (s, _) =>
      match nth_error (zones s) 0 with
      | Some zone => option_map state (nth_error (enemies zone) 0)
      | None => None
      end
  | None => None
  end.

(** The first enemy of the grove stands at (300, 200) with aggro radius
    100.  It aggroes when the player is on it, stays aggroed while the
    player moves about in the band from 100 to 150, and gives up one unit
    beyond. *)
Example aggro_band_oscillation :
  firstPlacementAfter [] = Some STATIONARY
  /\ firstPlacementAfter [Vector2.mk 401 200] = Some STATIONARY
  /\ firstPlacementAfter [Vector2.mk 400 200] = Some AGGROED
  /\ firstPlacementAfter [Vector2.mk 300 200; Vector2.mk 420 200;
                          Vector2.mk 301 200; Vector2.mk 450 200;
                          Vector2.mk 410 200] = Some AGGROED
  /\ firstPlacementAfter [Vector2.mk 300 200; Vector2.mk 420 200;
                          Vector2.mk 451 200] = Some STATIONARY.
Proof. repeat split; vm_compute; reflexivity. Qed.

(** A zone of the catalog, unlocked and loaded into a new manager. *)
Definition loaded (zoneId : string) : t :=
  match s <- unlockZone zoneId new ;; loadZone zoneId s with
  | Some (s, _) => s
  | None => new
  end.

(** [loadZone] leaves every shipped zone ready for the aggro loop. *)
Example shipped_zones_ready :
  forallb (fun zoneId =>
             match getCurrentZone (loaded zoneId) with
             | Some zone =>
                 placements_ready (enemies zone) (enemyPool (loaded zoneId))
             | None => false
             end)
          ["tutorial-grove"; "desert-outpost"; "arctic-lab"]%string
  = true.
Proof. vm_compute. reflexivity. Qed.

(** The scenarios of the tests: the grove loads 5 enemies and 3 props; the
    boss fight starts when the player stands on the boss position and not
    at (100, 100). *)
Example grove_scenarios :
  List.length (getActiveEnemies grove) = 5%nat
  /\ List.length (getActiveObjects grove) = 3%nat
  /\ option_map (fun r => isBossActive (fst r))
       (update 16 (Vector2.mk 900 600) (mkTick 5000 0 0 0 0) grove) = Some true
  /\ option_map (fun r => isBossActive (fst r))
       (update 16 (Vector2.mk 100 100) (mkTick 5000 0 0 0 0) grove) = Some false.
Proof. repeat split; vm_compute; reflexivity. Qed.




End EncounterSystemFacts.

(** ** Kickable props: the life of a prop *)

Module KickableObjectLifecycle.
Import KickableObject.
Import KickableObjectFacts.

(** Every call but [reset]. *)
Definition no_reset (op : Op) : bool :=
  match op with
  | OpReset => false
  | _ => true
  end.

(** A call that does not heal: the amount of a [takeDamage] is not negative. *)
Definition no_healing (op : Op) : bool :=
  match op with
  | OpTakeDamage amount => 0 <=? amount
  | _ => true
  end.

(** A prop that is not flying has no velocity. *)
Definition idle_at_rest (p : t) : Prop :=
  isFlying p = false ->
  Vector2.x (velocity p) == 0 /\ Vector2.y (velocity p) == 0.

Section WithRuntime.
Context {J : JsRuntime}.

(** *** [update], step by step *)

(** The sprite moves and turns. *)
Definition moved (dt : Q) (p : t) : t :=
  let s := sprite p in
  let s := Sprite.set_x (Sprite.x s + Vector2.x (velocity p) * dt / 1000) s in
  let s := Sprite.set_y (Sprite.y s + Vector2.y (velocity p) * dt / 1000) s in
  let s := Sprite.set_rotation (Sprite.rotation s + rotationSpeed p) s in
  set_sprite s p.

(** A trail point is added every 80 ms, the oldest of seven being dropped. *)
Definition trailed (clock : Q) (p : t) : t :=
  if 80 <? clock - lastTrailTime p then
    let pts := trailPoints p
               ++ [mkTrail (Sprite.x (sprite p)) (Sprite.y (sprite p)) 0.6] in
    let q := set_lastTrailTime clock p in
    if (6 <? List.length pts)%nat then set_trailPoints (tl pts) q
    else set_trailPoints pts q
  else p.

(** The velocity decays. *)
Definition decayed (p : t) : t :=
  set_velocity (Vector2.mk (Vector2.x (velocity p) * bounceDecay p)
                           (Vector2.y (velocity p) * bounceDecay p)) p.

(** The prop lands. *)
Definition landed (p : t) : t :=
  set_trailPoints []
    (set_rotationSpeed 0
       (set_velocity (Vector2.set 0 0 (velocity p)) (set_isFlying false p))).

(** The flight of one [update]. *)
Definition flight (dt clock : Q) (p : t) : t :=
  let q := decayed (trailed clock (moved dt p)) in
  if speed q <? 20 then landed q else q.

Lemma update_unfold (dt clock : Q) (p : t) :
  update dt clock p
  = if isBroken p then p
    else updateTrail (if isFlying p then flight dt clock p else p).
Proof.
  unfold update, flight, landed, decayed, trailed, moved. cbv zeta.
  destruct (isBroken p); [reflexivity|]. destruct (isFlying p); [|reflexivity].
  destruct (80 <? _); [|reflexivity].
  destruct (6 <? _)%nat; reflexivity.
Qed.

Lemma trailed_cases (clock : Q) (p : t) :
  exists (pts : list TrailPoint) (time : Q),
    trailed clock p = set_trailPoints pts (set_lastTrailTime time p)
    /\ ((List.length (trailPoints p) <= 6)%nat -> (List.length pts <= 6)%nat).
Proof.
  unfold trailed. destruct (80 <? _).
  - cbv zeta. destruct (6 <? _)%nat eqn:L; eexists; eexists; (split; [reflexivity|]).
    + intros H. rewrite length_tl, length_app. cbn [List.length]. lia.
    + intros _. apply Nat.ltb_ge in L. exact L.
  - exists (trailPoints p), (lastTrailTime p). split; [|auto].
    destruct p; reflexivity.
Qed.

(** *** A broken prop *)

Lemma step_broken (p : t) (op : Op) :
  isBroken p = true -> no_reset op = true -> step p op = p.
Proof.
  intros B N. destruct op as [fx fy kf rnd| |amount|dt clock|]; cbn [step].
  - unfold applyKick. rewrite B. reflexivity.
  - unfold hitEnemy. rewrite B. reflexivity.
  - unfold takeDamage. rewrite B. reflexivity.
  - unfold update. rewrite B. reflexivity.
  - discriminate N.
Qed.

(** X1.  Once broken, a prop is inert until it is reset: whatever
    sequence of [applyKick], [hitEnemy], [takeDamage] and [update] calls
    follows, the prop is exactly as it was, and [hitEnemy] returns 0 and
    leaves the enemy alone. *)
Theorem broken_prop_is_inert :
  forall (E : Type) (k : option (Q -> Q -> E -> E)) (e : E) (ops : list Op) (p : t),
    isBroken p = true ->
    forallb no_reset ops = true ->
    run ops p = p /\ hitEnemy k e p = (p, e, 0).
Proof.
  intros E k e ops p B N. split.
  - induction ops as [|op ops IH]; [reflexivity|].
    cbn [forallb] in N. apply andb_true_iff in N. destruct N as (N1 & N2).
    unfold run. cbn [fold_left]. rewrite (step_broken p op B N1).
    exact (IH N2).
  - unfold hitEnemy. rewrite B. reflexivity.
Qed.

(** *** Health *)

Lemma breakObject_health (p : t) :
  health (breakObject p) = health p /\ maxHealth (breakObject p) = maxHealth p.
Proof. unfold breakObject. split_ifs; split; reflexivity. Qed.

Lemma takeDamage_health (amount : Q) (p : t) :
  health (takeDamage amount p)
  = (if isBroken p then health p else health p - amount)
  /\ maxHealth (takeDamage amount p) = maxHealth p.
Proof.
  unfold takeDamage. destruct (isBroken p); [split; reflexivity|].
  cbv zeta. destruct (_ <=? 0); [|split; reflexivity].
  destruct (breakObject_health (set_health (health p - amount) p)) as (H & M).
  rewrite H, M. split; reflexivity.
Qed.

Lemma hitEnemy_health {E : Type} (k : option (Q -> Q -> E -> E)) (e : E) (p : t) :
  health (fst (fst (hitEnemy k e p)))
  = (if isBroken p || negb (isFlying p) then health p else health p - 5)
  /\ maxHealth (fst (fst (hitEnemy k e p))) = maxHealth p.
Proof.
  unfold hitEnemy. destruct (isBroken p) eqn:B; [split; reflexivity|].
  destruct (isFlying p); cbn [orb negb]; [|split; reflexivity].
  cbv zeta. destruct (takeDamage_health 5 p) as (H & M). rewrite B in H.
  destruct (speed (takeDamage 5 p) <? 50); split; first [exact H|exact M].
Qed.

Lemma updateTrail_health (p : t) :
  health (updateTrail p) = health p /\ maxHealth (updateTrail p) = maxHealth p.
Proof. unfold updateTrail. split_ifs; split; reflexivity. Qed.

Lemma flight_health (dt clock : Q) (p : t) :
  health (flight dt clock p) = health p
  /\ maxHealth (flight dt clock p) = maxHealth p.
Proof.
  unfold flight. cbv zeta.
  destruct (trailed_cases clock (moved dt p)) as (pts & time & -> & _).
  destruct (speed _ <? 20); split; reflexivity.
Qed.

Lemma update_health (dt clock : Q) (p : t) :
  health (update dt clock p) = health p
  /\ maxHealth (update dt clock p) = maxHealth p.
Proof.
  rewrite update_unfold. destruct (isBroken p); [split; reflexivity|].
  match goal with
  | |- context [updateTrail ?q] =>
      destruct (updateTrail_health q) as (H & M); rewrite H, M
  end.
  destruct (isFlying p); [apply flight_health|split; reflexivity].
Qed.

(** A call other than [reset] that does not heal never raises the health,
    and no call changes the maximum. *)
Lemma step_health (p : t) (op : Op) :
  no_healing op = true ->
  maxHealth (step p op) = maxHealth p
  /\ (no_reset op = true -> health (step p op) <= health p)
  /\ (health p <= maxHealth p -> health (step p op) <= maxHealth p).
Proof.
  intros N. destruct op as [fx fy kf rnd| |amount|dt clock|]; cbn [step].
  - assert (K : health (applyKick fx fy kf rnd p) = health p
                /\ maxHealth (applyKick fx fy kf rnd p) = maxHealth p).
    { unfold applyKick. destruct (isBroken p); split; reflexivity. }
    destruct K as (H & M). rewrite H, M.
    split; [reflexivity|]. split; intros; lra.
  - destruct (hitEnemy_health (E := unit) None tt p) as (H & M). rewrite H, M.
    split; [reflexivity|]. destruct (isBroken p || negb (isFlying p)); split; intros; lra.
  - destruct (takeDamage_health amount p) as (H & M). rewrite H, M.
    cbn [no_healing] in N. apply Qle_bool_iff in N.
    split; [reflexivity|]. destruct (isBroken p); split; intros; lra.
  - destruct (update_health dt clock p) as (H & M). rewrite H, M.
    split; [reflexivity|]. split; intros; lra.
  - split; [reflexivity|]. split; [discriminate|].
    intros _. change (maxHealth p <= maxHealth p). lra.
Qed.

(** X2.  Health stays at or below the maximum, which is the health
    constant of the prop's type: for a prop built by the constructor and
    put through any calls whose damage amounts are not negative.  And
    only [reset] raises the health: any other such call leaves it where
    it was or lower. *)
Theorem health_bounded_by_max :
  forall (x y : Q) (objectType : ObjectType) (ops : list Op),
    forallb no_healing ops = true ->
    let p := run ops (new x y objectType) in
    maxHealth p = cfg_health (OBJECT_CONFIGS objectType)
    /\ health p <= maxHealth p
    /\ (forall op : Op,
           no_healing op = true -> no_reset op = true ->
           health (step p op) <= health p).
Proof.
  intros x y objectType ops N p.
  assert (K : maxHealth p = cfg_health (OBJECT_CONFIGS objectType)
              /\ health p <= maxHealth p).
  { subst p.
    assert (G : forall q : t,
               maxHealth q = cfg_health (OBJECT_CONFIGS objectType)
               /\ health q <= maxHealth q ->
               maxHealth (run ops q) = cfg_health (OBJECT_CONFIGS objectType)
               /\ health (run ops q) <= maxHealth (run ops q)).
    { induction ops as [|op ops IH]; intros q Hq; [exact Hq|].
      cbn [forallb] in N. apply andb_true_iff in N. destruct N as (N1 & N2).
      unfold run. cbn [fold_left]. apply (IH N2).
      destruct (step_health q op N1) as (M & _ & B). destruct Hq as (Mq & Bq).
      split; [congruence|]. rewrite M. exact (B Bq). }
    apply G. split; [reflexivity|].
    change (cfg_health (OBJECT_CONFIGS objectType)
            <= cfg_health (OBJECT_CONFIGS objectType)). lra. }
  destruct K as (M & B). split; [exact M|]. split; [exact B|].
  intros op N1 N2. destruct (step_health p op N1) as (_ & D & _). exact (D N2).
Qed.

(** *** Flight *)

Lemma breakObject_idle (p : t) : idle_at_rest p -> idle_at_rest (breakObject p).
Proof.
  unfold breakObject. intros H. destruct (isBroken p || breakEffectPlayed p);
    [exact H|].
  intros _. split; exact (Qeq_refl 0).
Qed.

Lemma takeDamage_idle (amount : Q) (p : t) :
  idle_at_rest p -> idle_at_rest (takeDamage amount p).
Proof.
  intros H. unfold takeDamage. destruct (isBroken p); [exact H|].
  cbv zeta. destruct (_ <=? 0); [apply breakObject_idle|]; exact H.
Qed.

Lemma hitEnemy_idle {E : Type} (k : option (Q -> Q -> E -> E)) (e : E) (p : t) :
  idle_at_rest p -> idle_at_rest (fst (fst (hitEnemy k e p))).
Proof.
  intros H. unfold hitEnemy.
  destruct (isBroken p || negb (isFlying p)); [exact H|].
  cbv zeta.
  pose proof (takeDamage_idle 5 p H) as R.
  set (p1 := takeDamage 5 p) in *.
  destruct (speed p1 <? 50).
  - intros _. split; exact (Qeq_refl 0).
  - intros F. change (isFlying p1 = false) in F.
    destruct (R F) as (X & Y).
    change (Vector2.x (velocity p1) * 0.7 == 0 /\ Vector2.y (velocity p1) * 0.7 == 0).
    split; lra.
Qed.

Lemma updateTrail_flight (p : t) :
  isFlying (updateTrail p) = isFlying p /\ velocity (updateTrail p) = velocity p.
Proof. unfold updateTrail. split_ifs; split; reflexivity. Qed.

Lemma flight_flying (dt clock : Q) (p : t) :
  let q := decayed (trailed clock (moved dt p)) in
  isFlying q = isFlying p
  /\ flight dt clock p = (if speed q <? 20 then landed q else q).
Proof.
  cbv zeta. split; [|reflexivity].
  destruct (trailed_cases clock (moved dt p)) as (pts & time & -> & _).
  reflexivity.
Qed.

Lemma update_idle (dt clock : Q) (p : t) :
  idle_at_rest p -> idle_at_rest (update dt clock p).
Proof.
  intros H. rewrite update_unfold. destruct (isBroken p); [exact H|].
  unfold idle_at_rest.
  match goal with
  | |- context [updateTrail ?q] =>
      destruct (updateTrail_flight q) as (F & V); rewrite F, V; clear F V
  end.
  destruct (isFlying p) eqn:Fp; [|exact H].
  destruct (flight_flying dt clock p) as (F & ->).
  destruct (speed _ <? 20).
  - intros _. split; exact (Qeq_refl 0).
  - intros K. congruence.
Qed.

Lemma step_idle (p : t) (op : Op) : idle_at_rest p -> idle_at_rest (step p op).
Proof.
  intros H. destruct op as [fx fy kf rnd| |amount|dt clock|]; cbn [step].
  - unfold applyKick. destruct (isBroken p); [exact H|].
    intros K. discriminate K.
  - apply hitEnemy_idle, H.
  - apply takeDamage_idle, H.
  - apply update_idle, H.
  - intros _. split; exact (Qeq_refl 0).
Qed.

(** X3.  A prop that is not flying has velocity (0, 0), be it idle, landed
    or broken: for every prop built by the constructor and put through
    any calls.  So the props that move are those [isFlying] tells. *)
Theorem idle_prop_has_no_velocity :
  forall (x y : Q) (objectType : ObjectType) (ops : list Op),
    idle_at_rest (run ops (new x y objectType)).
Proof.
  intros x y objectType ops.
  assert (G : forall q : t, idle_at_rest q -> idle_at_rest (run ops q)).
  { induction ops as [|op ops IH]; intros q Hq; [exact Hq|].
    unfold run. cbn [fold_left]. apply IH, step_idle, Hq. }
  apply G. intros _. split; exact (Qeq_refl 0).
Qed.

(** X4.  [update] never leaves a prop flying below the landing speed: a
    prop that is not broken and still flies when [update] returns has a
    speed of 20 or more, measured after the decay of that call. *)
Theorem update_lands_slow_prop :
  forall (dt clock : Q) (p : t),
    isBroken p = false ->
    isFlying (update dt clock p) = true ->
    isFlying p = true /\ 20 <= speed (update dt clock p).
Proof.
  intros dt clock p B. rewrite update_unfold, B. unfold speed.
  match goal with
  | |- context [updateTrail ?q] =>
      destruct (updateTrail_flight q) as (F & V); rewrite F, V; clear F V
  end.
  destruct (isFlying p) eqn:Fp; [|intros K; cbv iota in K; congruence].
  destruct (flight_flying dt clock p) as (F & ->).
  match goal with
  | |- context [if speed ?q <? 20 then _ else _] =>
      destruct (speed q <? 20) eqn:S
  end.
  - intros K. discriminate K.
  - intros _. split; [reflexivity|]. apply Qltb_ge in S. exact S.
Qed.

(** *** The trail *)

Lemma updateTrail_trail (p : t) :
  (List.length (trailPoints (updateTrail p)) <= List.length (trailPoints p))%nat.
Proof.
  unfold updateTrail. destruct (_ && _); [|apply Nat.le_refl].
  cbn [trailPoints set_trailPoints set_trailVisible].
  eapply Nat.le_trans; [apply filter_length_le|].
  rewrite length_map. apply Nat.le_refl.
Qed.

Lemma flight_trail (dt clock : Q) (p : t) :
  (List.length (trailPoints p) <= 6)%nat ->
  (List.length (trailPoints (flight dt clock p)) <= 6)%nat.
Proof.
  intros H. unfold flight. cbv zeta.
  destruct (trailed_cases clock (moved dt p)) as (pts & time & -> & L).
  specialize (L H).
  destruct (speed _ <? 20); [cbn; lia|exact L].
Qed.

Lemma update_trail (dt clock : Q) (p : t) :
  (List.length (trailPoints p) <= 6)%nat ->
  (List.length (trailPoints (update dt clock p)) <= 6)%nat.
Proof.
  intros H. rewrite update_unfold. destruct (isBroken p); [exact H|].
  eapply Nat.le_trans; [apply updateTrail_trail|].
  destruct (isFlying p); [apply flight_trail|]; exact H.
Qed.

Lemma step_trail (p : t) (op : Op) :
  (List.length (trailPoints p) <= 6)%nat ->
  (List.length (trailPoints (step p op)) <= 6)%nat.
Proof.
  intros H. destruct op as [fx fy kf rnd| |amount|dt clock|]; cbn [step].
  - unfold applyKick. destruct (isBroken p); exact H.
  - unfold hitEnemy. destruct (isBroken p || negb (isFlying p)); [exact H|].
    cbv zeta.
    assert (T : trailPoints (takeDamage 5 p) = trailPoints p).
    { unfold takeDamage. destruct (isBroken p); [reflexivity|].
      cbv zeta. destruct (_ <=? 0); [|reflexivity].
      unfold breakObject. split_ifs; reflexivity. }
    destruct (speed (takeDamage 5 p) <? 50);
      cbn [fst trailPoints set_velocity set_isFlying]; rewrite T; exact H.
  - unfold takeDamage. destruct (isBroken p); [exact H|].
    cbv zeta. destruct (_ <=? 0); [|exact H].
    unfold breakObject. split_ifs; exact H.
  - apply update_trail, H.
  - cbn. lia.
Qed.

(** X5.  The trail of a prop holds six points at most, whatever calls
    are made and whatever the clock says. *)
Theorem trail_holds_six_points_at_most :
  forall (x y : Q) (objectType : ObjectType) (ops : list Op),
    (List.length (trailPoints (run ops (new x y objectType))) <= 6)%nat.
Proof.
  intros x y objectType ops.
  assert (G : forall q : t,
             (List.length (trailPoints q) <= 6)%nat ->
             (List.length (trailPoints (run ops q)) <= 6)%nat).
  { induction ops as [|op ops IH]; intros q Hq; [exact Hq|].
    unfold run. cbn [fold_left]. apply IH, step_trail, Hq. }
  apply G. cbn. lia.
Qed.

(** *** Reset *)

(** The fields no call changes. *)
Definition same_build (p q : t) : Prop :=
  maxHealth q = maxHealth p
  /\ config q = config p
  /\ hitboxRadius q = hitboxRadius p
  /\ weight q = weight p
  /\ bounceDecay q = bounceDecay p.

Lemma same_build_refl (p : t) : same_build p p.
Proof. repeat split. Qed.

Lemma same_build_trans (p q r : t) : same_build p q -> same_build q r -> same_build p r.
Proof.
  intros (A & B & C & D & F) (A' & B' & C' & D' & F'). repeat split; congruence.
Qed.

Lemma breakObject_build (p : t) : same_build p (breakObject p).
Proof. unfold breakObject. split_ifs; repeat split. Qed.

Lemma takeDamage_build (amount : Q) (p : t) : same_build p (takeDamage amount p).
Proof.
  unfold takeDamage. destruct (isBroken p); [apply same_build_refl|].
  cbv zeta. destruct (_ <=? 0); [|repeat split].
  exact (breakObject_build (set_health (health p - amount) p)).
Qed.

Lemma updateTrail_build (p : t) : same_build p (updateTrail p).
Proof. unfold updateTrail. split_ifs; repeat split. Qed.

Lemma step_build (p : t) (op : Op) : same_build p (step p op).
Proof.
  destruct op as [fx fy kf rnd| |amount|dt clock|]; cbn [step].
  - unfold applyKick. destruct (isBroken p); repeat split.
  - unfold hitEnemy. destruct (isBroken p || negb (isFlying p));
      [apply same_build_refl|].
    cbv zeta. destruct (speed (takeDamage 5 p) <? 50);
      exact (takeDamage_build 5 p).
  - apply takeDamage_build.
  - rewrite update_unfold. destruct (isBroken p); [apply same_build_refl|].
    eapply same_build_trans; [|apply updateTrail_build].
    destruct (isFlying p); [|apply same_build_refl].
    unfold flight. cbv zeta.
    destruct (trailed_cases clock (moved dt p)) as (pts & time & -> & _).
    destruct (speed _ <? 20); repeat split.
  - repeat split.
Qed.

Lemma run_build (ops : list Op) (p : t) : same_build p (run ops p).
Proof.
  revert p. induction ops as [|op ops IH]; intros p; [apply same_build_refl|].
  unfold run. cbn [fold_left].
  eapply same_build_trans; [apply step_build|apply IH].
Qed.

(** X6.  [reset] takes a prop back to the state its constructor gave it,
    whatever happened to it since: full health, at rest, not flying, not
    broken, the break latch open, no trail.  What remains of its past is
    the place of the sprite, now hidden and inactive, and the time of the
    last trail point.  So a prop that broke can break again after a
    reset. *)
Theorem reset_restores_the_built_prop :
  forall (x y : Q) (objectType : ObjectType) (ops : list Op),
    let p := run ops (new x y objectType) in
    reset p
    = set_lastTrailTime (lastTrailTime p)
        (set_sprite (Sprite.mk (Sprite.x (sprite p)) (Sprite.y (sprite p)) 0
                               false false (Sprite.tint (sprite p)))
                    (new x y objectType))
    /\ isBroken (takeDamage (cfg_health (OBJECT_CONFIGS objectType)) (reset p)) = true.
Proof.
  intros x y objectType ops p.
  destruct (run_build ops (new x y objectType)) as (M & C & H & W & D).
  fold p in M, C, H, W, D.
  assert (R : reset p
              = set_lastTrailTime (lastTrailTime p)
                  (set_sprite (Sprite.mk (Sprite.x (sprite p)) (Sprite.y (sprite p)) 0
                                         false false (Sprite.tint (sprite p)))
                              (new x y objectType))).
  { clearbody p. destruct p as [sp v h mh cf fl br hr w bd rs tp lt tv bp].
    cbn in M, C, H, W, D. subst mh cf hr w bd. reflexivity. }
  split; [exact R|]. rewrite R.
  apply takeDamage_lethal; try reflexivity.
  change (cfg_health (OBJECT_CONFIGS objectType)
          <= cfg_health (OBJECT_CONFIGS objectType)). lra.
Qed.

End WithRuntime.

(** A barrel that 30 damage broke. *)
Definition brokenBarrel : t := takeDamage 30 (new 100 100 BARREL).

(** [broken_prop_is_inert] on the broken barrel: kicked, hit, thrown
    against an enemy and updated. *)
Lemma broken_prop_is_inert_witness :
  isBroken brokenBarrel = true
  /\ forallb no_reset
       [OpApplyKick 100 0 100 0.5; OpTakeDamage 10; OpHitEnemy; OpUpdate 16 1000]
     = true
  /\ run [OpApplyKick 100 0 100 0.5; OpTakeDamage 10; OpHitEnemy; OpUpdate 16 1000]
         brokenBarrel = brokenBarrel
  /\ hitEnemy (E := unit) None tt brokenBarrel = (brokenBarrel, tt, 0).
Proof.
  assert (B : isBroken brokenBarrel = true) by reflexivity.
  assert (N : forallb no_reset
                [OpApplyKick 100 0 100 0.5; OpTakeDamage 10; OpHitEnemy; OpUpdate 16 1000]
              = true) by reflexivity.
  split; [exact B|]. split; [exact N|].
  exact (broken_prop_is_inert unit None tt
           [OpApplyKick 100 0 100 0.5; OpTakeDamage 10; OpHitEnemy; OpUpdate 16 1000]
           brokenBarrel B N).
Defined.

(** A box that is kicked, hits an enemy, is reset and damaged. *)
Definition usedBox : t :=
  run [OpApplyKick 300 0 100 0.5; OpHitEnemy; OpReset; OpTakeDamage 4] (new 0 0 BOX).

(** [health_bounded_by_max] on that box. *)
Lemma health_bounded_by_max_witness :
  forallb no_healing [OpApplyKick 300 0 100 0.5; OpHitEnemy; OpReset; OpTakeDamage 4]
  = true
  /\ maxHealth usedBox = 15
  /\ health usedBox <= maxHealth usedBox.
Proof.
  assert (N : forallb no_healing
                [OpApplyKick 300 0 100 0.5; OpHitEnemy; OpReset; OpTakeDamage 4]
              = true) by reflexivity.
  split; [exact N|].
  destruct (health_bounded_by_max 0 0 BOX
              [OpApplyKick 300 0 100 0.5; OpHitEnemy; OpReset; OpTakeDamage 4] N)
    as (M & B & _).
  split; [exact M|exact B].
Defined.

(** A barrel kicked to a speed of 600. *)
Definition kickedBarrel : t := applyKick 300 0 100 0.5 (new 0 0 BARREL).

(** [update_lands_slow_prop] on that barrel. *)
Lemma update_lands_slow_prop_witness :
  isBroken kickedBarrel = false
  /\ isFlying (update 16 1000 kickedBarrel) = true
  /\ 20 <= speed (update 16 1000 kickedBarrel).
Proof.
  assert (B : isBroken kickedBarrel = false) by reflexivity.
  assert (F : isFlying (update 16 1000 kickedBarrel) = true) by reflexivity.
  split; [exact B|]. split; [exact F|].
  apply (update_lands_slow_prop 16 1000 kickedBarrel B F).
Defined.

End KickableObjectLifecycle.

(** ** The boss: phases, attacks and charges *)

Module BossCombat.
Import Boss.
Import BossFacts.

Section WithRuntime.
Context {J : JsRuntime} {EC : EnemyClass}.

(** The fraction of health that [checkPhaseTransition] compares. *)
Definition healthPercent (b : t) : Q :=
  Enemy.health (base b) / Enemy.maxHealth (base b).

(** The phase check has nothing to do: the boss is in its last phase, or
    its health is above the threshold of the next one. *)
Definition phase_settled (b : t) : Prop :=
  currentPhase b = (List.length (phases (bossConfig b)) - 1)%nat
  \/ exists next : BossPhase,
       nth_error (phases (bossConfig b)) (S (currentPhase b)) = Some next
       /\ healthThreshold next < healthPercent b.

(** [b'] has the health, the configuration and the charge of [b]. *)
Definition same_health (b b' : t) : Prop :=
  Enemy.health (base b') = Enemy.health (base b)
  /\ Enemy.maxHealth (base b') = Enemy.maxHealth (base b)
  /\ bossConfig b' = bossConfig b.

(** [b'] has the attack clock, the phase and the configuration of [b]. *)
Definition same_attack_clock (b b' : t) : Prop :=
  lastAttackTime b' = lastAttackTime b
  /\ attackCooldown b' = attackCooldown b
  /\ currentPhase b' = currentPhase b
  /\ bossConfig b' = bossConfig b.

(** *** The phase check catches up with the health *)

(** One check: nothing to do, or one phase further with the same health. *)
Lemma checkPhaseTransition_cases (tick : Tick) (b : t) :
  phase_in_range b ->
  (checkPhaseTransition tick b = Some (b, []) /\ phase_settled b)
  \/ exists (b' : t) (e : list Effect) (next : BossPhase),
       checkPhaseTransition tick b = Some (b', e)
       /\ nth_error (phases (bossConfig b)) (S (currentPhase b)) = Some next
       /\ healthPercent b <= healthThreshold next
       /\ currentPhase b' = S (currentPhase b)
       /\ same_health b b'
       /\ lastAttackTime b' = now tick - attackCooldown b
       /\ (attackCooldown b' = attackCooldown b
           \/ attackCooldown b' = attackCooldown b * 0.5)
       /\ isCharging b' = isCharging b
       /\ Enemy.isDying (base b') = Enemy.isDying (base b).
Proof.
  intros R. unfold phase_in_range in R. unfold checkPhaseTransition.
  destruct (currentPhase b <? List.length (phases (bossConfig b)) - 1)%nat eqn:C.
  - apply Nat.ltb_lt in C. rewrite Nat.add_1_r.
    destruct (nth_error (phases (bossConfig b)) (S (currentPhase b))) as [next|] eqn:N;
      [|apply nth_error_None in N; lia].
    fold (healthPercent b).
    destruct (healthPercent b <=? healthThreshold next) eqn:H.
    + right. apply Qle_bool_iff in H.
      unfold enterNextPhase.
      cbn [currentPhase set_currentPhase set_lastAttackTime bossConfig].
      rewrite N.
      destruct (movementPattern next =? "berserker")%string;
        [|destruct (movementPattern next =? "frenzy")%string];
        eexists; eexists; exists next; (split; [reflexivity|]);
        (split; [reflexivity|]); (split; [exact H|]);
        (split; [reflexivity|]); (split; [repeat split|]);
        (split; [reflexivity|]); (split; [|split; reflexivity]);
        cbn [attackCooldown set_attackCooldown set_base set_lastAttackTime
             set_currentPhase].
      * left. reflexivity.
      * right. reflexivity.
      * left. reflexivity.
    + left. split; [reflexivity|]. right. exists next. split; [exact N|].
      apply Qleb_gt. exact H.
  - left. split; [reflexivity|]. left. apply Nat.ltb_ge in C. lia.
Qed.

Lemma idle_checks (tick : Tick) (b : t) (n : nat) :
  checkPhaseTransition tick b = Some (b, []) ->
  run (repeat (StepCheckPhase tick) n) b = Some (b, []).
Proof.
  intros H. induction n as [|n IH]; [reflexivity|].
  cbn [repeat]. unfold run. cbn [forEach step].
  exact (bind_Some _ _ b [] b [] H IH).
Qed.

(** X7.  The phase index catches up with the health: when health fell
    past several thresholds at once, each check moves one phase on, and
    after as many checks as there are phases left the check has nothing
    more to do, the boss being in its last phase or above the threshold
    of the next; the health and the configuration are as they were.
    (For a boss of positive maximum health, as [spawn] makes it.) *)
Theorem phase_check_catches_up :
  forall (tick : Tick) (b : t),
    phase_in_range b ->
    0 < Enemy.maxHealth (base b) ->
    exists (b' : t) (effs : list Effect),
      run (repeat (StepCheckPhase tick)
                  (List.length (phases (bossConfig b)) - 1 - currentPhase b)) b
      = Some (b', effs)
      /\ same_health b b'
      /\ (currentPhase b <= currentPhase b')%nat
      /\ phase_in_range b'
      /\ phase_settled b'
      /\ checkPhaseTransition tick b' = Some (b', []).
Proof.
  intros tick b R0 _. revert R0.
  remember (List.length (phases (bossConfig b)) - 1 - currentPhase b)%nat as n eqn:E.
  revert b E. induction n as [|n IH]; intros b E R.
  - destruct (checkPhaseTransition_cases tick b R) as [(H & St)|X].
    + exists b, []. repeat split; auto.
    + destruct X as (b' & e & next & _ & N & _).
      assert (S (currentPhase b) < List.length (phases (bossConfig b)))%nat
        by (apply nth_error_Some; congruence).
      lia.
  - destruct (checkPhaseTransition_cases tick b R) as [(H & St)|X].
    + exists b, []. split; [exact (idle_checks tick b (S n) H)|].
      repeat split; auto.
    + destruct X as (b1 & e1 & next & H & N & _ & P & (Hh & Hm & Hc) & _).
      assert (R1 : phase_in_range b1).
      { unfold phase_in_range. rewrite P, Hc.
        apply nth_error_Some. congruence. }
      assert (E1 : n = (List.length (phases (bossConfig b1)) - 1 - currentPhase b1)%nat)
        by (rewrite P, Hc; lia).
      destruct (IH b1 E1 R1) as (b' & effs & Run & (Hh' & Hm' & Hc') & Le & R' & S' & I').
      exists b', (e1 ++ effs). split.
      * cbn [repeat]. unfold run. cbn [forEach step].
        exact (bind_Some _ _ b1 e1 b' effs H Run).
      * split; [repeat split; congruence|]. split; [lia|].
        split; [exact R'|]. split; [exact S'|exact I'].
Qed.

(** *** Attacks *)

Lemma executeRoutine_clock (attack : BossAttack) (playerPos : Vector2.t) (b : t) :
  exists b' e,
    executeRoutine attack playerPos b = Some (b', e) /\ same_attack_clock b b'.
Proof.
  destruct attack; cbn [executeRoutine]; unfold executeChargeAttack;
    eexists; eexists; (split; [reflexivity|repeat split]).
Qed.

(** [executeAttack] returns, logs the attack first, and leaves the attack
    clock alone. *)
Lemma executeAttack_clock (attack : string) (playerPos : Vector2.t) (b : t) :
  exists b' e,
    executeAttack attack playerPos b
    = Some (b', Log ("Boss executing attack: " ++ attack)%string :: e)
    /\ same_attack_clock b b'.
Proof.
  unfold executeAttack. destruct (attackCase attack) as [routine|].
  - destruct (executeRoutine_clock routine playerPos b) as (b' & e & H & S).
    exists b', e. split; [|exact S].
    apply (bind_Some _ _ tt [Log ("Boss executing attack: " ++ attack)%string]);
      [reflexivity|exact H].
  - exists b, []. split; [reflexivity|repeat split].
Qed.

(** What a due attack does. *)
Lemma updateBossAttacks_due (dt : Q) (playerPos : Vector2.t) (tick : Tick) (b : t)
    (ph : BossPhase) :
  attackCooldown b <= now tick - lastAttackTime b ->
  nth_error (phases (bossConfig b)) (currentPhase b) = Some ph ->
  abilities ph <> [] ->
  exists b' e,
    updateBossAttacks dt playerPos tick b
    = Some (b', Log ("Boss executing attack: "
                     ++ pickAttack (randomAttack tick) (abilities ph))%string :: e)
    /\ lastAttackTime b' = now tick
    /\ attackCooldown b' = attackCooldown b
    /\ currentPhase b' = currentPhase b
    /\ bossConfig b' = bossConfig b.
Proof.
  intros D N A. rewrite (updateBossAttacks_fires dt playerPos tick b ph D N A).
  destruct (executeAttack_clock (pickAttack (randomAttack tick) (abilities ph))
              playerPos b) as (b1 & e & H & _ & C & P & G).
  exists (set_lastAttackTime (now tick) b1), e. split.
  - rewrite H. cbn [bind ret]. rewrite app_nil_r. reflexivity.
  - repeat split; assumption.
Qed.

(** X8.  Attacks are spaced by the cooldown: when an attack is due (the
    cooldown has passed and the phase has abilities), [updateBossAttacks]
    runs it and records the clock, and until [attackCooldown] has passed
    on the clock again every further call does nothing at all. *)
Theorem attacks_are_spaced_by_the_cooldown :
  forall (dt : Q) (playerPos : Vector2.t) (tick : Tick) (b : t) (ph : BossPhase),
    attackCooldown b <= now tick - lastAttackTime b ->
    nth_error (phases (bossConfig b)) (currentPhase b) = Some ph ->
    abilities ph <> [] ->
    exists (b' : t) (effs : list Effect),
      updateBossAttacks dt playerPos tick b = Some (b', effs)
      /\ effs <> []
      /\ lastAttackTime b' = now tick
      /\ forall (dt' : Q) (playerPos' : Vector2.t) (tick' : Tick),
           now tick' - now tick < attackCooldown b ->
           updateBossAttacks dt' playerPos' tick' b' = Some (b', []).
Proof.
  intros dt playerPos tick b ph D N A.
  destruct (updateBossAttacks_due dt playerPos tick b ph D N A)
    as (b' & e & H & L & C & _).
  exists b'. eexists. split; [exact H|]. split; [discriminate|].
  split; [exact L|].
  intros dt' playerPos' tick' Early.
  apply updateBossAttacks_cooling. rewrite L, C. exact Early.
Qed.

(** X9.  The draw of [updateBossAttacks] always picks an ability of the
    phase: for a draw in [0, 1), as [Math.random()] gives, and a list
    that is not empty, the index [floor(draw * length)] is within the
    list. *)
Theorem pickAttack_picks_a_listed_ability :
  forall (rnd : Q) (availableAttacks : list string),
    availableAttacks <> [] ->
    0 <= rnd < 1 ->
    In (pickAttack rnd availableAttacks) availableAttacks.
Proof.
  intros rnd l A (Lo & Hi).
  set (n := List.length l).
  assert (Npos : 0 < inject_Z (Z.of_nat n)).
  { destruct l as [|a l]; [congruence|]. subst n. cbn [List.length].
    rewrite <- (Zlt_Qlt 0). lia. }
  set (x := rnd * inject_Z (Z.of_nat n)).
  assert (X0 : 0 <= x) by (subst x; nra).
  assert (X1 : x < inject_Z (Z.of_nat n)) by (subst x; nra).
  pose proof (Qfloor_le x) as FL. pose proof (Qlt_floor x) as FU.
  assert (F0 : (0 <= Qfloor x)%Z).
  { assert (K : inject_Z 0 < inject_Z (Qfloor x + 1)) by (change (inject_Z 0) with 0; lra).
    rewrite <- Zlt_Qlt in K. lia. }
  assert (F1 : (Qfloor x < Z.of_nat n)%Z).
  { rewrite Zlt_Qlt. lra. }
  apply (pickAttack_uniform rnd l (Z.to_nat (Qfloor x))).
  - fold n. lia.
  - fold n. fold x. rewrite Z2Nat.id by exact F0.
    rewrite inject_Z_plus in FU. change (inject_Z 1) with 1 in FU. split; lra.
Qed.

(** *** Entering a phase *)

Lemma updateBossMovement_clock (dt : Q) (playerPos : Vector2.t) (tick : Tick) (b : t) :
  phase_in_range b ->
  exists b' e,
    updateBossMovement dt playerPos tick b = Some (b', e)
    /\ same_attack_clock b b'.
Proof.
  intros R. unfold updateBossMovement.
  destruct (Enemy.isDying (base b) || isCharging b);
    [exists b, []; split; [reflexivity|repeat split]|].
  destruct (nth_error (phases (bossConfig b)) (currentPhase b)) as [ph|] eqn:N.
  - unfold updateCircleMovement, updateChaseMovement, updateBerserkerMovement,
      updateSwimmingMovement, updateFrenzyMovement.
    repeat match goal with
           | |- context [if ?c then _ else _] => destruct c
           end;
      eexists; eexists; (split; [reflexivity|repeat split]).
  - apply nth_error_None in N. unfold phase_in_range in R. lia.
Qed.

(** X10.  A boss attacks at once on entering a phase: in the [update]
    call whose phase check moves the boss on, the attack of the new phase
    is due whatever the time of the last attack was, and is run in that
    same call, from the abilities of the new phase.  (The clock reads the
    same in the phase check and in the attack check of the call.) *)
Theorem phase_entry_attacks_at_once :
  forall (dt : Q) (playerPos : Vector2.t) (tick : Tick) (b : t) (next : BossPhase),
    nth_error (phases (bossConfig b)) (S (currentPhase b)) = Some next ->
    0 < Enemy.maxHealth (base b) ->
    healthPercent b <= healthThreshold next ->
    abilities next <> [] ->
    0 <= attackCooldown b ->
    exists (b' : t) (effs : list Effect),
      update dt playerPos tick b = Some (b', effs)
      /\ currentPhase b' = S (currentPhase b)
      /\ lastAttackTime b' = now tick
      /\ In (Log ("Boss executing attack: "
                  ++ pickAttack (randomAttack tick) (abilities next))%string) effs.
Proof.
  intros dt playerPos tick b next N _ H A C.
  assert (R : phase_in_range b).
  { unfold phase_in_range.
    assert (S (currentPhase b) < List.length (phases (bossConfig b)))%nat
      by (apply nth_error_Some; congruence).
    lia. }
  destruct (checkPhaseTransition_cases tick b R) as [(_ & St)|X].
  { exfalso. destruct St as [St|(next' & N' & St)].
    - assert (S (currentPhase b) < List.length (phases (bossConfig b)))%nat
        by (apply nth_error_Some; congruence).
      lia.
    - rewrite N in N'. injection N' as <-. lra. }
  destruct X as (b1 & e1 & next' & H1 & N' & _ & P1 & (_ & _ & G1) & L1 & C1 & _).
  rewrite N in N'. injection N' as <-.
  assert (R1 : phase_in_range b1).
  { unfold phase_in_range. rewrite P1, G1. apply nth_error_Some. congruence. }
  destruct (updateBossMovement_clock dt playerPos tick b1 R1)
    as (b2 & e2 & H2 & L2 & C2 & P2 & G2).
  assert (D : attackCooldown b2 <= now tick - lastAttackTime b2).
  { rewrite L2, C2, L1. destruct C1 as [-> | ->]; lra. }
  assert (N2 : nth_error (phases (bossConfig b2)) (currentPhase b2) = Some next)
    by (rewrite G2, P2, G1, P1; exact N).
  destruct (updateBossAttacks_due dt playerPos tick b2 next D N2 A)
    as (b3 & e3 & H3 & L3 & _ & P3 & _).
  exists (set_base (Enemy_update dt playerPos (base b3)) b3). eexists. split.
  - unfold update.
    eapply bind_Some; [exact H1|].
    eapply bind_Some; [exact H2|].
    eapply bind_Some; [exact H3|reflexivity].
  - split; [cbn [currentPhase set_base]; congruence|].
    split; [exact L3|].
    apply in_or_app. right. apply in_or_app. right.
    apply in_or_app. left. left. reflexivity.
Qed.

(** *** A charge *)


(** *** Movement patterns *)

(** The values of the enum [MovementPattern]. *)
Definition movementPatterns : list string :=
  ["stationary"; "circle"; "chase"; "aggressive"; "berserker"; "swimming";
   "aggressive_swim"; "frenzy"]%string.

Definition is_movementPattern (pattern : string) : bool :=
  existsb (String.eqb pattern) movementPatterns.

(** X12.  A phase whose movement pattern is not a value of the enum
    [MovementPattern] (or is [stationary]) is not moved by
    [updateBossMovement]: the switch has no default case. *)
Theorem unknown_pattern_does_not_move :
  forall (dt : Q) (playerPos : Vector2.t) (tick : Tick) (b : t) (ph : BossPhase),
    nth_error (phases (bossConfig b)) (currentPhase b) = Some ph ->
    is_movementPattern (movementPattern ph) = false ->
    updateBossMovement dt playerPos tick b = Some (b, []).
Proof.
  intros dt playerPos tick b ph N U. unfold updateBossMovement.
  destruct (Enemy.isDying (base b) || isCharging b); [reflexivity|].
  rewrite N. unfold is_movementPattern, movementPatterns in U.
  cbn [existsb] in U.
  repeat match type of U with
         | (_ || _)%bool = false =>
             apply orb_false_iff in U; destruct U as (? & U)
         end.
  repeat match goal with
         | E : (_ =? _)%string = false |- _ => rewrite E; clear E
         end.
  reflexivity.
Qed.

End WithRuntime.

(** The patterns of the phases of the bosses that ship which
    [updateBossMovement] has no case for. *)
Definition unmatchedShippedPatterns : list string :=
  filter (fun pattern => negb (is_movementPattern pattern))
         (flat_map (fun cfg => map movementPattern (phases cfg)) shippedBosses).

(** The third shipped boss in its second phase, at 400 of 700 health. *)
Definition iceSharkPhase2 : t :=
  match shippedBosses with
  | _ :: _ :: cfg :: _ =>
      set_currentPhase 1
        (set_base (Enemy.set_health 400 (base (spawn 1400 1800 ELITE (new cfg))))
                  (spawn 1400 1800 ELITE (new cfg)))
  | _ => swarmKing
  end.

(** [unknown_pattern_does_not_move] on the zones that ship: the second
    phase of the ice shark has the pattern [aggressive-swim], where the
    enum has [aggressive_swim]; it is the only shipped pattern without a
    case, and in that phase the boss stands still. *)
Lemma unknown_pattern_does_not_move_witness :
  unmatchedShippedPatterns = ["aggressive-swim"%string]
  /\ nth_error (phases (bossConfig iceSharkPhase2)) (currentPhase iceSharkPhase2)
     = Some (mkPhase 0.6 ["ice-dash"; "freeze-wave"]%string "aggressive-swim")
  /\ updateBossMovement 16 (Vector2.mk 1000 1500) tick5000 iceSharkPhase2
     = Some (iceSharkPhase2, []).
Proof.
  split; [reflexivity|]. split; [reflexivity|].
  exact (unknown_pattern_does_not_move 16 (Vector2.mk 1000 1500) tick5000
           iceSharkPhase2 _ eq_refl eq_refl).
Defined.

(** The second shipped boss, hurt to 100 of 500 health. *)
Definition hurtBomber : t :=
  set_base (Enemy.set_health 100 (base bomber)) bomber.

(** [phase_check_catches_up] on the hurt bomber: two checks take it from
    the first phase to the third. *)
Lemma phase_check_catches_up_witness :
  phase_in_range hurtBomber
  /\ exists (b' : t) (effs : list Effect),
       run [StepCheckPhase tick5000; StepCheckPhase tick5000] hurtBomber
       = Some (b', effs)
       /\ phase_settled b'
       /\ checkPhaseTransition tick5000 b' = Some (b', []).
Proof.
  assert (R : phase_in_range hurtBomber) by (vm_compute; lia).
  assert (M : 0 < Enemy.maxHealth (base hurtBomber))
    by (apply Qltb_lt; vm_compute; reflexivity).
  split; [exact R|].
  destruct (phase_check_catches_up tick5000 hurtBomber R M)
    as (b' & effs & Run & _ & _ & _ & S & I).
  exists b', effs. split; [exact Run|]. split; [exact S|exact I].
Defined.

(** A boss like the first shipped one with the ability ids of the enum. *)
Definition drilledKing : t :=
  spawn 900 600 ELITE
    (new (mkBossConfig "swarm-king" "Swarm King Chimpanzini" (Vector2.mk 900 600) 300
            [ mkPhase 1.0 ["summon_swarm"%string] "circle";
              mkPhase 0.5 ["summon_swarm"; "charge_attack"]%string "aggressive" ]
            200 "chimpanzini-bananini")).

(** [attacks_are_spaced_by_the_cooldown] on that boss: an attack at 5 s
    on the clock, none at 6.9 s. *)
Lemma attacks_are_spaced_by_the_cooldown_witness :
  attackCooldown drilledKing <= now tick5000 - lastAttackTime drilledKing
  /\ exists (b' : t) (effs : list Effect),
       updateBossAttacks 16 (Vector2.mk 900 600) tick5000 drilledKing = Some (b', effs)
       /\ lastAttackTime b' = 5000
       /\ updateBossAttacks 16 (Vector2.mk 900 600) (mkTick 6900 0 0 0 0) b'
          = Some (b', []).
Proof.
  assert (D : attackCooldown drilledKing <= now tick5000 - lastAttackTime drilledKing)
    by (apply Qle_bool_iff; vm_compute; reflexivity).
  split; [exact D|].
  assert (A : abilities (mkPhase 1.0 ["summon_swarm"%string] "circle") <> [])
    by discriminate.
  destruct (attacks_are_spaced_by_the_cooldown 16 (Vector2.mk 900 600) tick5000
              drilledKing _ D eq_refl A) as (b' & effs & H & _ & L & Later).
  exists b', effs. split; [exact H|]. split; [exact L|].
  apply Later. apply Qltb_lt. vm_compute. reflexivity.
Defined.

(** [pickAttack_picks_a_listed_ability] on a draw of 0.99 among two
    abilities. *)
Lemma pickAttack_picks_a_listed_ability_witness :
  0 <= 0.99 < 1
  /\ In (pickAttack 0.99 ["summon_swarm"; "charge_attack"]%string)
        ["summon_swarm"; "charge_attack"]%string.
Proof.
  assert (R : 0 <= 0.99 < 1) by (split; [apply Qle_bool_iff|apply Qltb_lt]; reflexivity).
  split; [exact R|].
  apply pickAttack_picks_a_listed_ability; [discriminate|exact R].
Defined.

(** The drilled boss hurt to half its health, a moment after an attack. *)
Definition hurtKing : t :=
  set_lastAttackTime 4990
    (set_base (Enemy.set_health 150 (base drilledKing)) drilledKing).

(** [phase_entry_attacks_at_once] on that boss: no attack would be due
    for two seconds, and the update that enters the second phase attacks. *)
Lemma phase_entry_attacks_at_once_witness :
  nth_error (phases (bossConfig hurtKing)) (S (currentPhase hurtKing))
  = Some (mkPhase 0.5 ["summon_swarm"; "charge_attack"]%string "aggressive")
  /\ 0 < Enemy.maxHealth (base hurtKing)
  /\ healthPercent hurtKing <= 0.5
  /\ 0 <= attackCooldown hurtKing
  /\ now tick5000 - lastAttackTime hurtKing < attackCooldown hurtKing
  /\ exists (b' : t) (effs : list Effect),
       update 16 (Vector2.mk 900 600) tick5000 hurtKing = Some (b', effs)
       /\ currentPhase b' = 1%nat
       /\ lastAttackTime b' = 5000.
Proof.
  assert (N : nth_error (phases (bossConfig hurtKing)) (S (currentPhase hurtKing))
              = Some (mkPhase 0.5 ["summon_swarm"; "charge_attack"]%string "aggressive"))
    by reflexivity.
  assert (M : 0 < Enemy.maxHealth (base hurtKing))
    by (apply Qltb_lt; vm_compute; reflexivity).
  assert (H : healthPercent hurtKing <= 0.5)
    by (apply Qle_bool_iff; vm_compute; reflexivity).
  assert (C : 0 <= attackCooldown hurtKing)
    by (apply Qle_bool_iff; vm_compute; reflexivity).
  assert (A : abilities (mkPhase 0.5 ["summon_swarm"; "charge_attack"]%string "aggressive")
              <> []) by discriminate.
  split; [exact N|]. split; [exact M|]. split; [exact H|]. split; [exact C|].
  split; [apply Qltb_lt; vm_compute; reflexivity|].
  destruct (phase_entry_attacks_at_once 16 (Vector2.mk 900 600) tick5000 hurtKing _
              N M H A C) as (b' & effs & U & P & L & _).
  exists b', effs. split; [exact U|]. split; [exact P|exact L].
Defined.

End BossCombat.

(** ** The encounter manager: zones, the boss fight and the sweeps *)

Module EncounterZones.
Import EncounterSystem.
Import EncounterSystemFacts.

(** *** Keys of the maps *)

(** The key of the enemy of placement [index] of a zone. *)
Definition enemyKey (zoneId : string) (index : nat) : string :=
  (zoneId ++ "-enemy-" ++ index_toString index)%string.

(** The key of the prop of prop placement [index] of a zone. *)
Definition objectKey (zoneId : string) (index : nat) : string :=
  (zoneId ++ "-object-" ++ index_toString index)%string.

(** The props [loadZone] makes for the prop placements from [index] on. *)
Fixpoint freshProps (zoneId : string) (index : nat)
    (configs : list KickableObjectConfig) : list (string * KickableObject.t) :=
  match configs with
  | [] => []
  | c :: rest =>
      (objectKey zoneId index,
       KickableObject.new (Vector2.x (obj_position c)) (Vector2.y (obj_position c))
                          (obj_type c))
      :: freshProps zoneId (S index) rest
  end.

Lemma freshProps_unbroken (zoneId : string) (index : nat)
    (configs : list KickableObjectConfig) :
  List.length (filter (fun o => negb (KickableObject.isBroken o))
                      (map snd (freshProps zoneId index configs)))
  = List.length configs.
Proof.
  revert index. induction configs as [|c cs IH]; intros index; [reflexivity|].
  cbn [freshProps map snd filter KickableObject.isBroken KickableObject.new negb
       List.length].
  rewrite IH. reflexivity.
Qed.

(** No key of the map is [key j] for an index [j] from [index] on. *)
Definition fresh_from {V : Type} (key : nat -> string) (index : nat)
    (m : list (string * V)) : Prop :=
  forall (kv : string * V) (j : nat),
    In kv m -> (index <= j)%nat -> fst kv <> key j.

(** [s'] is [s] but for the pool and the map of the active enemies. *)
Definition same_but_enemies (s s' : t) : Prop :=
  zones s' = zones s
  /\ currentZone s' = currentZone s
  /\ activeObjects s' = activeObjects s
  /\ currentBoss s' = currentBoss s
  /\ isBossFight s' = isBossFight s
  /\ characterManager s' = characterManager s.

(** [s'] is [s] but for the map of the active props. *)
Definition same_but_objects (s s' : t) : Prop :=
  zones s' = zones s
  /\ currentZone s' = currentZone s
  /\ activeEnemies s' = activeEnemies s
  /\ enemyPool s' = enemyPool s
  /\ currentBoss s' = currentBoss s
  /\ isBossFight s' = isBossFight s
  /\ characterManager s' = characterManager s.

Lemma append_inj (p a b : string) : (p ++ a)%string = (p ++ b)%string -> a = b.
Proof.
  induction p as [|c p IH]; cbn [String.append]; intros H; [exact H|].
  injection H as H. exact (IH H).
Qed.

Lemma index_toString_inj (a b : nat) : index_toString a = index_toString b -> a = b.
Proof.
  unfold index_toString. intros H.
  assert (K : Some (Nat.to_uint a) = Some (Nat.to_uint b)).
  { rewrite <- (NilEmpty.usu (Nat.to_uint a)), <- (NilEmpty.usu (Nat.to_uint b)), H.
    reflexivity. }
  injection K as K.
  rewrite <- (Unsigned.of_to a), <- (Unsigned.of_to b), K. reflexivity.
Qed.

Lemma enemyKey_inj (zoneId : string) (a b : nat) :
  enemyKey zoneId a = enemyKey zoneId b -> a = b.
Proof.
  unfold enemyKey. intros H.
  apply index_toString_inj, (append_inj "-enemy-"), (append_inj zoneId), H.
Qed.

Lemma objectKey_inj (zoneId : string) (a b : nat) :
  objectKey zoneId a = objectKey zoneId b -> a = b.
Proof.
  unfold objectKey. intros H.
  apply index_toString_inj, (append_inj "-object-"), (append_inj zoneId), H.
Qed.

(** [map.set] with a key the map does not have adds the entry at the end. *)
Lemma Map_set_fresh {V : Type} (key : string) (value : V) (m : list (string * V)) :
  (forall kv, In kv m -> fst kv <> key) ->
  Map_set key value m = m ++ [(key, value)].
Proof.
  induction m as [|[k v] m IH]; intros F; [reflexivity|].
  cbn [Map_set app].
  destruct (k =? key)%string eqn:E.
  - apply String.eqb_eq in E. exfalso. exact (F (k, v) (or_introl eq_refl) E).
  - rewrite IH; [reflexivity|]. intros kv I. apply F. right. exact I.
Qed.

Lemma fresh_from_step {V : Type} (key : nat -> string) (index : nat) (value : V)
    (m : list (string * V)) :
  (forall a b : nat, key a = key b -> a = b) ->
  fresh_from key index m ->
  Map_set (key index) value m = m ++ [(key index, value)]
  /\ fresh_from key (S index) (m ++ [(key index, value)]).
Proof.
  intros Inj F. split.
  - apply Map_set_fresh. intros kv I. exact (F kv index I (Nat.le_refl index)).
  - intros kv j I L. apply in_app_or in I. destruct I as [I|[<-|[]]].
    + apply (F kv j I). lia.
    + cbn [fst]. intros E. apply Inj in E. lia.
Qed.

(** *** Finding a zone *)

Lemma findIndex_Some (zoneId : string) (zs : list GameZone) (i : nat) :
  findIndex zoneId zs = Some i ->
  exists z : GameZone, nth_error zs i = Some z /\ id z = zoneId.
Proof.
  revert i. induction zs as [|z zs IH]; intros i H; [discriminate H|].
  cbn [findIndex] in H. destruct (id z =? zoneId)%string eqn:E.
  - injection H as <-. exists z. split; [reflexivity|].
    apply String.eqb_eq, E.
  - destruct (findIndex zoneId zs) as [j|]; [|discriminate H].
    injection H as <-. exact (IH j eq_refl).
Qed.

Lemma find_Some (zoneId : string) (s : t) (i : nat) (zone : GameZone) :
  find zoneId s = Some (i, zone) ->
  findIndex zoneId (zones s) = Some i
  /\ nth_error (zones s) i = Some zone
  /\ id zone = zoneId.
Proof.
  unfold find. destruct (findIndex zoneId (zones s)) as [j|] eqn:F; [|discriminate].
  destruct (findIndex_Some _ _ _ F) as (z & N & I). rewrite N. cbn [option_map].
  intros H. injection H as <- <-. auto.
Qed.

(** A change of the zones that keeps their ids keeps what [findIndex] finds. *)
Lemma findIndex_modify (zoneId : string) (f : GameZone -> GameZone) (j : nat)
    (zs : list GameZone) :
  (forall z, id (f z) = id z) ->
  findIndex zoneId (modify j f zs) = findIndex zoneId zs.
Proof.
  intros K. revert j. induction zs as [|z zs IH]; intros j.
  - destruct j; reflexivity.
  - destruct j as [|j]; cbn [modify findIndex].
    + rewrite K. reflexivity.
    + rewrite IH. reflexivity.
Qed.

Lemma modify_same {A : Type} (f : A -> A) (i : nat) (l : list A) :
  (forall a, nth_error l i = Some a -> f a = a) -> modify i f l = l.
Proof.
  revert i. induction l as [|a l IH]; intros i H.
  - destruct i; reflexivity.
  - destruct i as [|i]; cbn [modify].
    + rewrite (H a eq_refl). reflexivity.
    + rewrite IH; [reflexivity|]. intros b N. apply H. exact N.
Qed.

Section WithRuntime.
Context {J : JsRuntime} {EC : EnemyClass}.

(** *** Loading a zone *)

Lemma spawnEnemy_spec (zoneId : string) (index : nat) (c : StationaryEnemy) (s : t) :
  exists r : nat,
    fst (spawnEnemy zoneId index c s) = set_enemy (Some r) c
    /\ activeEnemies (snd (spawnEnemy zoneId index c s))
       = Map_set (enemyKey zoneId index) r (activeEnemies s)
    /\ same_but_enemies s (snd (spawnEnemy zoneId index c s)).
Proof.
  unfold spawnEnemy. destruct (PoolManager.acquire (enemyPool s)) as [r pool].
  exists r. repeat split.
Qed.

Lemma spawnEnemies_spec (zoneId : string) (configs : list StationaryEnemy) :
  forall (index : nat) (s : t),
    fresh_from (enemyKey zoneId) index (activeEnemies s) ->
    let r := spawnEnemies zoneId index configs s in
    Forall2 (fun c c' => exists ref : nat, c' = set_enemy (Some ref) c) configs (fst r)
    /\ map fst (activeEnemies (snd r))
       = map fst (activeEnemies s)
         ++ map (enemyKey zoneId) (seq index (List.length configs))
    /\ map (fun kr => Some (snd kr)) (activeEnemies (snd r))
       = map (fun kr => Some (snd kr)) (activeEnemies s) ++ map enemy (fst r)
    /\ same_but_enemies s (snd r).
Proof.
  induction configs as [|c configs IH]; intros index s F; cbv zeta.
  - cbn [spawnEnemies fst snd List.length seq map]. rewrite !app_nil_r.
    split; [constructor|]. repeat split.
  - cbn [spawnEnemies].
    destruct (spawnEnemy_spec zoneId index c s) as (ref & C & A & Same).
    destruct (spawnEnemy zoneId index c s) as [c' s1]. cbn [fst snd] in C, A, Same.
    destruct (fresh_from_step (enemyKey zoneId) index ref (activeEnemies s)
                (enemyKey_inj zoneId) F) as (Set' & F1).
    rewrite Set' in A. rewrite <- A in F1.
    specialize (IH (S index) s1 F1). cbv zeta in IH.
    destruct (spawnEnemies zoneId (S index) configs s1) as [cs s2].
    cbn [fst snd] in IH |- *.
    destruct IH as (All & Keys & Refs & Same2).
    split; [constructor; [exists ref; exact C|exact All]|].
    split; [|split].
    + rewrite Keys, A, map_app, <- app_assoc. reflexivity.
    + rewrite Refs, A, map_app, <- app_assoc, C. reflexivity.
    + destruct Same as (Z1 & Z2 & Z3 & Z4 & Z5 & Z6).
      destruct Same2 as (Y1 & Y2 & Y3 & Y4 & Y5 & Y6).
      repeat split; congruence.
Qed.

Lemma spawnObjects_spec (zoneId : string) (configs : list KickableObjectConfig) :
  forall (index : nat) (s : t),
    fresh_from (objectKey zoneId) index (activeObjects s) ->
    let r := spawnObjects zoneId index configs s in
    Forall2 (fun c c' =>
               exists key : string,
                 c' = mkObjectConfig (obj_position c) (obj_type c) (Some key))
            configs (fst r)
    /\ activeObjects (snd r) = activeObjects s ++ freshProps zoneId index configs
    /\ same_but_objects s (snd r).
Proof.
  induction configs as [|c configs IH]; intros index s F; cbv zeta.
  - cbn [spawnObjects fst snd freshProps]. rewrite app_nil_r.
    split; [constructor|]. repeat split.
  - cbn [spawnObjects]. unfold spawnObject.
    set (o := KickableObject.new (Vector2.x (obj_position c))
                (Vector2.y (obj_position c)) (obj_type c)).
    fold (objectKey zoneId index).
    destruct (fresh_from_step (objectKey zoneId) index o (activeObjects s)
                (objectKey_inj zoneId) F) as (Set' & F1).
    rewrite Set'.
    set (s1 := set_activeObjects (activeObjects s ++ [(objectKey zoneId index, o)]) s).
    specialize (IH (S index) s1 F1). cbv zeta in IH.
    destruct (spawnObjects zoneId (S index) configs s1) as [cs s2].
    cbn [fst snd] in IH |- *.
    destruct IH as (All & Objs & Same2).
    split; [constructor; [eexists; reflexivity|exact All]|].
    split.
    + rewrite Objs. subst s1. cbn [activeObjects set_activeObjects freshProps].
      rewrite <- app_assoc. reflexivity.
    + destruct Same2 as (Y1 & Y2 & Y3 & Y4 & Y5 & Y6 & Y7).
      repeat split; assumption.
Qed.

(** What [loadZone] does with a zone that is found and unlocked. *)
Lemma loadZone_found (zoneId : string) (s : t) (i : nat) (zone : GameZone) :
  find zoneId s = Some (i, zone) ->
  isUnlocked zone = true ->
  exists (s' : t) (placed : list StationaryEnemy) (props : list KickableObjectConfig),
    loadZone zoneId s = Some (s', [])
    /\ currentZone s' = Some i
    /\ zones s'
       = modify i (set_kickableObjects props) (modify i (set_enemies placed) (zones s))
    /\ Forall2 (fun c c' => exists ref : nat, c' = set_enemy (Some ref) c)
               (enemies zone) placed
    /\ Forall2 (fun c c' =>
                  exists key : string,
                    c' = mkObjectConfig (obj_position c) (obj_type c) (Some key))
               (kickableObjects zone) props
    /\ map fst (activeEnemies s')
       = map (enemyKey zoneId) (seq 0 (List.length (enemies zone)))
    /\ map (fun kr => Some (snd kr)) (activeEnemies s') = map enemy placed
    /\ activeObjects s' = freshProps zoneId 0 (kickableObjects zone)
    /\ currentBoss s' = currentBoss s
    /\ isBossFight s' = isBossFight s
    /\ characterManager s' = characterManager s.
Proof.
  intros F U. unfold loadZone. rewrite F, U. cbv zeta.
  set (s0 := set_currentZone (Some i) (clearCurrentZone s)).
  assert (F0 : fresh_from (enemyKey zoneId) 0 (activeEnemies s0))
    by (intros kv j []).
  pose proof (spawnEnemies_spec zoneId (enemies zone) 0 s0 F0) as SE.
  cbv zeta in SE.
  destruct (spawnEnemies zoneId 0 (enemies zone) s0) as [placed s1].
  cbn [fst snd] in SE. destruct SE as (All & Keys & Refs & Same).
  destruct Same as (Z1 & Z2 & Z3 & Z4 & Z5 & Z6).
  set (s1' := set_zones (modify i (set_enemies placed) (zones s1)) s1).
  assert (F1 : fresh_from (objectKey zoneId) 0 (activeObjects s1')).
  { subst s1'. cbn [activeObjects set_zones]. rewrite Z3. intros kv j []. }
  pose proof (spawnObjects_spec zoneId (kickableObjects zone) 0 s1' F1) as SO.
  cbv zeta in SO.
  destruct (spawnObjects zoneId 0 (kickableObjects zone) s1') as [props s2].
  cbn [fst snd] in SO. destruct SO as (AllO & Objs & SameO).
  destruct SameO as (Y1 & Y2 & Y3 & Y4 & Y5 & Y6 & Y7).
  exists (set_zones (modify i (set_kickableObjects props) (zones s2)) s2), placed, props.
  split; [reflexivity|].
  cbn [currentZone zones activeEnemies activeObjects currentBoss isBossFight
       characterManager set_zones].
  rewrite Y1, Y2, Y3, Y5, Y6, Y7, Objs.
  subst s1'.
  cbn [currentZone zones activeEnemies activeObjects currentBoss isBossFight
       characterManager set_zones].
  rewrite Z1, Z2, Z3, Z4, Z5, Z6, Keys, Refs.
  repeat split; assumption.
Qed.

(** X13.  [loadZone] of a zone that is found and unlocked returns
    without a warning and makes it the current zone.  Every placement of
    the zone gets a runtime enemy and is otherwise as it was, its state
    included: a placement left aggroed by an earlier visit is loaded
    aggroed.  The map of active enemies has one entry per placement,
    under the keys [<zone>-enemy-<index>], for the enemies the placements
    now name; the map of active props has one new prop per prop
    placement, at its position and of its type.  The other zones are
    untouched, and so are the boss and the boss-fight flag: no boss is
    made at load time, and a boss fight under way goes on. *)
Theorem loadZone_loads_the_zone :
  forall (zoneId : string) (s : t) (i : nat) (zone : GameZone),
    find zoneId s = Some (i, zone) ->
    isUnlocked zone = true ->
    exists (s' : t) (placed : list StationaryEnemy) (props : list KickableObjectConfig),
      loadZone zoneId s = Some (s', [])
      /\ currentZone s' = Some i
      /\ getCurrentZone s' = Some (set_kickableObjects props (set_enemies placed zone))
      /\ (forall j : nat, j <> i -> nth_error (zones s') j = nth_error (zones s) j)
      /\ Forall2 (fun c c' => exists ref : nat, c' = set_enemy (Some ref) c)
                 (enemies zone) placed
      /\ map fst (activeEnemies s')
         = map (enemyKey zoneId) (seq 0 (List.length (enemies zone)))
      /\ map (fun kr => Some (snd kr)) (activeEnemies s') = map enemy placed
      /\ activeObjects s' = freshProps zoneId 0 (kickableObjects zone)
      /\ List.length (getActiveObjects s') = List.length (kickableObjects zone)
      /\ currentBoss s' = currentBoss s
      /\ isBossFight s' = isBossFight s
      /\ characterManager s' = characterManager s.
Proof.
  intros zoneId s i zone F U.
  destruct (loadZone_found zoneId s i zone F U)
    as (s' & placed & props & L & C & Z & All & _ & Keys & Refs & Objs & B & G & M).
  destruct (find_Some zoneId s i zone F) as (_ & N & _).
  exists s', placed, props.
  split; [exact L|]. split; [exact C|].
  split.
  { unfold getCurrentZone. rewrite C, Z, !nth_error_modify, Nat.eqb_refl, N.
    reflexivity. }
  split.
  { intros j D. rewrite Z, !nth_error_modify.
    apply Nat.eqb_neq in D. rewrite Nat.eqb_sym in D. rewrite D. reflexivity. }
  split; [exact All|]. split; [exact Keys|]. split; [exact Refs|].
  split; [exact Objs|].
  split.
  { unfold getActiveObjects. rewrite Objs. apply freshProps_unbroken. }
  split; [exact B|]. split; [exact G|exact M].
Qed.

(** *** Unlocking a zone *)

(** X14.  [unlockZone] with an id that names no zone does nothing and
    logs nothing.  With the id of a zone it sets the unlock flag of that
    zone, the first of that id, and changes nothing else: no other zone,
    no field of the manager; on a zone already unlocked it changes
    nothing at all.  After it the zone is among the available zones and
    [loadZone] of that id goes through without a warning. *)
Theorem unlockZone_opens_the_zone :
  forall (zoneId : string) (s : t),
    match find zoneId s with
    | None => unlockZone zoneId s = Some (s, [])
    | Some (i, zone) =>
        exists s1 : t,
          unlockZone zoneId s
          = Some (s1, [Log ("Zone " ++ name zone ++ " unlocked!")%string])
          /\ s1 = set_zones (modify i (set_isUnlocked true) (zones s)) s
          /\ find zoneId s1 = Some (i, set_isUnlocked true zone)
          /\ In (set_isUnlocked true zone) (getAvailableZones s1)
          /\ (forall j : nat, j <> i -> nth_error (zones s1) j = nth_error (zones s) j)
          /\ (isUnlocked zone = true -> s1 = s)
          /\ exists s2 : t,
               loadZone zoneId s1 = Some (s2, []) /\ currentZone s2 = Some i
    end.
Proof.
  intros zoneId s. destruct (find zoneId s) as [[i zone]|] eqn:F.
  - destruct (find_Some zoneId s i zone F) as (FI & N & I).
    set (s1 := set_zones (modify i (set_isUnlocked true) (zones s)) s).
    assert (F1 : find zoneId s1 = Some (i, set_isUnlocked true zone)).
    { unfold find. subst s1. cbn [zones set_zones].
      rewrite findIndex_modify by reflexivity.
      rewrite FI, nth_error_modify, Nat.eqb_refl, N. reflexivity. }
    exists s1. split; [unfold unlockZone; rewrite F; reflexivity|].
    split; [reflexivity|]. split; [exact F1|].
    split.
    { destruct (find_Some zoneId s1 i _ F1) as (_ & N1 & _).
      unfold getAvailableZones. apply filter_In. split; [|reflexivity].
      exact (nth_error_In _ _ N1). }
    split; [|split].
    + intros j D. subst s1. cbn [zones set_zones]. rewrite nth_error_modify.
      apply Nat.eqb_neq in D. rewrite Nat.eqb_sym in D. rewrite D. reflexivity.
    + intros U. subst s1. rewrite modify_same.
      * destruct s; reflexivity.
      * intros z Nz. rewrite N in Nz. injection Nz as <-.
        destruct zone. cbn in U. subst. reflexivity.
    + destruct (loadZone_found zoneId s1 i _ F1 eq_refl)
        as (s2 & placed & props & L & C & _).
      exists s2. split; [exact L|exact C].
  - unfold unlockZone. rewrite F. reflexivity.
Qed.

(** *** The boss fight *)

(** The boss [startBossFight] makes from a configuration. *)
Definition spawnedBoss (cfg : BossConfig) : Boss.t :=
  Boss.spawn (Vector2.x (boss_position cfg)) (Vector2.y (boss_position cfg))
    (if (boss_type cfg =? "swarm-king")%string then ELITE
     else if (boss_type cfg =? "desert-bomber")%string then TANK
     else if (boss_type cfg =? "ice-shark")%string then ELITE
     else ELITE)
    (Boss.new cfg).

(** [s'] is [s] but for the zones. *)
Definition same_but_zones (s s' : t) : Prop :=
  currentZone s' = currentZone s
  /\ activeEnemies s' = activeEnemies s
  /\ activeObjects s' = activeObjects s
  /\ enemyPool s' = enemyPool s
  /\ currentBoss s' = currentBoss s
  /\ isBossFight s' = isBossFight s
  /\ characterManager s' = characterManager s.

(** The zones after [unlockNextZone], the current zone being at [zi]. *)
Definition nextUnlocked (zi : nat) (zs : list GameZone) : list GameZone :=
  if (zi <? List.length zs - 1)%nat
  then modify (zi + 1) (set_isUnlocked true) zs
  else zs.

Lemma sweeps_frame (s : t) :
  let s' := sweepObjects (sweepEnemies s) in
  currentBoss s' = currentBoss s
  /\ isBossFight s' = isBossFight s
  /\ zones s' = zones s
  /\ characterManager s' = characterManager s
  /\ currentZone s' = currentZone s
  /\ (forall kr, In kr (activeEnemies s') -> In kr (activeEnemies s)).
Proof.
  cbv zeta. unfold sweepObjects, sweepEnemies.
  destruct (fold_left _ (activeEnemies s) _) as [pool dead].
  repeat split. intros kr I.
  cbn [activeEnemies set_activeEnemies set_enemyPool set_activeObjects] in I.
  exact (Map_delete_all_In _ _ _ I).
Qed.

(** The third block of [update] in a zone with a boss that has not
    appeared: the aggro loop runs, then the boss appears if the player is
    within the arena. *)
Lemma updateEnemies_trigger (playerPos : Vector2.t) (s : t) (zi : nat)
    (zone : GameZone) (cfg : BossConfig) :
  currentZone s = Some zi ->
  nth_error (zones s) zi = Some zone ->
  isBossFight s = false ->
  currentBoss s = None ->
  placements_ready (enemies zone) (enemyPool s) = true ->
  boss zone = Some cfg ->
  exists (s' : t) (effs : list Effect) (configs' : list StationaryEnemy),
    updateEnemies playerPos s = Some (s', effs)
    /\ zones s' = modify zi (set_enemies configs') (zones s)
    /\ characterManager s' = characterManager s
    /\ currentZone s' = currentZone s
    /\ (Vector2.distance playerPos (boss_position cfg) <= boss_arenaRadius cfg ->
        currentBoss s' = Some (spawnedBoss cfg)
        /\ isBossFight s' = true
        /\ activeEnemies s' = []
        /\ In (Log ("Starting boss fight: " ++ boss_name cfg)%string) effs)
    /\ (boss_arenaRadius cfg < Vector2.distance playerPos (boss_position cfg) ->
        currentBoss s' = None
        /\ isBossFight s' = false
        /\ activeEnemies s' = activeEnemies s).
Proof.
  intros Z N F B Ready Bz.
  destruct (updatePlacements_each playerPos _ _ Ready)
    as (configs' & pool' & effs1 & H & _).
  set (s1 := set_enemyPool pool' (set_zones (modify zi (set_enemies configs') (zones s)) s)).
  assert (U : updateEnemies playerPos s
              = if Vector2.distance playerPos (boss_position cfg) <=? boss_arenaRadius cfg
                then r <- Some (s1, effs1) ;; startBossFight r
                else Some (s1, effs1 ++ [])).
  { unfold updateEnemies, getCurrentZone. rewrite F, Z, N. cbn [negb]. rewrite H.
    cbn [bind fst snd]. cbv zeta.
    cbn [currentBoss set_enemyPool set_zones]. rewrite B, Bz. fold s1.
    destruct (_ <=? _); [|reflexivity].
    destruct (startBossFight s1) as [[s2 e2]|]; reflexivity. }
  destruct (Vector2.distance playerPos (boss_position cfg) <=? boss_arenaRadius cfg) eqn:D.
  - assert (S : startBossFight s1
                = Some (set_isBossFight true
                          (set_currentBoss (Some (spawnedBoss cfg))
                             (set_activeEnemies []
                                (set_enemyPool (releaseAll (activeEnemies s1) (enemyPool s1))
                                               s1))),
                        [Log ("Starting boss fight: " ++ boss_name cfg)%string])).
    { unfold startBossFight, currentBossConfig, getCurrentZone. subst s1.
      cbn [currentZone zones set_enemyPool set_zones].
      rewrite Z, nth_error_modify, Nat.eqb_refl, N.
      cbn [option_map boss set_enemies]. rewrite Bz. reflexivity. }
    cbn [bind] in U. rewrite S in U.
    eexists. eexists. exists configs'. split; [exact U|].
    split; [reflexivity|]. split; [reflexivity|]. split; [reflexivity|].
    split.
    + intros _. split; [reflexivity|]. split; [reflexivity|]. split; [reflexivity|].
      apply in_or_app. right. left. reflexivity.
    + intros Far. apply Qle_bool_iff in D. lra.
  - eexists. eexists. exists configs'. split; [exact U|].
    split; [reflexivity|]. split; [reflexivity|]. split; [reflexivity|].
    split.
    + intros Near. apply Qle_bool_iff in Near. congruence.
    + intros _. split; [exact B|]. split; [exact F|reflexivity].
Qed.

(** X15.  The boss of a zone appears when the player comes within its
    arena, and not before.  In a zone whose boss has not appeared, one
    [update] call returns; if the player is within [arenaRadius] of the
    boss position (the border included) the boss fight is on afterwards,
    with a new boss at the full health of its configuration and in its
    first phase, and no regular enemy is active any more; if the player
    is further away there is no boss and no boss fight. *)
Theorem boss_appears_inside_the_arena :
  forall (dt : Q) (playerPos : Vector2.t) (tick : Tick) (s : t) (zi : nat)
         (zone : GameZone) (cfg : BossConfig),
    currentZone s = Some zi ->
    nth_error (zones s) zi = Some zone ->
    isBossFight s = false ->
    currentBoss s = None ->
    placements_ready (enemies zone) (enemyPool s) = true ->
    boss zone = Some cfg ->
    exists (s' : t) (effs : list Effect),
      update dt playerPos tick s = Some (s', effs)
      /\ (Vector2.distance playerPos (boss_position cfg) <= boss_arenaRadius cfg ->
          isBossActive s' = true
          /\ getBoss s' = Some (spawnedBoss cfg)
          /\ Enemy.health (Boss.base (spawnedBoss cfg)) = boss_health cfg
          /\ Enemy.maxHealth (Boss.base (spawnedBoss cfg)) = boss_health cfg
          /\ Boss.currentPhase (spawnedBoss cfg) = 0%nat
          /\ activeEnemies s' = []
          /\ getActiveEnemies s'
             = (if Sprite.active (Enemy.sprite (Boss.base (spawnedBoss cfg)))
                then [Boss.base (spawnedBoss cfg)]
                else [])
          /\ In (Log ("Starting boss fight: " ++ boss_name cfg)%string) effs)
      /\ (boss_arenaRadius cfg < Vector2.distance playerPos (boss_position cfg) ->
          isBossActive s' = false /\ getBoss s' = None).
Proof.
  intros dt playerPos tick s zi zone cfg Z N F B Ready Bz.
  destruct (updateEnemies_trigger playerPos (updateObjects tick s) zi zone cfg
              Z N F B Ready Bz)
    as (s2 & effs & configs' & U & _ & _ & _ & Near & Far).
  destruct (sweeps_frame s2) as (B3 & F3 & _ & _ & _ & E3).
  exists (sweepObjects (sweepEnemies s2)). eexists. split.
  - unfold update. rewrite Z. unfold updateBoss. rewrite B.
    cbn [bind ret]. rewrite U. reflexivity.
  - unfold isBossActive, getBoss. rewrite B3, F3. split.
    + intros D. destruct (Near D) as (K1 & K2 & K3 & K4). rewrite K1, K2.
      assert (AE : activeEnemies (sweepObjects (sweepEnemies s2)) = []).
      { destruct (activeEnemies (sweepObjects (sweepEnemies s2))) as [|kr rest];
          [reflexivity|].
        exfalso. pose proof (E3 kr (or_introl eq_refl)) as X. rewrite K3 in X.
        exact X. }
      split; [reflexivity|]. split; [reflexivity|].
      split; [reflexivity|]. split; [reflexivity|]. split; [reflexivity|].
      split; [exact AE|].
      split; [|cbn [app]; rewrite ?app_nil_r; exact K4].
      unfold getActiveEnemies. rewrite AE, B3, K1. cbn [flat_map filter app].
      reflexivity.
    + intros D. destruct (Far D) as (K1 & K2 & _). rewrite K1, K2.
      split; reflexivity.
Qed.

(** *** The defeat of the boss *)

Lemma unlockNextZone_spec (s : t) (zi : nat) (zone : GameZone) :
  getCurrentZone s = Some zone ->
  findIndex (id zone) (zones s) = Some zi ->
  exists (s' : t) (effs : list Effect),
    unlockNextZone s = Some (s', effs)
    /\ zones s' = nextUnlocked zi (zones s)
    /\ same_but_zones s s'.
Proof.
  intros G FI. unfold unlockNextZone, nextUnlocked. rewrite G, FI.
  destruct (zi <? List.length (zones s) - 1)%nat.
  - cbv zeta. cbn [zones set_zones].
    destruct (nth_error _ (zi + 1)); eexists; eexists;
      (split; [reflexivity|split; [reflexivity|repeat split]]).
  - exists s, []. split; [reflexivity|]. split; [reflexivity|repeat split].
Qed.

(** The first block of [update] when the step of the boss leaves it dead
    and dying. *)
Lemma updateBoss_defeat (playerPos : Vector2.t) (tick : Tick) (s : t) (zi : nat)
    (zone : GameZone) (cfg : BossConfig) (b b' : Boss.t) (e1 : list Effect) :
  currentZone s = Some zi ->
  nth_error (zones s) zi = Some zone ->
  boss zone = Some cfg ->
  findIndex (id zone) (zones s) = Some zi ->
  currentBoss s = Some b ->
  Sprite.active (Enemy.sprite (Boss.base b)) = true ->
  Boss.update 16 playerPos tick b = Some (b', e1) ->
  (Enemy.health (Boss.base b') <=? 0) && Enemy.isDying (Boss.base b') = true ->
  exists (s1 : t) (effs : list Effect),
    updateBoss playerPos tick s = Some (s1, effs)
    /\ In (Log ("Boss " ++ boss_name cfg ++ " defeated!")%string) effs
    /\ currentBoss s1 = None
    /\ isBossFight s1 = false
    /\ characterManager s1
       = fst (CharacterManager.unlockCharacterByBoss (boss_type cfg) (characterManager s))
    /\ zones s1 = nextUnlocked zi (zones s)
    /\ currentZone s1 = currentZone s
    /\ activeEnemies s1 = activeEnemies s
    /\ activeObjects s1 = activeObjects s
    /\ enemyPool s1 = enemyPool s.
Proof.
  intros Z N Bz FI B A U D.
  unfold updateBoss. rewrite B, A, U. cbn [bind]. cbv zeta. rewrite D.
  unfold onBossDefeated, currentBossConfig, getCurrentZone.
  cbn [currentBoss currentZone zones characterManager set_currentBoss].
  rewrite Z, N, Bz.
  destruct (CharacterManager.unlockCharacterByBoss (boss_type cfg) (characterManager s))
    as [cm unlocked].
  set (sC := set_characterManager cm (set_currentBoss (Some b') s)).
  assert (G : getCurrentZone sC = Some zone).
  { unfold getCurrentZone. subst sC. cbn. rewrite Z. exact N. }
  destruct (unlockNextZone_spec sC zi zone G FI)
    as (sU & eU & HU & ZU & Y1 & Y2 & Y3 & Y4 & Y5 & Y6 & Y7).
  rewrite HU. cbn [fst].
  destruct unlocked; cbn [bind emit ret app]; eexists; eexists;
    (split; [reflexivity|]);
    (split; [apply in_or_app; right; left; reflexivity|]);
    cbn [currentBoss isBossFight characterManager zones currentZone activeEnemies
         activeObjects enemyPool set_isBossFight set_currentBoss];
    rewrite Y1, Y2, Y3, Y4, Y7, ZU; repeat split; exact Z.
Qed.

(** X16.  The defeat of the boss.  When the step of the boss in
    [update] leaves it dead and dying, the same call logs the defeat,
    unlocks the character the boss type stands for (if it is not unlocked
    yet), unlocks the zone that follows the current one in the catalog
    (the current zone being the first of its id there), and locks no
    zone.  The boss is gone and the fight is over if the
    player is outside the arena.  If the player is still within the
    arena, the boss trigger of the same call starts the fight again, with
    a new boss at full health. *)
Theorem boss_defeat_unlocks_and_can_restart :
  forall (dt : Q) (playerPos : Vector2.t) (tick : Tick) (s : t) (zi : nat)
         (zone : GameZone) (cfg : BossConfig) (b b' : Boss.t) (e1 : list Effect),
    currentZone s = Some zi ->
    nth_error (zones s) zi = Some zone ->
    boss zone = Some cfg ->
    findIndex (id zone) (zones s) = Some zi ->
    placements_ready (enemies zone) (enemyPool s) = true ->
    currentBoss s = Some b ->
    Sprite.active (Enemy.sprite (Boss.base b)) = true ->
    Boss.update 16 playerPos tick b = Some (b', e1) ->
    (Enemy.health (Boss.base b') <=? 0) && Enemy.isDying (Boss.base b') = true ->
    exists (s' : t) (effs : list Effect),
      update dt playerPos tick s = Some (s', effs)
      /\ In (Log ("Boss " ++ boss_name cfg ++ " defeated!")%string) effs
      /\ characterManager s'
         = fst (CharacterManager.unlockCharacterByBoss (boss_type cfg)
                  (characterManager s))
      /\ (forall next : GameZone,
             nth_error (zones s) (S zi) = Some next ->
             exists next' : GameZone,
               nth_error (zones s') (S zi) = Some next'
               /\ id next' = id next
               /\ isUnlocked next' = true)
      /\ (forall (j : nat) (z : GameZone),
             nth_error (zones s) j = Some z ->
             exists z' : GameZone,
               nth_error (zones s') j = Some z'
               /\ id z' = id z
               /\ (isUnlocked z = true -> isUnlocked z' = true))
      /\ (boss_arenaRadius cfg < Vector2.distance playerPos (boss_position cfg) ->
          isBossActive s' = false /\ getBoss s' = None)
      /\ (Vector2.distance playerPos (boss_position cfg) <= boss_arenaRadius cfg ->
          isBossActive s' = true /\ getBoss s' = Some (spawnedBoss cfg)).
Proof.
  intros dt playerPos tick s zi zone cfg b b' e1 Z N Bz FI Ready B A U D.
  destruct (updateBoss_defeat playerPos tick s zi zone cfg b b' e1 Z N Bz FI B A U D)
    as (s1 & effs1 & H1 & L1 & B1 & F1 & M1 & Z1 & C1 & E1 & O1 & P1).
  assert (N1 : nth_error (zones s1) zi = Some zone).
  { rewrite Z1. unfold nextUnlocked. destruct (_ <? _)%nat; [|exact N].
    rewrite nth_error_modify.
    replace (zi + 1 =? zi)%nat with false by (symmetry; apply Nat.eqb_neq; lia).
    exact N. }
  assert (Zo : currentZone (updateObjects tick s1) = Some zi) by (cbn; congruence).
  assert (Ro : placements_ready (enemies zone) (enemyPool (updateObjects tick s1)) = true)
    by (cbn [updateObjects enemyPool set_activeObjects]; rewrite P1; exact Ready).
  destruct (updateEnemies_trigger playerPos (updateObjects tick s1) zi zone cfg
              Zo N1 F1 B1 Ro Bz)
    as (s2 & effs2 & configs' & H2 & Z2 & M2 & _ & Near & Far).
  destruct (sweeps_frame s2) as (B3 & F3 & Z3 & M3 & _ & _).
  exists (sweepObjects (sweepEnemies s2)). eexists. split.
  { unfold update. rewrite Z.
    eapply bind_Some; [exact H1|]. cbv zeta.
    eapply bind_Some; [exact H2|]. reflexivity. }
  split; [apply in_or_app; left; exact L1|].
  split; [rewrite M3, M2; exact M1|].
  assert (Zs : zones (sweepObjects (sweepEnemies s2))
               = modify zi (set_enemies configs') (nextUnlocked zi (zones s))).
  { rewrite Z3, Z2. cbn [updateObjects zones set_activeObjects]. rewrite Z1.
    reflexivity. }
  split.
  { intros next Nn. rewrite Zs, nth_error_modify.
    replace (zi =? S zi)%nat with false by (symmetry; apply Nat.eqb_neq; lia).
    unfold nextUnlocked.
    assert (Lt : (zi <? List.length (zones s) - 1)%nat = true).
    { apply Nat.ltb_lt.
      assert (S zi < List.length (zones s))%nat by (apply nth_error_Some; congruence).
      lia. }
    rewrite Lt, nth_error_modify, Nat.add_1_r, Nat.eqb_refl, Nn.
    eexists. split; [reflexivity|]. split; reflexivity. }
  split.
  { intros j z Nj. rewrite Zs, nth_error_modify. unfold nextUnlocked.
    assert (K : exists z1, nth_error
                  (if (zi <? List.length (zones s) - 1)%nat
                   then modify (zi + 1) (set_isUnlocked true) (zones s)
                   else zones s) j = Some z1
                /\ id z1 = id z /\ (isUnlocked z = true -> isUnlocked z1 = true)).
    { destruct (_ <? _)%nat; [|exists z; auto].
      rewrite nth_error_modify, Nj.
      destruct (zi + 1 =? j)%nat; [|exists z; auto].
      eexists. split; [reflexivity|]. split; [reflexivity|]. intros _. reflexivity. }
    destruct K as (z1 & -> & I1 & U1).
    destruct (zi =? j)%nat; eexists; (split; [reflexivity|]);
      (split; [exact I1|exact U1]). }
  unfold isBossActive, getBoss. rewrite B3, F3. split.
  - intros Dd. destruct (Far Dd) as (K1 & K2 & _). rewrite K1, K2. split; reflexivity.
  - intros Dd. destruct (Near Dd) as (K1 & K2 & _). rewrite K1, K2. split; reflexivity.
Qed.

(** *** The sweep of the broken props *)

Lemma NoDup_keys {V : Type} (m : list (string * V)) (k : string) (a b : V) :
  NoDup (map fst m) -> In (k, a) m -> In (k, b) m -> a = b.
Proof.
  induction m as [|[k0 v0] m IH]; intros D Ia Ib; [destruct Ia|].
  cbn [map fst] in D. inversion D as [|? ? Out D']; subst.
  destruct Ia as [Ea|Ia], Ib as [Eb|Ib].
  - congruence.
  - injection Ea as -> ->. exfalso. apply Out.
    apply in_map_iff. exists (k, b). split; [reflexivity|exact Ib].
  - injection Eb as -> ->. exfalso. apply Out.
    apply in_map_iff. exists (k, a). split; [reflexivity|exact Ia].
  - exact (IH D' Ia Ib).
Qed.

Lemma unbroken_all_active (m : list (string * KickableObject.t)) :
  Forall (fun kv => KickableObject.isBroken (snd kv) = false) m ->
  filter (fun o => negb (KickableObject.isBroken o)) (map snd m) = map snd m.
Proof.
  induction 1 as [|kv rest Br All IH]; [reflexivity|].
  cbn [map filter]. rewrite Br. cbn [negb]. rewrite IH. reflexivity.
Qed.

(** What [sweepObjects] leaves in the map. *)
Lemma sweepObjects_spec (s : t) :
  Forall (fun kv => KickableObject.isBroken (snd kv) = false)
         (activeObjects (sweepObjects s))
  /\ (NoDup (map fst (activeObjects s)) ->
      activeObjects (sweepObjects s)
      = filter (fun kv => negb (KickableObject.isBroken (snd kv))) (activeObjects s)).
Proof.
  unfold sweepObjects. cbn [activeObjects set_activeObjects].
  rewrite Map_delete_all_filter.
  set (m := activeObjects s).
  set (brokenKeys := map fst (filter (fun kv => KickableObject.isBroken (snd kv)) m)).
  assert (K : forall kv, In kv m -> KickableObject.isBroken (snd kv) = true ->
                         existsb (String.eqb (fst kv)) brokenKeys = true).
  { intros kv I Br. apply existsb_exists. exists (fst kv). split.
    - apply in_map. apply filter_In. split; [exact I|exact Br].
    - apply String.eqb_refl. }
  split.
  - apply Forall_forall. intros kv I. apply filter_In in I. destruct I as (I & Keep).
    destruct (KickableObject.isBroken (snd kv)) eqn:Br; [|reflexivity].
    rewrite (K kv I Br) in Keep. discriminate Keep.
  - intros D. apply filter_ext_in. intros kv I. f_equal.
    destruct (KickableObject.isBroken (snd kv)) eqn:Br; [exact (K kv I Br)|].
    destruct (existsb (String.eqb (fst kv)) brokenKeys) eqn:X; [|reflexivity].
    apply existsb_exists in X. destruct X as (k & Ik & E).
    apply String.eqb_eq in E. subst k.
    apply in_map_iff in Ik. destruct Ik as ([k' o'] & E' & I').
    apply filter_In in I'. destruct I' as (I' & Br'). cbn [fst snd] in E', Br'.
    subst k'. destruct kv as [k o]. cbn [fst snd] in *.
    rewrite (NoDup_keys m k o o' D I I') in Br. congruence.
Qed.

(** X17.  [update] sweeps the broken props, all of them and nothing
    else: no prop left in the map of active props is broken, so
    [getActiveObjects] gives the whole map; and when no two props share a
    key, the props left are exactly those that were not broken, each
    stepped by its [update] with 16 ms. *)
Theorem update_sweeps_the_broken_props :
  forall (dt : Q) (playerPos : Vector2.t) (tick : Tick) (s s' : t)
         (effs : list Effect),
    update dt playerPos tick s = Some (s', effs) ->
    currentZone s <> None ->
    Forall (fun kv => KickableObject.isBroken (snd kv) = false) (activeObjects s')
    /\ getActiveObjects s' = map snd (activeObjects s')
    /\ (NoDup (map fst (activeObjects s)) ->
        activeObjects s'
        = map (fun kv => (fst kv, KickableObject.update 16 (now tick) (snd kv)))
              (filter (fun kv => negb (KickableObject.isBroken (snd kv)))
                      (activeObjects s))).
Proof.
  intros dt playerPos tick s s' effs H Z. unfold update in H.
  destruct (currentZone s) as [zi|]; [clear Z|congruence].
  apply bind_inv in H. destruct H as (s1 & e1 & e2 & U & H & _).
  apply bind_inv in H. destruct H as (s2 & e3 & e4 & V & H & _).
  injection H as <- _.
  destruct (updateEnemies_frame _ _ _ _ V) as (O2 & _).
  destruct (sweepEnemies_frame s2) as (O3 & _ & _).
  destruct (sweepObjects_spec (sweepEnemies s2)) as (All & Exact).
  split; [exact All|]. split.
  - unfold getActiveObjects. apply unbroken_all_active, All.
  - intros D. rewrite O3, O2 in Exact.
    unfold updateObjects in Exact. cbn [activeObjects set_activeObjects] in Exact.
    rewrite (updateBoss_objects _ _ _ _ _ U) in Exact.
    rewrite Exact.
    + rewrite filter_map_comm. f_equal. apply filter_ext. intros kv. cbn [snd].
      destruct (KickableObjectFacts.update_core 16 (now tick) (snd kv)) as (_ & Br & _).
      rewrite Br. reflexivity.
    + rewrite map_map. cbn [fst]. exact D.
Qed.

(** *** Aggro: the flag and the state *)

(** The aggro flag of the enemy says what the state of its placement says. *)
Definition aggro_consistent (c : StationaryEnemy) (e : Enemy.t) : Prop :=
  state c = AGGROED <-> truthy (Enemy.hasAggro e) = true.

(** The patrol index of the enemy is within the path of its placement. *)
Definition index_valid (c : StationaryEnemy) (e : Enemy.t) : bool :=
  match patrolPath c with
  | Some (p :: path) =>
      (match Enemy.patrolIndex e with Some n => n | None => O end
       <? List.length (p :: path))%nat
  | _ => true
  end.

(** [c'] is the placement [c] in another state. *)
Definition same_placement (c c' : StationaryEnemy) : Prop :=
  position c' = position c
  /\ enemyType c' = enemyType c
  /\ aggroRadius c' = aggroRadius c
  /\ patrolPath c' = patrolPath c
  /\ enemy c' = enemy c.

Lemma same_placement_refl (c : StationaryEnemy) : same_placement c c.
Proof. repeat split. Qed.

Lemma updatePatrol_frame (e e' : Enemy.t) (c : StationaryEnemy) (effs : list Effect) :
  updatePatrol e c = Some (e', effs) ->
  Enemy.hasAggro e' = Enemy.hasAggro e
  /\ Enemy.movementType e' = Enemy.movementType e
  /\ effs = []
  /\ (index_valid c e = true -> index_valid c e' = true).
Proof.
  unfold updatePatrol, index_valid.
  destruct (patrolPath c) as [[|p path]|].
  - intros H. injection H as <- <-. auto.
  - set (idx := match Enemy.patrolIndex e with Some n => n | None => O end).
    destruct (nth_error (p :: path) idx) as [targetPos|]; [|discriminate].
    cbv zeta.
    destruct (Vector2.distance _ targetPos <? 20).
    + assert (V : ((idx + 1) mod List.length (p :: path)
                   <? List.length (p :: path))%nat = true).
      { apply Nat.ltb_lt. apply Nat.mod_upper_bound. cbn [List.length]. lia. }
      destruct (5 <? _); intros H; injection H as <- <-;
        (split; [reflexivity|]); (split; [reflexivity|]); (split; [reflexivity|]);
        intros _; exact V.
    + destruct (5 <? _); intros H; injection H as <- <-;
        (split; [reflexivity|]); (split; [reflexivity|]); (split; [reflexivity|]);
        intros V; exact V.
  - intros H. injection H as <- <-. auto.
Qed.

(** What one aggro check keeps. *)
Lemma updateEnemyAggro_keeps (c c' : StationaryEnemy) (playerPos : Vector2.t)
    (e e' : Enemy.t) (effs : list Effect) :
  updateEnemyAggro c playerPos e = Some ((c', e'), effs) ->
  same_placement c c'
  /\ (index_valid c e = true -> index_valid c' e' = true)
  /\ (aggro_consistent c e -> aggro_consistent c' e')
  /\ (state c' = AGGROED -> Enemy.movementType e' = Some "homing"%string)
  /\ (state c' <> state c -> effs <> []).
Proof.
  unfold updateEnemyAggro, aggro_consistent. cbv zeta.
  destruct (state c) eqn:St.
  - destruct (_ && _).
    + unfold triggerAggro. intros H. injection H as <- <- <-.
      split; [repeat split|]. split; [auto|]. split; [intros _; split; reflexivity|].
      split; [reflexivity|discriminate].
    + intros H. injection H as <- <- <-. rewrite St.
      split; [repeat split|]. split; [auto|]. split; [auto|].
      split; [discriminate|congruence].
  - destruct (_ && _).
    + unfold triggerAggro. intros H. injection H as <- <- <-.
      split; [repeat split|]. split; [auto|]. split; [intros _; split; reflexivity|].
      split; [reflexivity|discriminate].
    + destruct (negb _).
      * intros H. apply bind_inv in H. destruct H as (e1 & x1 & x2 & P & H & ->).
        injection H as <- <- <-.
        destruct (updatePatrol_frame _ _ _ _ P) as (A & _ & -> & V).
        rewrite St, A. split; [repeat split|]. split; [exact V|]. split; [auto|].
        split; [discriminate|congruence].
      * intros H. injection H as <- <- <-. rewrite St.
        split; [repeat split|]. split; [auto|]. split; [auto|].
        split; [discriminate|congruence].
  - destruct (_ <? _).
    + unfold loseAggro. destruct (patrolPath c) eqn:Pp; intros H;
        injection H as <- <- <-;
        (split; [repeat split; cbn; congruence|]);
        (split; [unfold index_valid; cbn; rewrite Pp; auto|]);
        (split; [intros _; cbn; split; discriminate|]);
        (split; [cbn; discriminate|discriminate]).
    + intros H. injection H as <- <- <-. rewrite St.
      split; [repeat split|]. split; [auto|]. split; [auto|].
      split; [reflexivity|congruence].
  - intros H. injection H as <- <- <-. rewrite St.
    split; [repeat split|]. split; [auto|]. split; [auto|].
    split; [discriminate|congruence].
  - intros H. injection H as <- <- <-. rewrite St.
    split; [repeat split|]. split; [auto|]. split; [auto|].
    split; [discriminate|congruence].
Qed.

(** X18.  The aggro flag of an enemy and the state of its placement do
    not part: if the flag is set exactly when the placement is aggroed
    before [updateEnemyAggro], it is so afterwards.  An enemy whose
    placement comes out aggroed homes on the player; every change of
    state is logged; and the call changes nothing of the placement but
    its state. *)
Theorem aggro_flag_follows_the_state :
  forall (c c' : StationaryEnemy) (playerPos : Vector2.t) (e e' : Enemy.t)
         (effs : list Effect),
    updateEnemyAggro c playerPos e = Some ((c', e'), effs) ->
    aggro_consistent c e ->
    aggro_consistent c' e'
    /\ (state c' = AGGROED -> Enemy.movementType e' = Some "homing"%string)
    /\ (state c' <> state c -> effs <> [])
    /\ same_placement c c'.
Proof.
  intros c c' playerPos e e' effs H A.
  destruct (updateEnemyAggro_keeps c c' playerPos e e' effs H) as (P & _ & K & M & L).
  split; [exact (K A)|]. split; [exact M|]. split; [exact L|exact P].
Qed.

(** *** The aggro loop *)

Lemma refs_same (configs configs' : list StationaryEnemy) :
  map enemy configs' = map enemy configs -> refs configs' = refs configs.
Proof.
  revert configs'. induction configs as [|c configs IH]; intros [|c' configs'] H;
    try discriminate H; [reflexivity|].
  cbn [map] in H. injection H as E H. unfold refs. cbn [flat_map].
  rewrite E. f_equal. exact (IH configs' H).
Qed.

Lemma patrol_valid_read (pool pool' : PoolManager.t) (c : StationaryEnemy) :
  (forall r, enemy c = Some r -> PoolManager.read r pool' = PoolManager.read r pool) ->
  patrol_valid pool' c = patrol_valid pool c.
Proof.
  intros H. unfold patrol_valid. destruct (enemy c) as [r|]; [|reflexivity].
  rewrite (H r eq_refl). reflexivity.
Qed.

Lemma patrol_valid_index (pool : PoolManager.t) (c : StationaryEnemy) (r : nat)
    (e : Enemy.t) :
  enemy c = Some r -> PoolManager.read r pool = Some e ->
  patrol_valid pool c = index_valid c e.
Proof.
  intros E R. unfold patrol_valid, index_valid. rewrite E.
  destruct (patrolPath c) as [[|p path]|]; try reflexivity.
  rewrite R. reflexivity.
Qed.

(** X19.  The aggro loop of [update] can run frame after frame: on
    placements that are ready (no two share a runtime enemy, every
    patrol index is within its path) it returns, and leaves them ready.
    It changes the state of the placements only, writes to no enemy but
    theirs, and takes nothing from the pool and gives nothing back. *)
Theorem aggro_loop_keeps_the_placements_ready :
  forall (playerPos : Vector2.t) (configs : list StationaryEnemy)
         (pool : PoolManager.t),
    placements_ready configs pool = true ->
    exists (configs' : list StationaryEnemy) (pool' : PoolManager.t)
           (effs : list Effect),
      updatePlacements playerPos configs pool = Some ((configs', pool'), effs)
      /\ Forall2 same_placement configs configs'
      /\ placements_ready configs' pool' = true
      /\ (forall r : nat, ~ In r (refs configs) ->
                          PoolManager.read r pool' = PoolManager.read r pool)
      /\ PoolManager.free pool' = PoolManager.free pool
      /\ List.length (PoolManager.store pool') = List.length (PoolManager.store pool).
Proof.
  intros playerPos configs.
  induction configs as [|c configs IH]; intros pool Ready.
  - exists [], pool, []. split; [reflexivity|]. split; [constructor|].
    split; [reflexivity|]. auto.
  - unfold placements_ready in Ready. apply andb_true_iff in Ready.
    destruct Ready as (D & V). cbn [forallb] in V. apply andb_true_iff in V.
    destruct V as (Vc & V).
    assert (Skip : forall r0 : option nat,
               enemy c = r0 ->
               distinct (refs configs) = true ->
               (forall r, r0 = Some r -> forall r', In r' (refs configs) -> r <> r') ->
               updatePlacement playerPos c pool = Some ((c, pool), []) ->
               exists configs' pool' effs,
                 updatePlacements playerPos (c :: configs) pool
                 = Some ((configs', pool'), effs)
                 /\ Forall2 same_placement (c :: configs) configs'
                 /\ placements_ready configs' pool' = true
                 /\ (forall r, ~ In r (refs (c :: configs)) ->
                               PoolManager.read r pool' = PoolManager.read r pool)
                 /\ PoolManager.free pool' = PoolManager.free pool
                 /\ List.length (PoolManager.store pool')
                    = List.length (PoolManager.store pool)).
    { intros r0 E Dr Other Same.
      assert (Ready' : placements_ready configs pool = true)
        by (unfold placements_ready; rewrite V, Dr; reflexivity).
      destruct (IH pool Ready') as (configs' & pool' & effs & H & All & R' & Rd & Fr & Ln).
      exists (c :: configs'), pool'. eexists. split.
      { cbn [updatePlacements]. rewrite Same. cbn [bind ret fst snd]. rewrite H.
        reflexivity. }
      split; [constructor; [apply same_placement_refl|exact All]|].
      assert (RefsEq : refs configs' = refs configs).
      { apply refs_same. clear - All. induction All as [|a b l l' (_ & _ & _ & _ & E) _ IHl];
          [reflexivity|]. cbn [map]. rewrite E, IHl. reflexivity. }
      split.
      { unfold placements_ready in R' |- *. apply andb_true_iff in R'.
        destruct R' as (D' & V'). apply andb_true_iff. split.
        - unfold refs. cbn [flat_map]. fold (refs configs'). rewrite RefsEq.
          unfold refs in D. cbn [flat_map] in D. exact D.
        - cbn [forallb]. rewrite V', andb_true_r.
          rewrite (patrol_valid_read pool pool'); [exact Vc|].
          intros r Er. apply Rd. intros I.
          exact (Other r (eq_trans (eq_sym E) Er) r I eq_refl). }
      split; [|split; [exact Fr|exact Ln]].
      intros r Nr. apply Rd. intros I. apply Nr. unfold refs. cbn [flat_map].
      apply in_or_app. right. exact I. }
    destruct (enemy c) as [r|] eqn:E.
    2:{ apply (Skip None eq_refl).
        - unfold refs in D. cbn [flat_map] in D. rewrite E in D. exact D.
        - intros r Hr. discriminate Hr.
        - unfold updatePlacement. rewrite E. reflexivity. }
    unfold refs in D. cbn [flat_map] in D. rewrite E in D.
    cbn [app distinct] in D. apply andb_true_iff in D. destruct D as (Dr & D).
    apply negb_true_iff in Dr. fold (refs configs) in Dr, D.
    pose proof (existsb_eqb_false _ _ Dr) as Other.
    assert (D0 : distinct (refs (c :: configs)) = true).
    { unfold refs. cbn [flat_map]. rewrite E. cbn [app distinct].
      fold (refs configs). rewrite Dr, D. reflexivity. }
    destruct (PoolManager.read r pool) as [e|] eqn:R.
    2:{ apply (Skip (Some r) eq_refl D).
        - intros r1 Hr. injection Hr as <-. exact Other.
        - unfold updatePlacement. rewrite E, R. reflexivity. }
    destruct (Sprite.active (Enemy.sprite e)) eqn:A.
    2:{ apply (Skip (Some r) eq_refl D).
        - intros r1 Hr. injection Hr as <-. exact Other.
        - unfold updatePlacement. rewrite E, R, A. reflexivity. }
    clear Skip.
    destruct (updateEnemyAggro_returns pool c playerPos r e E R Vc)
      as (c' & e' & effs1 & U).
    destruct (updateEnemyAggro_keeps c c' playerPos e e' effs1 U)
      as (P & Iv & _ & _ & _).
    set (pool1 := PoolManager.write r (fun _ => e') pool).
    assert (Ready1 : placements_ready configs pool1 = true).
    { unfold placements_ready. subst pool1.
      rewrite D, (patrol_valid_write _ _ _ _ Other). exact V. }
    destruct (IH pool1 Ready1) as (configs' & pool' & effs & H & All & R' & Rd & Fr & Ln).
    exists (c' :: configs'), pool'. eexists. split.
    { cbn [updatePlacements]. unfold updatePlacement. rewrite E, R, A. cbn [negb].
      rewrite U. cbn [bind ret fst snd]. fold pool1. rewrite H. reflexivity. }
    split; [constructor; [exact P|exact All]|].
    assert (RefsEq : refs configs' = refs configs).
    { apply refs_same. clear - All. induction All as [|a b l l' (_ & _ & _ & _ & E) _ IHl];
        [reflexivity|]. cbn [map]. rewrite E, IHl. reflexivity. }
    destruct P as (_ & _ & _ & Pp & Pe).
    assert (R1 : PoolManager.read r pool' = Some e').
    { rewrite Rd.
      - subst pool1. rewrite read_write_same, R. reflexivity.
      - intros I. exact (Other r I eq_refl). }
    split.
    { unfold placements_ready in R' |- *. apply andb_true_iff in R'.
      destruct R' as (D' & V'). apply andb_true_iff. split.
      - unfold refs. cbn [flat_map]. fold (refs configs'). rewrite RefsEq, Pe, E.
        cbn [app distinct]. rewrite Dr, D. reflexivity.
      - cbn [forallb]. rewrite V', andb_true_r.
        rewrite (patrol_valid_index pool' c' r e' (eq_trans Pe E) R1).
        apply Iv. rewrite <- (patrol_valid_index pool c r e E R). exact Vc. }
    split; [|split].
    + intros r0 Nr. rewrite Rd.
      * subst pool1. apply read_write_other. intros ->. apply Nr.
        unfold refs. cbn [flat_map]. rewrite E. left. reflexivity.
      * intros I. apply Nr. unfold refs. cbn [flat_map].
        apply in_or_app. right. exact I.
    + rewrite Fr. reflexivity.
    + rewrite Ln. subst pool1. unfold PoolManager.write. cbn [PoolManager.store].
      clear. generalize (PoolManager.store pool). intros l. revert r.
      induction l as [|a l IHl]; intros [|r]; cbn [modify List.length]; auto.
Qed.

(** *** Reset, then a zone *)

Lemma reset_frame (s : t) :
  zones (reset s) = zones s
  /\ currentBoss (reset s) = None
  /\ isBossFight (reset s) = false
  /\ characterManager (reset s) = characterManager s.
Proof.
  unfold reset. destruct (currentBoss (clearCurrentZone s)) eqn:B; cbv zeta.
  - repeat split.
  - cbn [zones currentBoss isBossFight characterManager set_activeObjects
         set_isBossFight]. rewrite B. repeat split.
Qed.

(** X20.  [reset] keeps the unlocks and ends the boss fight, so that a
    zone loaded after it starts clean: for every zone that is in the
    catalog and unlocked, [loadZone] after [reset] returns without a
    warning, makes it the current zone with its enemies and new props,
    and there is no boss and no boss fight, whatever the manager was
    before the reset (a boss fight included). *)
Theorem reset_then_loadZone_starts_clean :
  forall (zoneId : string) (s : t) (i : nat) (zone : GameZone),
    find zoneId s = Some (i, zone) ->
    isUnlocked zone = true ->
    exists s' : t,
      loadZone zoneId (reset s) = Some (s', [])
      /\ currentZone s' = Some i
      /\ isBossActive s' = false
      /\ getBoss s' = None
      /\ isBossFight s' = false
      /\ map fst (activeEnemies s')
         = map (enemyKey zoneId) (seq 0 (List.length (enemies zone)))
      /\ activeObjects s' = freshProps zoneId 0 (kickableObjects zone)
      /\ characterManager s' = characterManager s.
Proof.
  intros zoneId s i zone F U.
  destruct (reset_frame s) as (Zr & Br & Fr & Mr).
  assert (F' : find zoneId (reset s) = Some (i, zone)).
  { unfold find in F |- *. rewrite Zr. exact F. }
  destruct (loadZone_found zoneId (reset s) i zone F' U)
    as (s' & placed & props & L & C & _ & _ & _ & Keys & _ & Objs & B & G & M).
  exists s'. split; [exact L|]. split; [exact C|].
  unfold isBossActive, getBoss. rewrite B, G, Br, Fr.
  split; [reflexivity|]. split; [reflexivity|]. split; [reflexivity|].
  split; [exact Keys|]. split; [exact Objs|]. rewrite M. exact Mr.
Qed.

(** *** What [update] never does *)

(** [z'] is the zone [z], its placements in other states perhaps, and
    unlocked if [z] was. *)
Definition zone_kept (z z' : GameZone) : Prop :=
  id z' = id z
  /\ name z' = name z
  /\ bounds z' = bounds z
  /\ kickableObjects z' = kickableObjects z
  /\ boss z' = boss z
  /\ theme z' = theme z
  /\ requiredCharacters z' = requiredCharacters z
  /\ Forall2 same_placement (enemies z) (enemies z')
  /\ (isUnlocked z = true -> isUnlocked z' = true).

Lemma same_placement_trans (a b c : StationaryEnemy) :
  same_placement a b -> same_placement b c -> same_placement a c.
Proof.
  intros (A1 & A2 & A3 & A4 & A5) (B1 & B2 & B3 & B4 & B5).
  repeat split; congruence.
Qed.

Lemma Forall2_refl_of {A : Type} (R : A -> A -> Prop) (l : list A) :
  (forall a, R a a) -> Forall2 R l l.
Proof. intros H. induction l as [|a l IH]; constructor; auto. Qed.

Lemma Forall2_trans_of {A : Type} (R : A -> A -> Prop) (l1 l2 l3 : list A) :
  (forall a b c, R a b -> R b c -> R a c) ->
  Forall2 R l1 l2 -> Forall2 R l2 l3 -> Forall2 R l1 l3.
Proof.
  intros T H. revert l3. induction H as [|a b l1 l2 Rab H IH]; intros l3 H3.
  - inversion H3. constructor.
  - inversion H3 as [|b' c l2' l3' Rbc H3']; subst. constructor.
    + exact (T a b c Rab Rbc).
    + exact (IH l3' H3').
Qed.

Lemma zone_kept_refl (z : GameZone) : zone_kept z z.
Proof.
  repeat split; auto. apply Forall2_refl_of. apply same_placement_refl.
Qed.

Lemma zone_kept_trans (a b c : GameZone) :
  zone_kept a b -> zone_kept b c -> zone_kept a c.
Proof.
  intros (A1 & A2 & A3 & A4 & A5 & A6 & A7 & A8 & A9)
         (B1 & B2 & B3 & B4 & B5 & B6 & B7 & B8 & B9).
  repeat split; try congruence; auto.
  exact (Forall2_trans_of _ _ _ _ same_placement_trans A8 B8).
Qed.

Lemma zones_kept_refl (zs : list GameZone) : Forall2 zone_kept zs zs.
Proof. apply Forall2_refl_of, zone_kept_refl. Qed.

Lemma zones_kept_trans (a b c : list GameZone) :
  Forall2 zone_kept a b -> Forall2 zone_kept b c -> Forall2 zone_kept a c.
Proof. apply Forall2_trans_of, zone_kept_trans. Qed.

(** A change of one zone that keeps it keeps the zones. *)
Lemma modify_kept (f : GameZone -> GameZone) (i : nat) (zs : list GameZone) :
  (forall z, nth_error zs i = Some z -> zone_kept z (f z)) ->
  Forall2 zone_kept zs (modify i f zs).
Proof.
  revert i. induction zs as [|z zs IH]; intros i H.
  - destruct i; constructor.
  - destruct i as [|i]; cbn [modify].
    + constructor; [exact (H z eq_refl)|apply zones_kept_refl].
    + constructor; [apply zone_kept_refl|]. apply IH. intros z' N. exact (H z' N).
Qed.

Lemma unlock_kept (z : GameZone) : zone_kept z (set_isUnlocked true z).
Proof.
  repeat split. apply Forall2_refl_of. apply same_placement_refl.
Qed.

Lemma unlockNextZone_kept (s s' : t) (e : list Effect) :
  unlockNextZone s = Some (s', e) ->
  Forall2 zone_kept (zones s) (zones s')
  /\ currentZone s' = currentZone s
  /\ characterManager s' = characterManager s.
Proof.
  assert (Same : Forall2 zone_kept (zones s) (zones s)
                 /\ currentZone s = currentZone s
                 /\ characterManager s = characterManager s).
  { split; [apply zones_kept_refl|]. split; reflexivity. }
  unfold unlockNextZone. intros H.
  destruct (match getCurrentZone s with
            | Some zone => findIndex (id zone) (zones s)
            | None => None
            end) as [i|]; [|injection H as <- _; exact Same].
  destruct (i <? List.length (zones s) - 1)%nat; [|injection H as <- _; exact Same].
  cbv zeta in H.
  assert (K : Forall2 zone_kept (zones s)
                (modify (i + 1) (set_isUnlocked true) (zones s))).
  { apply modify_kept. intros z _. apply unlock_kept. }
  destruct (nth_error _ (i + 1)) as [nextZone|].
  - apply bind_inv in H. destruct H as (x & e1 & e2 & _ & H & _).
    injection H as <- _. split; [exact K|]. split; reflexivity.
  - injection H as <- _. split; [exact K|]. split; reflexivity.
Qed.

(** No call of the registry locks a character. *)
Definition characters_kept (cm cm' : CharacterManager.t) : Prop :=
  forall c : string,
    CharacterManager.isCharacterUnlocked c cm = true ->
    CharacterManager.isCharacterUnlocked c cm' = true.

Lemma unlockCharacterByBoss_kept (bossType : string) (cm : CharacterManager.t) :
  characters_kept cm (fst (CharacterManager.unlockCharacterByBoss bossType cm)).
Proof.
  assert (K : forall characterId,
             characters_kept cm (fst (CharacterManager.unlockCharacter characterId cm))).
  { intros characterId c H.
    unfold CharacterManager.unlockCharacter, CharacterManager.isCharacterUnlocked in *.
    destruct (negb _); [exact H|].
    destruct (CharacterManager.has characterId _); [exact H|].
    cbn [fst CharacterManager.unlockedCharacters]. unfold CharacterManager.has in *.
    rewrite existsb_app, H. reflexivity. }
  unfold CharacterManager.unlockCharacterByBoss.
  destruct (bossType =? "swarm-king")%string; [apply K|].
  destruct (bossType =? "desert-bomber")%string; [apply K|].
  destruct (bossType =? "ice-shark")%string; [apply K|].
  intros c H. exact H.
Qed.

Lemma onBossDefeated_kept (s s' : t) (e : list Effect) :
  onBossDefeated s = Some (s', e) ->
  Forall2 zone_kept (zones s) (zones s')
  /\ currentZone s' = currentZone s
  /\ characters_kept (characterManager s) (characterManager s').
Proof.
  unfold onBossDefeated. intros H.
  destruct (currentBoss s) as [b|];
    [|injection H as <- _; split; [apply zones_kept_refl|split; [reflexivity|intros c K; exact K]]].
  destruct (currentBossConfig s) as [cfg|];
    [|injection H as <- _; split; [apply zones_kept_refl|split; [reflexivity|intros c K; exact K]]].
  pose proof (unlockCharacterByBoss_kept (boss_type cfg) (characterManager s)) as Kc.
  destruct (CharacterManager.unlockCharacterByBoss (boss_type cfg) (characterManager s))
    as [cm unlocked].
  cbn [fst] in Kc.
  apply bind_inv in H. destruct H as (x1 & y1 & y2 & _ & H & _).
  apply bind_inv in H. destruct H as (x2 & y3 & y4 & _ & H & _).
  apply bind_inv in H. destruct H as (sU & y5 & y6 & HU & H & _).
  apply unlockNextZone_kept in HU. destruct HU as (Zk & Ck & Mk).
  injection H as <- _.
  cbn [zones currentZone characterManager set_isBossFight set_currentBoss].
  split; [exact Zk|]. split; [exact Ck|]. rewrite Mk. exact Kc.
Qed.

Lemma updateBoss_kept (playerPos : Vector2.t) (tick : Tick) (s s' : t)
    (e : list Effect) :
  updateBoss playerPos tick s = Some (s', e) ->
  Forall2 zone_kept (zones s) (zones s')
  /\ currentZone s' = currentZone s
  /\ characters_kept (characterManager s) (characterManager s').
Proof.
  assert (Same : Forall2 zone_kept (zones s) (zones s)
                 /\ currentZone s = currentZone s
                 /\ characters_kept (characterManager s) (characterManager s)).
  { split; [apply zones_kept_refl|]. split; [reflexivity|]. intros c K. exact K. }
  unfold updateBoss. intros H.
  destruct (currentBoss s) as [b|]; [|injection H as <- _; exact Same].
  destruct (Sprite.active _); [|injection H as <- _; exact Same].
  apply bind_inv in H. destruct H as (b' & e1 & e2 & _ & H & _).
  cbv zeta in H. destruct (_ && _).
  - apply onBossDefeated_kept in H. exact H.
  - injection H as <- _. exact Same.
Qed.

Lemma updateEnemyAggro_same (c c' : StationaryEnemy) (playerPos : Vector2.t)
    (e e' : Enemy.t) (effs : list Effect) :
  updateEnemyAggro c playerPos e = Some ((c', e'), effs) -> same_placement c c'.
Proof. intros H. apply (updateEnemyAggro_keeps c c' playerPos e e' effs H). Qed.

Lemma updatePlacements_same (playerPos : Vector2.t) (configs : list StationaryEnemy) :
  forall (pool pool' : PoolManager.t) (configs' : list StationaryEnemy)
         (effs : list Effect),
    updatePlacements playerPos configs pool = Some ((configs', pool'), effs) ->
    Forall2 same_placement configs configs'.
Proof.
  induction configs as [|c configs IH]; intros pool pool' configs' effs H.
  - injection H as <- _ _. constructor.
  - cbn [updatePlacements] in H.
    apply bind_inv in H. destruct H as ([c1 pool1] & e1 & e2 & H1 & H & _).
    apply bind_inv in H. destruct H as ([cs pool2] & e3 & e4 & H2 & H & _).
    injection H as <- _ _. cbn [fst snd] in *.
    constructor; [|exact (IH _ _ _ _ H2)].
    unfold updatePlacement in H1.
    destruct (enemy c) as [r|];
      [|injection H1 as <- _; apply same_placement_refl].
    destruct (PoolManager.read r pool) as [e|];
      [|injection H1 as <- _; apply same_placement_refl].
    destruct (negb _); [injection H1 as <- _; apply same_placement_refl|].
    apply bind_inv in H1. destruct H1 as ([c2 e2'] & x1 & x2 & U & H1 & _).
    injection H1 as <- _. cbn [fst].
    exact (updateEnemyAggro_same _ _ _ _ _ _ U).
Qed.

Lemma set_enemies_kept (z : GameZone) (configs' : list StationaryEnemy) :
  Forall2 same_placement (enemies z) configs' -> zone_kept z (set_enemies configs' z).
Proof. intros H. repeat split; auto. Qed.

Lemma updateEnemies_kept (playerPos : Vector2.t) (s s' : t) (e : list Effect) :
  updateEnemies playerPos s = Some (s', e) ->
  Forall2 zone_kept (zones s) (zones s')
  /\ currentZone s' = currentZone s
  /\ characterManager s' = characterManager s.
Proof.
  unfold updateEnemies, getCurrentZone. intros H.
  destruct (negb (isBossFight s));
    [|injection H as <- _; split; [apply zones_kept_refl|split; reflexivity]].
  destruct (currentZone s) as [i|] eqn:Z;
    [|injection H as <- _; split; [apply zones_kept_refl|split; [exact Z|reflexivity]]].
  destruct (nth_error (zones s) i) as [zone|] eqn:N;
    [|injection H as <- _; split; [apply zones_kept_refl|split; [exact Z|reflexivity]]].
  apply bind_inv in H. destruct H as ([configs' pool'] & e1 & e2 & P & H & _).
  apply updatePlacements_same in P. cbn [fst snd] in H. cbv zeta in H.
  cbn [currentBoss set_enemyPool set_zones] in H.
  set (s1 := set_enemyPool pool'
               (set_zones (modify i (set_enemies configs') (zones s)) s)) in *.
  assert (K1 : Forall2 zone_kept (zones s) (zones s1)
               /\ currentZone s1 = Some i
               /\ characterManager s1 = characterManager s).
  { split; [|split; [exact Z|reflexivity]].
    subst s1. cbn [zones set_enemyPool set_zones]. apply modify_kept.
    intros z Nz. rewrite N in Nz. injection Nz as <-.
    apply set_enemies_kept, P. }
  assert (Start : forall s2 e3, startBossFight s1 = Some (s2, e3) ->
                    zones s2 = zones s1 /\ currentZone s2 = currentZone s1
                    /\ characterManager s2 = characterManager s1).
  { intros s2 e3 S. unfold startBossFight in S.
    destruct (currentBossConfig s1); injection S as <- _; repeat split. }
  destruct (boss zone) as [cfg|]; [|injection H as <- _; exact K1].
  destruct (currentBoss s); [injection H as <- _; exact K1|].
  destruct (_ <=? _); [|injection H as <- _; exact K1].
  destruct (Start _ _ H) as (A1 & A2 & A3). rewrite A1, A2, A3. exact K1.
Qed.

(** X21.  What [update] never does.  Whatever the manager is and
    whatever happens in the call (aggro, a boss fight starting or ending,
    sweeps), [update] never changes the current zone, never adds, drops,
    reorders or renames a zone, never changes the props, the boss
    configuration, the theme or the placements of a zone but for the
    states of the placements, never locks a zone that was unlocked, and
    never locks a character that was unlocked. *)
Theorem update_keeps_the_catalog :
  forall (dt : Q) (playerPos : Vector2.t) (tick : Tick) (s s' : t)
         (effs : list Effect),
    update dt playerPos tick s = Some (s', effs) ->
    currentZone s' = currentZone s
    /\ Forall2 zone_kept (zones s) (zones s')
    /\ List.length (zones s') = List.length (zones s)
    /\ characters_kept (characterManager s) (characterManager s').
Proof.
  intros dt playerPos tick s s' effs H.
  assert (G : currentZone s' = currentZone s
              /\ Forall2 zone_kept (zones s) (zones s')
              /\ characters_kept (characterManager s) (characterManager s')).
  { unfold update in H.
    destruct (currentZone s) as [zi|] eqn:Z.
    2:{ injection H as <- _. rewrite Z. split; [reflexivity|].
        split; [apply zones_kept_refl|intros c K; exact K]. }
    apply bind_inv in H. destruct H as (s1 & e1 & e2 & U & H & _).
    apply bind_inv in H. destruct H as (s2 & e3 & e4 & V & H & _).
    injection H as <- _.
    destruct (updateBoss_kept _ _ _ _ _ U) as (Z1 & C1 & M1).
    destruct (updateEnemies_kept _ _ _ _ V) as (Z2 & C2 & M2).
    destruct (sweeps_frame s2) as (_ & _ & Z3 & M3 & C3 & _).
    cbn [updateObjects zones currentZone characterManager set_activeObjects] in Z2, C2, M2.
    rewrite Z3, M3, C3, C2, C1, M2.
    split; [exact Z|]. split; [exact (zones_kept_trans _ _ _ Z1 Z2)|exact M1]. }
  destruct G as (C & Zk & M). split; [exact C|]. split; [exact Zk|].
  split; [symmetry; exact (Forall2_length Zk)|exact M].
Qed.

End WithRuntime.

(** *** The properties on the zones that ship *)

(** What a computation returned, and its effects. *)
Definition resultOf {A : Type} (m : M A) (default : A) : A :=
  match m with
  | Some (a, _) => a
  | None => default
  end.

Definition effectsOf {A : Type} (m : M A) : list Effect :=
  match m with
  | Some (_, e) => e
  | None => []
  end.

(** The first zone of the catalog. *)
Definition groveZone : GameZone :=
  nth 0 createGameZones
      (mkZone "" "" (mkBounds 0 0 0 0) [] [] None (mkTheme 0 "" 0 "") [] false).

(** [loadZone_loads_the_zone] on a new manager and the first zone: five
    enemies and three props. *)
Lemma loadZone_loads_the_zone_witness :
  find "tutorial-grove" new = Some (0%nat, groveZone)
  /\ isUnlocked groveZone = true
  /\ exists s' : t,
       loadZone "tutorial-grove" new = Some (s', [])
       /\ currentZone s' = Some 0%nat
       /\ map fst (activeEnemies s')
          = ["tutorial-grove-enemy-0"; "tutorial-grove-enemy-1";
             "tutorial-grove-enemy-2"; "tutorial-grove-enemy-3";
             "tutorial-grove-enemy-4"]%string
       /\ List.length (getActiveObjects s') = 3%nat
       /\ currentBoss s' = None.
Proof.
  assert (F : find "tutorial-grove" new = Some (0%nat, groveZone)) by reflexivity.
  assert (U : isUnlocked groveZone = true) by reflexivity.
  split; [exact F|]. split; [exact U|].
  destruct (loadZone_loads_the_zone "tutorial-grove" new 0 groveZone F U)
    as (s' & placed & props & L & C & _ & _ & _ & K & _ & _ & O & B & _).
  exists s'. split; [exact L|]. split; [exact C|].
  split; [exact K|]. split; [exact O|exact B].
Defined.

(** Stand-ins where a zone, a boss or a placement is looked up. *)
Definition noZone : GameZone :=
  mkZone "" "" (mkBounds 0 0 0 0) [] [] None (mkTheme 0 "" 0 "") [] false.

Definition noBoss : BossConfig := mkBossConfig "" "" Vector2.zero 0 [] 0 "".

Definition noPlacement : StationaryEnemy :=
  mkStationary Vector2.zero BASIC 0 None STATIONARY None.

(** The first zone as loaded in [grove], and its boss. *)
Definition groveLoaded : GameZone := nth 0 (zones grove) noZone.

Definition groveBoss : BossConfig :=
  match boss groveLoaded with
  | Some cfg => cfg
  | None => noBoss
  end.

(** Closes a goal by evaluation. *)
Ltac evaluated := vm_compute; reflexivity.

(** [boss_appears_inside_the_arena] in the grove: the player stands 200
    from the boss position, on the border of the arena. *)
Lemma boss_appears_inside_the_arena_witness :
  currentZone grove = Some 0%nat
  /\ nth_error (zones grove) 0 = Some groveLoaded
  /\ isBossFight grove = false
  /\ currentBoss grove = None
  /\ placements_ready (enemies groveLoaded) (enemyPool grove) = true
  /\ boss groveLoaded = Some groveBoss
  /\ Vector2.distance (Vector2.mk 900 400) (boss_position groveBoss)
     <= boss_arenaRadius groveBoss
  /\ exists (s' : t) (effs : list Effect),
       update 16 (Vector2.mk 900 400) (mkTick 5000 0 0 0 0) grove = Some (s', effs)
       /\ isBossActive s' = true
       /\ activeEnemies s' = [].
Proof.
  assert (Z : currentZone grove = Some 0%nat) by evaluated.
  assert (N : nth_error (zones grove) 0 = Some groveLoaded) by evaluated.
  assert (F : isBossFight grove = false) by evaluated.
  assert (B : currentBoss grove = None) by evaluated.
  assert (R : placements_ready (enemies groveLoaded) (enemyPool grove) = true)
    by evaluated.
  assert (Bz : boss groveLoaded = Some groveBoss) by evaluated.
  assert (D : Vector2.distance (Vector2.mk 900 400) (boss_position groveBoss)
              <= boss_arenaRadius groveBoss) by (apply Qle_bool_iff; evaluated).
  do 7 (split; [assumption|]).
  destruct (boss_appears_inside_the_arena 16 (Vector2.mk 900 400) (mkTick 5000 0 0 0 0)
              grove 0 groveLoaded groveBoss Z N F B R Bz)
    as (s' & effs & U & Near & _).
  destruct (Near D) as (A & _ & _ & _ & _ & E & _).
  exists s', effs. split; [exact U|]. split; [exact A|exact E].
Defined.

(** The grove in the boss fight, the player on the boss position. *)
Definition groveFight : t :=
  resultOf (update 16 (Vector2.mk 900 600) (mkTick 5000 0 0 0 0) grove) grove.

(** The same after 300 damage to the boss: it is dead and dying. *)
Definition groveBossDying : t :=
  match currentBoss groveFight with
  | Some b =>
      set_currentBoss (Some (fst (resultOf (Boss.takeDamage 300 b) (b, false))))
                      groveFight
  | None => groveFight
  end.

Definition dyingZone : GameZone := nth 0 (zones groveBossDying) noZone.

Definition dyingBoss : Boss.t :=
  match currentBoss groveBossDying with
  | Some b => b
  | None => Boss.new noBoss
  end.

(** The last step of that boss. *)
Definition lastStep : M Boss.t :=
  Boss.update 16 (Vector2.mk 900 600) (mkTick 5016 0 0 0 0) dyingBoss.

(** [boss_defeat_unlocks_and_can_restart] in the grove: the second zone
    is unlocked, the character of the boss too, and the player being on
    the boss position a new boss is there at once, at full health. *)
Lemma boss_defeat_unlocks_and_can_restart_witness :
  currentZone groveBossDying = Some 0%nat
  /\ nth_error (zones groveBossDying) 0 = Some dyingZone
  /\ boss dyingZone = Some groveBoss
  /\ findIndex (id dyingZone) (zones groveBossDying) = Some 0%nat
  /\ placements_ready (enemies dyingZone) (enemyPool groveBossDying) = true
  /\ currentBoss groveBossDying = Some dyingBoss
  /\ Sprite.active (Enemy.sprite (Boss.base dyingBoss)) = true
  /\ Boss.update 16 (Vector2.mk 900 600) (mkTick 5016 0 0 0 0) dyingBoss
     = Some (resultOf lastStep dyingBoss, effectsOf lastStep)
  /\ (Enemy.health (Boss.base (resultOf lastStep dyingBoss)) <=? 0)
     && Enemy.isDying (Boss.base (resultOf lastStep dyingBoss)) = true
  /\ option_map isUnlocked (nth_error (zones groveBossDying) 1) = Some false
  /\ exists (s' : t) (effs : list Effect),
       update 16 (Vector2.mk 900 600) (mkTick 5016 0 0 0 0) groveBossDying
       = Some (s', effs)
       /\ option_map isUnlocked (nth_error (zones s') 1) = Some true
       /\ CharacterManager.unlockedCharacters (characterManager s')
          = ["br-br-patapim"; "chimpanzini-bananini"]%string
       /\ isBossActive s' = true
       /\ option_map (fun x => Enemy.health (Boss.base x)) (getBoss s') = Some 300.
Proof.
  assert (Z : currentZone groveBossDying = Some 0%nat) by evaluated.
  assert (N : nth_error (zones groveBossDying) 0 = Some dyingZone) by evaluated.
  assert (Bz : boss dyingZone = Some groveBoss) by evaluated.
  assert (FI : findIndex (id dyingZone) (zones groveBossDying) = Some 0%nat)
    by evaluated.
  assert (R : placements_ready (enemies dyingZone) (enemyPool groveBossDying) = true)
    by evaluated.
  assert (B : currentBoss groveBossDying = Some dyingBoss) by evaluated.
  assert (A : Sprite.active (Enemy.sprite (Boss.base dyingBoss)) = true) by evaluated.
  assert (U : Boss.update 16 (Vector2.mk 900 600) (mkTick 5016 0 0 0 0) dyingBoss
              = Some (resultOf lastStep dyingBoss, effectsOf lastStep)) by evaluated.
  assert (Dead : (Enemy.health (Boss.base (resultOf lastStep dyingBoss)) <=? 0)
                 && Enemy.isDying (Boss.base (resultOf lastStep dyingBoss)) = true)
    by evaluated.
  assert (Locked : option_map isUnlocked (nth_error (zones groveBossDying) 1)
                   = Some false) by evaluated.
  do 10 (split; [assumption|]).
  assert (D : Vector2.distance (Vector2.mk 900 600) (boss_position groveBoss)
              <= boss_arenaRadius groveBoss) by (apply Qle_bool_iff; evaluated).
  assert (Nx : nth_error (zones groveBossDying) 1
               = Some (nth 1 (zones groveBossDying) noZone)) by evaluated.
  destruct (boss_defeat_unlocks_and_can_restart 16 (Vector2.mk 900 600)
              (mkTick 5016 0 0 0 0) groveBossDying 0 dyingZone groveBoss dyingBoss
              (resultOf lastStep dyingBoss) (effectsOf lastStep)
              Z N Bz FI R B A U Dead)
    as (s' & effs & Up & _ & M & Next & _ & _ & Near).
  destruct (Next _ Nx) as (next' & Nn & _ & Un).
  destruct (Near D) as (Act & G).
  exists s', effs. split; [exact Up|].
  split; [rewrite Nn; cbn [option_map]; rewrite Un; reflexivity|].
  split; [rewrite M; evaluated|].
  split; [exact Act|]. rewrite G. evaluated.
Defined.

(** The grove with its barrel broken. *)
Definition groveBarrelBroken : t :=
  set_activeObjects
    (Map_set "tutorial-grove-object-0"
             (KickableObject.takeDamage 30 (KickableObject.new 350 250 KickableObject.BARREL))
             (activeObjects grove))
    grove.

Definition sweepStep : M t :=
  update 16 (Vector2.mk 100 100) (mkTick 5000 0 0 0 0) groveBarrelBroken.

(** [update_sweeps_the_broken_props] on that grove: of the three props
    the two that are whole remain. *)
Lemma update_sweeps_the_broken_props_witness :
  List.length (activeObjects groveBarrelBroken) = 3%nat
  /\ currentZone groveBarrelBroken <> None
  /\ exists (s' : t) (effs : list Effect),
       update 16 (Vector2.mk 100 100) (mkTick 5000 0 0 0 0) groveBarrelBroken
       = Some (s', effs)
       /\ Forall (fun kv => KickableObject.isBroken (snd kv) = false) (activeObjects s')
       /\ map fst (activeObjects s')
          = ["tutorial-grove-object-1"; "tutorial-grove-object-2"]%string.
Proof.
  split; [evaluated|].
  assert (Z : currentZone groveBarrelBroken <> None) by (vm_compute; discriminate).
  split; [exact Z|].
  assert (K : map fst (activeObjects groveBarrelBroken)
              = ["tutorial-grove-object-0"; "tutorial-grove-object-1";
                 "tutorial-grove-object-2"]%string) by evaluated.
  assert (D : NoDup (map fst (activeObjects groveBarrelBroken))).
  { rewrite K. repeat constructor; cbn; intuition discriminate. }
  assert (U : update 16 (Vector2.mk 100 100) (mkTick 5000 0 0 0 0) groveBarrelBroken
              = Some (resultOf sweepStep groveBarrelBroken, effectsOf sweepStep))
    by evaluated.
  destruct (update_sweeps_the_broken_props 16 (Vector2.mk 100 100)
              (mkTick 5000 0 0 0 0) groveBarrelBroken _ _ U Z) as (All & _ & Exact).
  exists (resultOf sweepStep groveBarrelBroken), (effectsOf sweepStep).
  split; [exact U|]. split; [exact All|].
  rewrite (Exact D). evaluated.
Defined.

(** The first placement of the grove and its enemy. *)
Definition firstPlacement : StationaryEnemy := nth 0 (enemies groveLoaded) noPlacement.

Definition firstEnemy : Enemy.t :=
  match PoolManager.read 0 (enemyPool grove) with
  | Some e => e
  | None => Enemy_new
  end.

Definition firstCheck : M (StationaryEnemy * Enemy.t) :=
  updateEnemyAggro firstPlacement (Vector2.mk 360 280) firstEnemy.

(** [aggro_flag_follows_the_state] on the first enemy of the grove, the
    player at distance 100 from it. *)
Lemma aggro_flag_follows_the_state_witness :
  aggro_consistent firstPlacement firstEnemy
  /\ exists (c' : StationaryEnemy) (e' : Enemy.t) (effs : list Effect),
       updateEnemyAggro firstPlacement (Vector2.mk 360 280) firstEnemy
       = Some ((c', e'), effs)
       /\ state c' = AGGROED
       /\ aggro_consistent c' e'
       /\ Enemy.movementType e' = Some "homing"%string.
Proof.
  assert (A : aggro_consistent firstPlacement firstEnemy).
  { split; intros H; vm_compute in H; discriminate H. }
  split; [exact A|].
  assert (U : updateEnemyAggro firstPlacement (Vector2.mk 360 280) firstEnemy
              = Some ((fst (resultOf firstCheck (firstPlacement, firstEnemy)),
                       snd (resultOf firstCheck (firstPlacement, firstEnemy))),
                      effectsOf firstCheck)) by evaluated.
  destruct (aggro_flag_follows_the_state _ _ _ _ _ _ U A) as (A' & Hm & _ & _).
  assert (St : state (fst (resultOf firstCheck (firstPlacement, firstEnemy))) = AGGROED)
    by evaluated.
  eexists. eexists. eexists. split; [exact U|].
  split; [exact St|]. split; [exact A'|exact (Hm St)].
Defined.

(** The second zone, loaded: it has a patrol. *)
Definition outpostLoaded : GameZone := nth 1 (zones (loaded "desert-outpost")) noZone.

(** [aggro_loop_keeps_the_placements_ready] on the second zone. *)
Lemma aggro_loop_keeps_the_placements_ready_witness :
  getCurrentZone (loaded "desert-outpost") = Some outpostLoaded
  /\ placements_ready (enemies outpostLoaded) (enemyPool (loaded "desert-outpost")) = true
  /\ exists (configs' : list StationaryEnemy) (pool' : PoolManager.t)
            (effs : list Effect),
       updatePlacements (Vector2.mk 1700 300) (enemies outpostLoaded)
                        (enemyPool (loaded "desert-outpost"))
       = Some ((configs', pool'), effs)
       /\ placements_ready configs' pool' = true.
Proof.
  split; [evaluated|].
  assert (R : placements_ready (enemies outpostLoaded)
                               (enemyPool (loaded "desert-outpost")) = true)
    by evaluated.
  split; [exact R|].
  destruct (aggro_loop_keeps_the_placements_ready (Vector2.mk 1700 300) _ _ R)
    as (configs' & pool' & effs & H & _ & R' & _).
  exists configs', pool', effs. split; [exact H|exact R'].
Defined.

(** [reset_then_loadZone_starts_clean] on the grove in its boss fight:
    after the reset the grove loads again, without a boss. *)
Lemma reset_then_loadZone_starts_clean_witness :
  isBossActive groveFight = true
  /\ find "tutorial-grove" groveFight = Some (0%nat, nth 0 (zones groveFight) noZone)
  /\ isUnlocked (nth 0 (zones groveFight) noZone) = true
  /\ exists s' : t,
       loadZone "tutorial-grove" (reset groveFight) = Some (s', [])
       /\ currentZone s' = Some 0%nat
       /\ isBossActive s' = false.
Proof.
  assert (A : isBossActive groveFight = true) by evaluated.
  assert (F : find "tutorial-grove" groveFight
              = Some (0%nat, nth 0 (zones groveFight) noZone)) by evaluated.
  assert (U : isUnlocked (nth 0 (zones groveFight) noZone) = true) by evaluated.
  split; [exact A|]. split; [exact F|]. split; [exact U|].
  destruct (reset_then_loadZone_starts_clean "tutorial-grove" groveFight 0 _ F U)
    as (s' & L & C & B & _).
  exists s'. split; [exact L|]. split; [exact C|exact B].
Defined.

Definition defeatStep : M t :=
  update 16 (Vector2.mk 900 600) (mkTick 5016 0 0 0 0) groveBossDying.

(** [update_keeps_the_catalog] on the update in which the boss of the
    grove is defeated: three zones before and after, the grove current. *)
Lemma update_keeps_the_catalog_witness :
  update 16 (Vector2.mk 900 600) (mkTick 5016 0 0 0 0) groveBossDying
  = Some (resultOf defeatStep groveBossDying, effectsOf defeatStep)
  /\ currentZone (resultOf defeatStep groveBossDying) = Some 0%nat
  /\ List.length (zones (resultOf defeatStep groveBossDying)) = 3%nat
  /\ Forall2 zone_kept (zones groveBossDying) (zones (resultOf defeatStep groveBossDying)).
Proof.
  assert (U : update 16 (Vector2.mk 900 600) (mkTick 5016 0 0 0 0) groveBossDying
              = Some (resultOf defeatStep groveBossDying, effectsOf defeatStep))
    by evaluated.
  split; [exact U|].
  destruct (update_keeps_the_catalog 16 (Vector2.mk 900 600) (mkTick 5016 0 0 0 0)
              groveBossDying _ _ U) as (C & Zk & Ln & _).
  split; [rewrite C; evaluated|]. split; [rewrite Ln; evaluated|exact Zk].
Defined.

End EncounterZones.

(** ** Characters: the unlock registry and the cooldowns *)

Module CharacterFacts.

(** *** The registry of unlocked characters *)

Section Registry.
Import CharacterManager.

(** The calls that change the registry. *)
Inductive Call : Type :=
| CallUnlock (characterId : string)
| CallUnlockByBoss (bossType : string).

Definition call (cm : t) (c : Call) : t :=
  match c with
  | CallUnlock characterId => fst (unlockCharacter characterId cm)
  | CallUnlockByBoss bossType => fst (unlockCharacterByBoss bossType cm)
  end.

(** The registry after a sequence of calls. *)
Definition calls (cs : list Call) (cm : t) : t := fold_left call cs cm.

(** The registry lists every character once, and characters of the
    catalog only. *)
Definition registry_ok (cm : t) : Prop :=
  NoDup (unlockedCharacters cm)
  /\ incl (unlockedCharacters cm) characterIds.

Lemma has_In (characterId : string) (l : list string) :
  has characterId l = true <-> In characterId l.
Proof.
  unfold has. rewrite existsb_exists. split.
  - intros (x & I & E). apply String.eqb_eq in E. subst x. exact I.
  - intros I. exists characterId. split; [exact I|apply String.eqb_refl].
Qed.

Lemma has_app (characterId : string) (l l' : list string) :
  has characterId (l ++ l') = has characterId l || has characterId l'.
Proof. unfold has. apply existsb_app. Qed.

Lemma character_unlock_keeps (characterId : string) (cm : t) (other : string) :
  isCharacterUnlocked other cm = true ->
  isCharacterUnlocked other (fst (unlockCharacter characterId cm)) = true.
Proof.
  unfold unlockCharacter, isCharacterUnlocked. intros O.
  destruct (negb _); [exact O|].
  destruct (has characterId (unlockedCharacters cm)); [exact O|].
  cbn [fst unlockedCharacters]. rewrite has_app, O. reflexivity.
Qed.

(** X22.  A character is unlocked once.  [unlockCharacter] returns
    true exactly when the id is in the catalog and not unlocked yet; then
    the character is unlocked, the count of unlocked characters is one
    more, and a second call returns false and changes nothing.  When it
    returns false the registry is as it was.  No call locks a character
    that was unlocked. *)
Theorem character_is_unlocked_once :
  forall (characterId : string) (cm : t),
    snd (unlockCharacter characterId cm)
    = has characterId characterIds && negb (isCharacterUnlocked characterId cm)
    /\ (snd (unlockCharacter characterId cm) = true ->
        isCharacterUnlocked characterId (fst (unlockCharacter characterId cm)) = true
        /\ fst (getCharacterProgress (fst (unlockCharacter characterId cm)))
           = S (fst (getCharacterProgress cm))
        /\ unlockCharacter characterId (fst (unlockCharacter characterId cm))
           = (fst (unlockCharacter characterId cm), false))
    /\ (snd (unlockCharacter characterId cm) = false ->
        fst (unlockCharacter characterId cm) = cm)
    /\ (forall other : string,
           isCharacterUnlocked other cm = true ->
           isCharacterUnlocked other (fst (unlockCharacter characterId cm)) = true).
Proof.
  intros characterId cm. unfold unlockCharacter, isCharacterUnlocked, getCharacterProgress.
  destruct (has characterId characterIds) eqn:C; cbn [negb andb fst snd].
  - destruct (has characterId (unlockedCharacters cm)) eqn:U; cbn [negb fst snd].
    + split; [reflexivity|]. split; [discriminate|]. split; auto.
    + split; [reflexivity|]. split; [|split; [discriminate|]].
      * intros _. cbn [unlockedCharacters].
        assert (H : has characterId (unlockedCharacters cm ++ [characterId]) = true).
        { rewrite has_app. apply orb_true_iff. right.
          apply has_In. left. reflexivity. }
        split; [exact H|]. split.
        -- rewrite length_app. cbn [List.length]. lia.
        -- cbn [negb unlockedCharacters]. rewrite H. reflexivity.
      * intros other O. cbn [unlockedCharacters]. rewrite has_app, O. reflexivity.
  - split; [reflexivity|]. split; [discriminate|]. split; auto.
Qed.

Lemma unlockCharacter_ok (characterId : string) (cm : t) :
  registry_ok cm -> registry_ok (fst (unlockCharacter characterId cm)).
Proof.
  intros (D & I). unfold unlockCharacter.
  destruct (has characterId characterIds) eqn:C; cbn [negb]; [|split; assumption].
  destruct (has characterId (unlockedCharacters cm)) eqn:U; [split; assumption|].
  cbn [fst unlockedCharacters]. split.
  - apply NoDup_app; [exact D|repeat constructor; intros []|].
    intros x Ix [<-|[]].
    apply has_In in Ix. congruence.
  - apply incl_app; [exact I|]. intros x [<-|[]]. apply has_In, C.
Qed.

Lemma call_ok (cm : t) (c : Call) : registry_ok cm -> registry_ok (call cm c).
Proof.
  intros H. destruct c as [characterId|bossType]; cbn [call].
  - apply unlockCharacter_ok, H.
  - unfold unlockCharacterByBoss.
    destruct (bossType =? "swarm-king")%string; [apply unlockCharacter_ok, H|].
    destruct (bossType =? "desert-bomber")%string; [apply unlockCharacter_ok, H|].
    destruct (bossType =? "ice-shark")%string; [apply unlockCharacter_ok, H|].
    exact H.
Qed.

Lemma NoDup_incl_length_le (l l' : list string) :
  NoDup l -> incl l l' -> (List.length l <= List.length l')%nat.
Proof. apply NoDup_incl_length. Qed.

(** X23.  The registry of unlocked characters, from its first state
    and through any calls of [unlockCharacter] and
    [unlockCharacterByBoss]: it lists no character twice and none that is
    not in the catalog, so the progress it reports never exceeds the
    total of six; the default character stays unlocked; and a boss type
    other than the three known ones unlocks nothing. *)
Theorem registry_stays_within_the_catalog :
  forall (cs : list Call),
    let cm := calls cs initial in
    registry_ok cm
    /\ (fst (getCharacterProgress cm) <= snd (getCharacterProgress cm))%nat
    /\ snd (getCharacterProgress cm) = 6%nat
    /\ isCharacterUnlocked "br-br-patapim" cm = true
    /\ (forall bossType : string,
           existsb (String.eqb bossType) ["swarm-king"; "desert-bomber"; "ice-shark"]%string
           = false ->
           unlockCharacterByBoss bossType cm = (cm, false)).
Proof.
  intros cs cm.
  assert (G : forall cm0 : t,
             registry_ok cm0 /\ isCharacterUnlocked "br-br-patapim" cm0 = true ->
             registry_ok (calls cs cm0)
             /\ isCharacterUnlocked "br-br-patapim" (calls cs cm0) = true).
  { induction cs as [|c cs IH]; intros cm0 (Ok & Def); [split; assumption|].
    unfold calls. cbn [fold_left]. apply IH. split; [apply call_ok, Ok|].
    destruct c as [characterId|bossType]; cbn [call].
    - apply character_unlock_keeps, Def.
    - unfold unlockCharacterByBoss.
      destruct (bossType =? "swarm-king")%string;
        [apply character_unlock_keeps, Def|].
      destruct (bossType =? "desert-bomber")%string;
        [apply character_unlock_keeps, Def|].
      destruct (bossType =? "ice-shark")%string;
        [apply character_unlock_keeps, Def|].
      exact Def. }
  destruct (G initial) as (Ok & Def).
  { split; [|reflexivity]. split.
    - repeat constructor. intros [].
    - intros x [<-|[]]. left. reflexivity. }
  fold cm in Ok, Def.
  split; [exact Ok|]. split.
  { destruct Ok as (D & I). unfold getCharacterProgress. cbn [fst snd].
    apply NoDup_incl_length_le; assumption. }
  split; [reflexivity|]. split; [exact Def|].
  intros bossType U. cbn [existsb] in U.
  apply orb_false_iff in U. destruct U as (U1 & U).
  apply orb_false_iff in U. destruct U as (U2 & U).
  apply orb_false_iff in U. destruct U as (U3 & _).
  unfold unlockCharacterByBoss. rewrite U1, U2, U3. reflexivity.
Qed.

End Registry.

(** *** Cooldowns *)

Section Cooldowns.
Import Character.

Lemma Map_get_set_same {V : Type} (key : string) (value : V) (m : list (string * V)) :
  Map_get key (EncounterSystem.Map_set key value m) = Some value.
Proof.
  induction m as [|[k v] m IH]; cbn [EncounterSystem.Map_set Map_get].
  - rewrite String.eqb_refl. reflexivity.
  - destruct (k =? key)%string eqn:E; cbn [Map_get]; rewrite E; [reflexivity|exact IH].
Qed.

Lemma Map_get_set_other {V : Type} (key other : string) (value : V)
    (m : list (string * V)) :
  other <> key ->
  Map_get other (EncounterSystem.Map_set key value m) = Map_get other m.
Proof.
  intros N. induction m as [|[k v] m IH]; cbn [EncounterSystem.Map_set Map_get].
  - destruct (key =? other)%string eqn:E; [|reflexivity].
    apply String.eqb_eq in E. congruence.
  - destruct (k =? key)%string eqn:E; cbn [Map_get].
    + apply String.eqb_eq in E. subst k.
      destruct (key =? other)%string eqn:E'; [|reflexivity].
      apply String.eqb_eq in E'. congruence.
    + rewrite IH. reflexivity.
Qed.

(** The time of the last use that [canUseAbility] reads. *)
Definition lastUse (abilityId : string) (this : t) : Q :=
  match Map_get abilityId (lastAbilityUse this) with
  | Some used => used
  | None => 0
  end.

(** X24.  The cooldown of an ability is respected.  [useAbility] gives
    the ability only if the character has it and its cooldown has passed
    since the last use (since time 0 if it was never used).  After a use
    at time [time], the ability can be used again exactly from
    [time + cooldown] on, and a call before that returns null and changes
    nothing; the cooldowns of the other abilities are not touched.  (The
    clock reads the same at both places of a call.) *)
Theorem ability_cooldown_is_respected :
  forall (time : Q) (abilityId : string) (this this' : t) (ability : CharacterAbility),
    useAbility time abilityId this = (this', Some ability) ->
    getAbility abilityId this = Some ability
    /\ cooldown ability <= time - lastUse abilityId this
    /\ config this' = config this
    /\ (forall later : Q,
           canUseAbility later abilityId this' = (cooldown ability <=? later - time))
    /\ (forall later : Q,
           later - time < cooldown ability ->
           useAbility later abilityId this' = (this', None))
    /\ (forall (other : string) (later : Q),
           other <> abilityId ->
           canUseAbility later other this' = canUseAbility later other this).
Proof.
  intros time abilityId this this' ability H.
  unfold useAbility in H.
  destruct (canUseAbility time abilityId this) eqn:Can; cbn [negb] in H;
    [|discriminate H].
  unfold canUseAbility in Can.
  destruct (getAbility abilityId this) as [a|] eqn:G; [|discriminate Can].
  injection H as <- <-. cbv zeta in Can. fold (lastUse abilityId this) in Can.
  apply Qle_bool_iff in Can.
  split; [reflexivity|]. split; [exact Can|]. split; [reflexivity|].
  assert (K : forall later : Q,
             canUseAbility later abilityId
               (mk (config this)
                   (EncounterSystem.Map_set abilityId time (lastAbilityUse this)))
             = (cooldown a <=? later - time)).
  { intros later. unfold canUseAbility, getAbility. cbn [config lastAbilityUse].
    unfold getAbility in G. rewrite G, Map_get_set_same. reflexivity. }
  split; [exact K|]. split.
  - intros later Early. unfold useAbility. rewrite K.
    apply Qleb_gt in Early. rewrite Early. reflexivity.
  - intros other later N. unfold canUseAbility, getAbility.
    cbn [config lastAbilityUse]. rewrite (Map_get_set_other _ _ _ _ N).
    reflexivity.
Qed.

End Cooldowns.

(** The default character of the catalog, with its two abilities. *)
Definition patapim : Character.t :=
  Character.new
    (Character.mkConfig "br-br-patapim" "Brr Brr Patapim" "The Original Kicker"
       100 1.0 80
       [ Character.mkAbility "tree-root-slam" "Tree Root Slam"
           "Slams the ground with tree roots, launching all nearby enemies" 8000;
         Character.mkAbility "monkey-fury" "Monkey Fury"
           "Increases kick speed and force for a short time" 12000 ]).

Definition firstSlam : Character.t * option Character.CharacterAbility :=
  Character.useAbility 10000 "tree-root-slam" patapim.

(** [ability_cooldown_is_respected] on the root slam of the default
    character, used at 10 s on the clock: not again at 17.9 s, again at
    18 s. *)
Lemma ability_cooldown_is_respected_witness :
  Character.useAbility 10000 "tree-root-slam" patapim
  = (fst firstSlam,
     Some (Character.mkAbility "tree-root-slam" "Tree Root Slam"
             "Slams the ground with tree roots, launching all nearby enemies" 8000))
  /\ Character.canUseAbility 17900 "tree-root-slam" (fst firstSlam) = false
  /\ Character.canUseAbility 18000 "tree-root-slam" (fst firstSlam) = true
  /\ Character.canUseAbility 12000 "monkey-fury" (fst firstSlam) = true.
Proof.
  assert (U : Character.useAbility 10000 "tree-root-slam" patapim
              = (fst firstSlam,
                 Some (Character.mkAbility "tree-root-slam" "Tree Root Slam"
                         "Slams the ground with tree roots, launching all nearby enemies"
                         8000))) by (vm_compute; reflexivity).
  split; [exact U|].
  destruct (ability_cooldown_is_respected 10000 "tree-root-slam" patapim _ _ U)
    as (_ & _ & _ & Again & _ & Others).
  split; [rewrite Again; vm_compute; reflexivity|].
  split; [rewrite Again; vm_compute; reflexivity|].
  rewrite Others; [vm_compute; reflexivity|discriminate].
Defined.

End CharacterFacts.
